(** * Rule-based NLU of the CRM bot: [parse_transcript] (src/nlu.py)

    The development embeds the rule-based intent classifier and entity
    extractor of [nlu.py] and proves the properties its specification
    states about it.

    Modelling choices.
    - A Python [str] is a [string] of 8-bit characters.  Character classes,
      case mapping and whitespace are those of Python on the ASCII range;
      characters above 127 have no case and belong to no class.  Python's
      own classes go beyond ASCII: [\d] and [\s] accept the digits and the
      spaces of other scripts, [re.IGNORECASE] and [str.lower] relate a few
      letters outside ASCII to i, s and k.  The model is the program on
      ASCII text ([isascii]); a theorem whose conclusion would fail on other
      text says so in a hypothesis.
    - [re.search] is a backtracking matcher over a regex syntax tree.  Each
      pattern of the source is written as such a tree next to its Python
      text.  The matcher lists the successes in the order in which a
      backtracking engine finds them, the first one being the match that
      [re] reports.
    - A [dict] of entities is a [gmap string string].
    - [dateparser.parse] and [datetime.isoformat] belong to libraries outside
      the repository and are parameters; the current moment that
      [dateparser.parse] reads is passed explicitly.

    Around the parser, the development embeds its caller and what the
    caller talks to: the AI layer ([ai_nlu.py]), the handler of the bot
    service ([app.py]), the CRM client ([crm_client.py]) and the mock CRM
    ([mock_crm.py]).
    - The network is a function from the request that [session.post] sends
      to the reply; the requests sent and the lines of the analytics log
      are returned beside the outcome.
    - The answer of the language model, the identifiers that [uuid4] draws
      and the messages of exceptions are inputs. *)

From Stdlib Require Import Ascii String List Bool Arith Lia.
From stdpp Require Import base option list gmap strings pretty.



(** ** Python string operations on the ASCII range *)

Module Py.

Definition in_range (lo hi a : ascii) : bool :=
  Ascii.leb lo a && Ascii.leb a hi.

(** [str.isspace] on ASCII: TAB, LF, VT, FF, CR, FS, GS, RS, US and space. *)
Definition isspace (a : ascii) : bool :=
  in_range "009" "013" a || in_range "028" "032" a.

Definition isdigit (a : ascii) : bool := in_range "0" "9" a.

Definition char_lower (a : ascii) : ascii :=
  if in_range "A" "Z" a then ascii_of_nat (nat_of_ascii a + 32) else a.

Definition char_upper (a : ascii) : ascii :=
  if in_range "a" "z" a then ascii_of_nat (nat_of_ascii a - 32) else a.

Fixpoint smap (f : ascii -> ascii) (s : string) : string :=
  match s with
  | EmptyString => EmptyString
  | String a s' => String (f a) (smap f s')
  end.

(** [s.lower()] and [s.upper()] *)
Definition lower : string -> string := smap char_lower.
Definition upper : string -> string := smap char_upper.

(** [s.capitalize()]: first character upper-cased, the rest lower-cased. *)
Definition capitalize (s : string) : string :=
  match s with
  | EmptyString => EmptyString
  | String a s' => String (char_upper a) (lower s')
  end.

Fixpoint lstrip (s : string) : string :=
  match s with
  | String a s' => if isspace a then lstrip s' else s
  | EmptyString => EmptyString
  end.

Fixpoint rstrip (s : string) : string :=
  match s with
  | EmptyString => EmptyString
  | String a s' =>
      match rstrip s' with
      | EmptyString => if isspace a then EmptyString else String a EmptyString
      | t => String a t
      end
  end.

(** [s.strip()] *)
Definition strip (s : string) : string := rstrip (lstrip s).

(** [sub in s] *)
Fixpoint contains (sub s : string) : bool :=
  String.prefix sub s ||
  match s with
  | EmptyString => false
  | String _ s' => contains sub s'
  end.

Fixpoint drop (n : nat) (s : string) : string :=
  match n, s with
  | S n', String _ s' => drop n' s'
  | _, _ => s
  end.

(** [s.replace(old, new)] for a non-empty [old]. *)
Fixpoint replace_go (fuel : nat) (old new s : string) : string :=
  match fuel with
  | 0 => s
  | S fuel' =>
      match s with
      | EmptyString => EmptyString
      | String a s' =>
          if String.prefix old s
          then new +:+ replace_go fuel' old new (drop (String.length old) s)
          else String a (replace_go fuel' old new s')
      end
  end.

Definition replace (old new s : string) : string :=
  replace_go (String.length s) old new s.

(** Truth value of a [str]: the empty string is false. *)
Definition truthy (s : string) : bool :=
  match s with EmptyString => false | _ => true end.

End Py.

(** ** Regular expressions *)

Module Re.

(** An item of a character class. *)
Inductive citem :=
| CChr (a : ascii)            (* a literal character *)
| CRng (lo hi : ascii)        (* lo-hi *)
| CDigit                      (* \d *)
| CSpace.                     (* \s *)

Inductive regex :=
| Eps
| Cls (neg : bool) (items : list citem)  (* [...], [^...], a literal, \d, \s, \D *)
| Dot                                    (* . : any character but a newline *)
| Eos                                    (* $ *)
| Seq (r1 r2 : regex)
| Alt (r1 r2 : regex)
| Rep (lo : nat) (hi : option nat) (r : regex)  (* greedy {lo,hi}; hi = None: unbounded *)
| Grp (n : nat) (r : regex).                    (* capturing group number n *)

Definition item_test (i : citem) (a : ascii) : bool :=
  match i with
  | CChr b => Ascii.eqb a b
  | CRng lo hi => Py.in_range lo hi a
  | CDigit => Py.isdigit a
  | CSpace => Py.isspace a
  end.

(** Under IGNORECASE a character matches an item when it or one of its two
    case variants does. *)
Definition item_mem (ic : bool) (i : citem) (a : ascii) : bool :=
  item_test i a ||
  (ic && (item_test i (Py.char_lower a) || item_test i (Py.char_upper a))).

Definition cls_mem (ic neg : bool) (items : list citem) (a : ascii) : bool :=
  xorb neg (existsb (fun i => item_mem ic i a) items).

(** The groups set so far: group number to captured text. *)
Abbreviation caps := (gmap nat string).

(** One way of matching: the text consumed, the text left, the groups. *)
Abbreviation success := (string * string * gmap nat string)%type.

(** Greedy repetition of [step]: one more iteration is tried before leaving
    the loop; leaving is allowed once [lo] iterations are done. *)
Fixpoint rep (step : string -> caps -> list success) (lo fuel : nat)
    (s : string) (c : caps) : list success :=
  match fuel with
  | 0 => match lo with 0 => [(EmptyString, s, c)] | S _ => [] end
  | S fuel' =>
      flat_map (fun '(m1, s1, c1) =>
                  map (fun '(m2, s2, c2) => (m1 +:+ m2, s2, c2))
                      (rep step (pred lo) fuel' s1 c1))
               (step s c)
      ++ match lo with 0 => [(EmptyString, s, c)] | S _ => [] end
  end.

(** All the ways in which [r] matches a prefix of [s], in backtracking
    order.  An unbounded repetition gets as many iterations as [s] has
    characters: every repeated body of the program's patterns consumes one
    character at least. *)
Fixpoint rmatch (ic : bool) (r : regex) (s : string) (c : caps) : list success :=
  match r with
  | Eps => [(EmptyString, s, c)]
  | Cls neg items =>
      match s with
      | String a s' =>
          if cls_mem ic neg items a then [(String a EmptyString, s', c)] else []
      | EmptyString => []
      end
  | Dot =>
      match s with
      | String a s' =>
          if Ascii.eqb a "010" then [] else [(String a EmptyString, s', c)]
      | EmptyString => []
      end
  | Eos =>
      match s with
      | EmptyString => [(EmptyString, s, c)]
      | String a EmptyString =>
          if Ascii.eqb a "010" then [(EmptyString, s, c)] else []
      | _ => []
      end
  | Seq r1 r2 =>
      flat_map (fun '(m1, s1, c1) =>
                  map (fun '(m2, s2, c2) => (m1 +:+ m2, s2, c2))
                      (rmatch ic r2 s1 c1))
               (rmatch ic r1 s c)
  | Alt r1 r2 => rmatch ic r1 s c ++ rmatch ic r2 s c
  | Rep lo hi r' =>
      rep (rmatch ic r') lo
          (match hi with Some h => h | None => S (String.length s) end) s c
  | Grp n r' =>
      map (fun '(m, s', c') => (m, s', <[n:=m]> c')) (rmatch ic r' s c)
  end.

(** [re.search(pattern, text, flags)]: the first success at the leftmost
    position that has one.  The result maps group numbers to their text,
    group 0 being the whole match. *)
Fixpoint search (ic : bool) (r : regex) (s : string) : option caps :=
  match rmatch ic r s ∅ with
  | (m, _, c) :: _ => Some (<[0:=m]> c)
  | [] =>
      match s with
      | EmptyString => None
      | String _ s' => search ic r s'
      end
  end.

(** [m.group(n)]; [None] when the group took no part in the match. *)
Definition group (m : caps) (n : nat) : option string := m !! n.

(** [len(m.groups())]: the number of groups of the pattern. *)
Fixpoint ngroups (r : regex) : nat :=
  match r with
  | Seq r1 r2 | Alt r1 r2 => ngroups r1 + ngroups r2
  | Rep _ _ r' => ngroups r'
  | Grp _ r' => S (ngroups r')
  | _ => 0
  end.

(** [re.sub(pattern, repl, s)] for a pattern that cannot match the empty
    string: every match, found left to right, is replaced by [repl]. *)
Fixpoint sub_go (fuel : nat) (ic : bool) (r : regex) (repl s : string) : string :=
  match fuel with
  | 0 => s
  | S fuel' =>
      match s with
      | EmptyString => EmptyString
      | String a s' =>
          match rmatch ic r s ∅ with
          | (String _ _, rest, _) :: _ => repl +:+ sub_go fuel' ic r repl rest
          | _ => String a (sub_go fuel' ic r repl s')
          end
      end
  end.

Definition sub (ic : bool) (r : regex) (repl s : string) : string :=
  sub_go (String.length s) ic r repl s.

(** *** Pattern syntax *)

Definition chr (a : ascii) : regex := Cls false [CChr a].

(** A literal string. *)
Fixpoint lit (s : string) : regex :=
  match s with
  | EmptyString => Eps
  | String a EmptyString => chr a
  | String a s' => Seq (chr a) (lit s')
  end.

Definition ws : regex := Cls false [CSpace].          (* \s *)
Definition digit : regex := Cls false [CDigit].       (* \d *)
Definition nondigit : regex := Cls true [CDigit].     (* \D *)
Definition opt (r : regex) : regex := Rep 0 (Some 1) r.   (* r? *)
Definition star (r : regex) : regex := Rep 0 None r.      (* r* *)
Definition plus (r : regex) : regex := Rep 1 None r.      (* r+ *)
Definition times (n : nat) (r : regex) : regex := Rep n (Some n) r.  (* r{n} *)
Definition atleast (n : nat) (r : regex) : regex := Rep n None r.    (* r{n,} *)

(** Alternation of several branches. *)
Fixpoint alts (rs : list regex) : regex :=
  match rs with
  | [] => Cls false []
  | [r] => r
  | r :: rs' => Alt r (alts rs')
  end.

End Re.

Import Re.
Infix "⋅" := Seq (at level 41, right associativity).

(** ** The patterns of [parse_transcript] *)

Module Pat.

Definition upper_az : regex := Cls false [CRng "A" "Z"].          (* [A-Z] *)
Definition lower_az : regex := Cls false [CRng "a" "z"].          (* [a-z] *)
Definition alpha : regex := Cls false [CRng "A" "Z"; CRng "a" "z"].  (* [A-Za-z] *)
Definition sep : regex := Cls false [CChr "-"; CSpace].           (* [-\s] *)
(** [[0-9a-fA-F-]] *)
Definition hexdash : regex :=
  Cls false [CRng "0" "9"; CRng "a" "f"; CRng "A" "F"; CChr "-"].
(** [[a-zA-Z0-9-]] *)
Definition alnumdash : regex :=
  Cls false [CRng "a" "z"; CRng "A" "Z"; CRng "0" "9"; CChr "-"].
Definition at_on : regex := Alt (lit "at") (lit "on").            (* (?:at|on) *)
Definition am_pm : regex := Alt (lit "AM") (lit "PM").            (* (?:AM|PM) *)

(** [(?:name\s+)?([A-Z][a-z]+\s+[A-Z][a-z]+)] *)
Definition two_words : regex :=
  upper_az ⋅ plus lower_az ⋅ plus ws ⋅ upper_az ⋅ plus lower_az.
Definition name : regex := opt (lit "name" ⋅ plus ws) ⋅ Grp 1 two_words.

(** [(\+91[-\s]?)?\d{5}[-\s]?\d{5}] *)
Definition phone : regex :=
  opt (Grp 1 (lit "+91" ⋅ opt sep)) ⋅ times 5 digit ⋅ opt sep ⋅ times 5 digit.

(** [(?:city\s+|from\s+)([A-Za-z]+)] *)
Definition city : regex :=
  Alt (lit "city" ⋅ plus ws) (lit "from" ⋅ plus ws) ⋅ Grp 1 (plus alpha).

(** [(?:via|source|referral|through)\s+([A-Za-z]+)] *)
Definition source : regex :=
  alts [lit "via"; lit "source"; lit "referral"; lit "through"]
  ⋅ plus ws ⋅ Grp 1 (plus alpha).

(** [lead\s+([0-9a-fA-F-]{8,})] and [lead\s+([a-zA-Z0-9-]{3,})] *)
Definition lead_patterns : list regex :=
  [ lit "lead" ⋅ plus ws ⋅ Grp 1 (atleast 8 hexdash);
    lit "lead" ⋅ plus ws ⋅ Grp 1 (atleast 3 alnumdash) ].

Definition months : regex :=
  alts [lit "January"; lit "February"; lit "March"; lit "April"; lit "May";
        lit "June"; lit "July"; lit "August"; lit "September"; lit "October";
        lit "November"; lit "December"].

Definition days : regex :=
  alts [lit "tomorrow"; lit "today"; lit "monday"; lit "tuesday";
        lit "wednesday"; lit "thursday"; lit "friday"; lit "saturday";
        lit "sunday"].

(** [\d{1,2}(?::\d{2})?\s*(?:AM|PM)?] *)
Definition clock : regex :=
  Rep 1 (Some 2) digit ⋅ opt (chr ":" ⋅ times 2 digit) ⋅ star ws ⋅ opt am_pm.

(** [\d{4}-\d{2}-\d{2}] *)
Definition ymd : regex :=
  times 4 digit ⋅ chr "-" ⋅ times 2 digit ⋅ chr "-" ⋅ times 2 digit.

Definition time_patterns : list regex :=
  [ (* (?:at|on)\s+(\d{4}-\d{2}-\d{2}T\d{2}:\d{2}:\d{2}) *)
    at_on ⋅ plus ws ⋅
      Grp 1 (ymd ⋅ chr "T" ⋅ times 2 digit ⋅ chr ":" ⋅ times 2 digit
                 ⋅ chr ":" ⋅ times 2 digit);
    (* (?:at|on)\s+(\d{4}-\d{2}-\d{2}\s+\d{1,2}:\d{2}) *)
    at_on ⋅ plus ws ⋅
      Grp 1 (ymd ⋅ plus ws ⋅ Rep 1 (Some 2) digit ⋅ chr ":" ⋅ times 2 digit);
    (* (?:at|on)\s+((?:January|...|December)\s+\d{1,2}\s+\d{1,2}\s*(?:AM|PM)?) *)
    at_on ⋅ plus ws ⋅
      Grp 1 (months ⋅ plus ws ⋅ Rep 1 (Some 2) digit ⋅ plus ws
                    ⋅ Rep 1 (Some 2) digit ⋅ star ws ⋅ opt am_pm);
    (* (tomorrow|today|monday|...|sunday)\s+(?:at\s+)?(\d{1,2}(?::\d{2})?\s*(?:AM|PM)?) *)
    Grp 1 days ⋅ plus ws ⋅ opt (lit "at" ⋅ plus ws) ⋅ Grp 2 clock;
    (* (?:at|on)\s+(\d{1,2}(?::\d{2})?\s*(?:AM|PM)?) *)
    at_on ⋅ plus ws ⋅ Grp 1 clock;
    (* (\d{1,2}:\d{2}(?:\s*(?:AM|PM))?) *)
    Grp 1 (Rep 1 (Some 2) digit ⋅ chr ":" ⋅ times 2 digit
               ⋅ opt (star ws ⋅ am_pm)) ].

(** [notes?\s+(.+)$] and [notes?:\s*(.+)$] *)
Definition visit_notes_patterns : list regex :=
  [ lit "note" ⋅ opt (chr "s") ⋅ plus ws ⋅ Grp 1 (plus Dot) ⋅ Eos;
    lit "note" ⋅ opt (chr "s") ⋅ chr ":" ⋅ star ws ⋅ Grp 1 (plus Dot) ⋅ Eos ].

(** [lead\s+([0-9a-fA-F-]+)] *)
Definition update_lead : regex := lit "lead" ⋅ plus ws ⋅ Grp 1 (plus hexdash).

(** [(NEW|IN PROGRESS|FOLLOW UP|WON|LOST)] *)
Definition status : regex :=
  Grp 1 (alts [lit "NEW"; lit "IN PROGRESS"; lit "FOLLOW UP"; lit "WON";
               lit "LOST"]).

(** [notes?:\s*(.+)] *)
Definition update_notes : regex :=
  lit "note" ⋅ opt (chr "s") ⋅ chr ":" ⋅ star ws ⋅ Grp 1 (plus Dot).

End Pat.

(** ** The program *)

(** Known lead sources (expandable) *)
Definition KNOWN_SOURCES : list string :=
  ["instagram"; "facebook"; "linkedin"; "website"; "google"; "ads"].

(** Status values *)
Definition VALID_STATUSES : list string :=
  ["NEW"; "IN_PROGRESS"; "FOLLOW_UP"; "WON"; "LOST"].

Inductive Intent := LEAD_CREATE | VISIT_SCHEDULE | LEAD_UPDATE | UNKNOWN.

(** The dictionary [{"intent": ..., "entities": ...}] that is returned. *)
Record ParseResult := mkResult {
  intent : Intent;
  entities : gmap string string
}.

(** [x in xs] for a collection of strings *)
Definition mem (x : string) (xs : list string) : bool :=
  existsb (String.eqb x) xs.

(** [key in entities] *)
Definition has_key (key : string) (entities : gmap string string) : bool :=
  bool_decide (is_Some (entities !! key)).

(** [set(keys).issubset(entities.keys())] *)
Definition issubset (keys : list string) (entities : gmap string string) : bool :=
  forallb (fun k => has_key k entities) keys.

(** [m.group(n)] where the text is used as a string.  In every pattern of
    the program the groups read this way lie outside any optional part, so
    a match always sets them (lemma [groups_read_are_set]). *)
Definition group_text (m : caps) (n : nat) : string :=
  default EmptyString (group m n).

(** [f"{x}"] of a group: [None] is printed as the word None. *)
Definition fmt (x : option string) : string := default "None" x.

(** *** 1. LEAD_CREATE *)

Definition lead_create_gate (lowered : string) : bool :=
  Py.contains "lead" lowered &&
  existsb (fun w => Py.contains w lowered) ["add"; "create"; "register"; "new"].

Definition lead_create_entities (text : string) : gmap string string :=
  let name_match := search false Pat.name text in
  let phone_match := search false Pat.phone text in
  let city_match := search false Pat.city text in
  let entities : gmap string string := ∅ in
  let entities :=
    match name_match with
    | Some m => <["name" := Py.strip (group_text m 1)]> entities
    | None => entities
    end in
  let entities :=
    match phone_match with
    | Some m => <["phone" := Re.sub false nondigit "" (group_text m 0)]> entities
    | None => entities
    end in
  let entities :=
    match city_match with
    | Some m => <["city" := Py.strip (group_text m 1)]> entities
    | None => entities
    end in
  (* Optional source (via, referral, source, through) *)
  let source_match := search true Pat.source text in
  match source_match with
  | Some m =>
      let candidate := Py.capitalize (group_text m 1) in
      if mem (Py.lower candidate) KNOWN_SOURCES
      then <["source" := candidate]> entities
      else entities
  | None => entities
  end.

(** *** 2. VISIT_SCHEDULE *)

Definition visit_schedule_gate (lowered : string) : bool :=
  existsb (fun keyword => Py.contains keyword lowered)
          ["visit"; "appointment"; "meeting"; "schedule"].

Definition stopwords : list string := ["at"; "on"; "for"; "with"; "and"; "or"].

(** The loop over [lead_patterns]: the first pattern that matches with a
    captured text that is not a stopword sets [lead_id] and ends the loop. *)
Fixpoint lead_id_loop (patterns : list regex) (text : string)
    (entities : gmap string string) : gmap string string :=
  match patterns with
  | [] => entities
  | pattern :: rest =>
      match search true pattern text with
      | Some m =>
          let lead_id := Py.strip (group_text m 1) in
          if negb (mem (Py.lower lead_id) stopwords)
          then <["lead_id" := lead_id]> entities
          else lead_id_loop rest text entities
      | None => lead_id_loop rest text entities
      end
  end.

(** The loop over [time_patterns]: [time_text] of the first pattern that
    matches; [None] when none does. *)
Fixpoint time_loop (patterns : list regex) (text : string) : option string :=
  match patterns with
  | [] => None
  | pattern :: rest =>
      match search true pattern text with
      | Some m =>
          if 1 <? ngroups pattern
          then Some (fmt (group m 1) +:+ " " +:+ fmt (group m 2))
          else Some (Py.strip (group_text m 1))
      | None => time_loop rest text
      end
  end.

(** The loop over [notes_patterns]. *)
Fixpoint notes_loop (patterns : list regex) (text : string)
    (entities : gmap string string) : gmap string string :=
  match patterns with
  | [] => entities
  | pattern :: rest =>
      match search true pattern text with
      | Some m => <["notes" := Py.strip (group_text m 1)]> entities
      | None => notes_loop rest text entities
      end
  end.

(** [if time_text:] on a value that is [None] or a string *)
Definition time_truthy (time_text : option string) : bool :=
  match time_text with Some t => Py.truthy t | None => false end.

(** *** 3. LEAD_UPDATE *)

Definition lead_update_gate (lowered : string) : bool :=
  Py.contains "update" lowered || Py.contains "mark" lowered
  || Py.contains "status" lowered.

Definition lead_update_entities (text : string) : gmap string string :=
  let lead_match := search false Pat.update_lead text in
  let status_match := search true Pat.status text in
  let entities : gmap string string := ∅ in
  let entities :=
    match lead_match with
    | Some m => <["lead_id" := Py.strip (group_text m 1)]> entities
    | None => entities
    end in
  let entities :=
    match status_match with
    | Some m =>
        let status := Py.replace " " "_" (Py.upper (group_text m 1)) in
        if mem status VALID_STATUSES
        then <["status" := status]> entities
        else entities
    | None => entities
    end in
  let notes_match := search true Pat.update_notes text in
  match notes_match with
  | Some m => <["notes" := Py.strip (group_text m 1)]> entities
  | None => entities
  end.

Section Nlu.

(** The date library: [datetime] objects, [dateparser.parse], which resolves
    a phrase against the current moment and returns [None] when it cannot
    parse, and [datetime.isoformat]. *)
Context {datetime : Type}.
Variable dateparser_parse : datetime -> string -> option datetime.
Variable isoformat : datetime -> string.

(** The entities of the VISIT_SCHEDULE block before its final test, and
    [time_text]. *)
Definition visit_schedule_entities (now : datetime) (text : string)
    : gmap string string * option string :=
  let entities : gmap string string := ∅ in
  let entities := lead_id_loop Pat.lead_patterns text entities in
  let time_text := time_loop Pat.time_patterns text in
  let entities :=
    match time_text with
    | Some t =>
        if Py.truthy t then
          match dateparser_parse now t with
          | Some parsed_time => <["visit_time" := isoformat parsed_time]> entities
          | None => entities
          end
        else entities
    | None => entities
    end in
  let entities := notes_loop Pat.visit_notes_patterns text entities in
  (entities, time_text).

(** The final test of the VISIT_SCHEDULE block. *)
Definition visit_schedule_ok (entities : gmap string string)
    (time_text : option string) : bool :=
  issubset ["lead_id"] entities &&
  (has_key "visit_time" entities || time_truthy time_text).

(** The entities that the VISIT_SCHEDULE block returns once its test has
    passed: the raw time text stands in when parsing failed. *)
Definition visit_schedule_result (entities : gmap string string)
    (time_text : option string) : gmap string string :=
  match time_text with
  | Some t =>
      if negb (has_key "visit_time" entities) && Py.truthy t
      then <["visit_time" := t]> entities
      else entities
  | None => entities
  end.

Definition parse_transcript (now : datetime) (transcript : string) : ParseResult :=
  let text := Py.strip transcript in
  let lowered := Py.lower text in
  let create := lead_create_entities text in
  if lead_create_gate lowered && issubset ["name"; "phone"; "city"] create
  then mkResult LEAD_CREATE create
  else
    let '(visit, time_text) := visit_schedule_entities now text in
    if visit_schedule_gate lowered && visit_schedule_ok visit time_text
    then mkResult VISIT_SCHEDULE (visit_schedule_result visit time_text)
    else
      let update := lead_update_entities text in
      if lead_update_gate lowered && issubset ["lead_id"; "status"] update
      then mkResult LEAD_UPDATE update
      else mkResult UNKNOWN ∅.

End Nlu.

(** ** A date library to run the program with *)

Module Clock.

(** A [datetime] without time zone or microseconds. *)
Record datetime := mkDate {
  year : nat; month : nat; day : nat;
  hour : nat; minute : nat; second : nat
}.

(** Modelled from the spec: the date-parsing capability of the Time
    Normalizer ([dateparser.parse], a library that is not part of the
    repository).  It takes a phrase and the current moment and gives an
    absolute timestamp or reports that it could not parse.  This one
    resolves an afternoon hour, one digit followed by PM, on the day of the
    current moment, and parses nothing else. *)
Definition parse (now : datetime) (phrase : string) : option datetime :=
  match phrase with
  | String d (String " " (String "P" (String "M" EmptyString))) =>
      if Py.isdigit d
      then Some (mkDate (year now) (month now) (day now)
                        (12 + (nat_of_ascii d - 48)) 0 0)
      else None
  | _ => None
  end.

Definition digit_of (n : nat) : ascii := ascii_of_nat (48 + n mod 10).

Definition pad2 (n : nat) : string :=
  String (digit_of (n / 10)) (String (digit_of n) EmptyString).

Definition pad4 (n : nat) : string := pad2 (n / 100) +:+ pad2 n.

(** Modelled from the spec: the canonical timestamp of the Time Normalizer
    ([datetime.isoformat] of the Python library), [YYYY-MM-DDTHH:MM:SS]. *)
Definition isoformat (d : datetime) : string :=
  pad4 (year d) +:+ "-" +:+ pad2 (month d) +:+ "-" +:+ pad2 (day d) +:+ "T"
  +:+ pad2 (hour d) +:+ ":" +:+ pad2 (minute d) +:+ ":" +:+ pad2 (second d).

(** [parse_transcript] with this date library. *)
Definition run : datetime -> string -> ParseResult :=
  parse_transcript parse isoformat.

End Clock.

(** Two mornings, a day apart, and the evening of the first. *)
Definition day1 : Clock.datetime := Clock.mkDate 2025 10 2 9 30 0.
Definition day2 : Clock.datetime := Clock.mkDate 2025 10 3 9 30 0.
Definition day1_evening : Clock.datetime := Clock.mkDate 2025 10 2 18 45 0.

(** ** Vocabulary of the statements *)

(** *** What a match is: the language of a pattern *)

Inductive matches (ic : bool) : regex -> string -> Prop :=
| M_eps : matches ic Eps EmptyString
| M_cls neg items a :
    cls_mem ic neg items a = true ->
    matches ic (Cls neg items) (String a EmptyString)
| M_dot a : Ascii.eqb a "010" = false -> matches ic Dot (String a EmptyString)
| M_eos : matches ic Eos EmptyString
| M_seq r1 r2 m1 m2 :
    matches ic r1 m1 -> matches ic r2 m2 -> matches ic (Seq r1 r2) (m1 +:+ m2)
| M_alt_l r1 r2 m : matches ic r1 m -> matches ic (Alt r1 r2) m
| M_alt_r r1 r2 m : matches ic r2 m -> matches ic (Alt r1 r2) m
| M_rep_stop hi r : matches ic (Rep 0 hi r) EmptyString
| M_rep_step lo hi r m1 m2 :
    hi <> Some 0 ->
    matches ic r m1 ->
    matches ic (Rep (pred lo) (pred <$> hi) r) m2 ->
    matches ic (Rep lo hi r) (m1 +:+ m2)
| M_grp n r m : matches ic r m -> matches ic (Grp n r) m.

(** [leftmost ic r pre suf]: no match of [r] starts inside [pre] when the
    text is [pre +:+ suf]. *)
Definition leftmost (ic : bool) (r : regex) (pre suf : string) : Prop :=
  forall p1 a p2, pre = p1 +:+ String a p2 ->
                  rmatch ic r (String a p2 +:+ suf) ∅ = [].

(** The same as a test: the pattern matches at no position of [pre]. *)
Fixpoint no_earlier_match (ic : bool) (r : regex) (pre suf : string) : bool :=
  match pre with
  | EmptyString => true
  | String _ pre' =>
      match rmatch ic r (pre +:+ suf) ∅ with
      | [] => no_earlier_match ic r pre' suf
      | _ :: _ => false
      end
  end.


(** *** Groups *)

(** The capturing groups of a pattern, with their bodies. *)
Fixpoint subgroups (r : regex) : list (nat * regex) :=
  match r with
  | Seq r1 r2 | Alt r1 r2 => subgroups r1 ++ subgroups r2
  | Rep _ _ r' => subgroups r'
  | Grp n r' => (n, r') :: subgroups r'
  | _ => []
  end.

(** [sets n r]: every match of [r] goes through group [n]. *)
Fixpoint sets (n : nat) (r : regex) : bool :=
  match r with
  | Seq r1 r2 => sets n r1 || sets n r2
  | Alt r1 r2 => sets n r1 && sets n r2
  | Rep lo _ r' => (0 <? lo) && sets n r'
  | Grp k r' => (n =? k) || sets n r'
  | _ => false
  end.

(** [capture_keeps ic I r]: setting a group of [r] to a match of its body
    keeps the property [I] of the groups. *)
Definition capture_keeps (ic : bool) (I : caps -> Prop) (r : regex) : Prop :=
  forall n r' m c, In (n, r') (subgroups r) -> matches ic r' m -> I c ->
                   I (<[n:=m]> c).

(** *** Characters and strings *)

Definition all_ascii : list ascii := map ascii_of_nat (seq 0 256).

(** Every character that [q] accepts is accepted by [p]. *)
Definition char_sub (q p : ascii -> bool) : bool :=
  forallb (fun a => implb (q a) (p a)) all_ascii.

Definition nonspace (a : ascii) : bool := negb (Py.isspace a).

(** A character of [[0-9a-fA-F-]]. *)
Definition hexdash_char (a : ascii) : bool :=
  Py.isdigit a || Py.in_range "a" "f" a || Py.in_range "A" "F" a
  || Ascii.eqb a "-".

Fixpoint scount (p : ascii -> bool) (s : string) : nat :=
  match s with
  | EmptyString => 0
  | String a s' => (if p a then 1 else 0) + scount p s'
  end.

Fixpoint sall (p : ascii -> bool) (s : string) : bool :=
  match s with
  | EmptyString => true
  | String a s' => p a && sall p s'
  end.

(** [s.isascii()]: every character is below 128.  On such text the
    character classes, the case mapping and the whitespace of the model are
    those of Python. *)
Definition isascii (s : string) : bool :=
  sall (fun a => nat_of_ascii a <? 128) s.

Fixpoint sfilter (p : ascii -> bool) (s : string) : string :=
  match s with
  | EmptyString => EmptyString
  | String a s' => if p a then String a (sfilter p s') else sfilter p s'
  end.

Fixpoint take (n : nat) (s : string) : string :=
  match n, s with
  | S n', String a s' => String a (take n' s')
  | _, _ => EmptyString
  end.

(** [lit_prefix ic l s]: the literal [l] matches at the start of [s]. *)
Fixpoint lit_prefix (ic : bool) (l s : string) : bool :=
  match l, s with
  | EmptyString, _ => true
  | String a l', String b s' => cls_mem ic false [CChr a] b && lit_prefix ic l' s'
  | String _ _, EmptyString => false
  end.

(** *** Static properties of the matches of a pattern *)

(** [first_in p ic r]: every match of [r] starts with a character in [p]. *)
Fixpoint first_in (p : ascii -> bool) (ic : bool) (r : regex) : bool :=
  match r with
  | Cls neg items => char_sub (cls_mem ic neg items) p
  | Dot => char_sub (fun a => negb (Ascii.eqb a "010")) p
  | Seq r1 _ => first_in p ic r1
  | Alt r1 r2 => first_in p ic r1 && first_in p ic r2
  | Rep lo _ r' => (0 <? lo) && first_in p ic r'
  | Grp _ r' => first_in p ic r'
  | Eps | Eos => false
  end.

(** [all_in p ic r]: every character of every match of [r] is in [p]. *)
Fixpoint all_in (p : ascii -> bool) (ic : bool) (r : regex) : bool :=
  match r with
  | Cls neg items => char_sub (cls_mem ic neg items) p
  | Dot => char_sub (fun a => negb (Ascii.eqb a "010")) p
  | Seq r1 r2 | Alt r1 r2 => all_in p ic r1 && all_in p ic r2
  | Rep _ _ r' | Grp _ r' => all_in p ic r'
  | Eps | Eos => true
  end.

(** [min_count p ic r]: a number of characters in [p] that every match of
    [r] has. *)
Fixpoint min_count (p : ascii -> bool) (ic : bool) (r : regex) : nat :=
  match r with
  | Cls neg items => if char_sub (cls_mem ic neg items) p then 1 else 0
  | Seq r1 r2 => min_count p ic r1 + min_count p ic r2
  | Alt r1 r2 => Nat.min (min_count p ic r1) (min_count p ic r2)
  | Rep lo _ r' => lo * min_count p ic r'
  | Grp _ r' => min_count p ic r'
  | _ => 0
  end.

(** [group_solid ic n r]: every match of [r] sets group [n] to a text that
    starts with a character other than whitespace. *)
Definition group_solid (ic : bool) (n : nat) (r : regex) : bool :=
  sets n r &&
  forallb (fun '(k, r') => implb (k =? n) (first_in nonspace ic r')) (subgroups r).

(** *** The blocks of the program *)

(** The entity schema: the required entities of each intent. *)
Definition required (i : Intent) : list string :=
  match i with
  | LEAD_CREATE => ["name"; "phone"; "city"]
  | VISIT_SCHEDULE => ["lead_id"; "visit_time"]
  | LEAD_UPDATE => ["lead_id"; "status"]
  | UNKNOWN => []
  end.

(** LEAD_CREATE, VISIT_SCHEDULE and LEAD_UPDATE each succeed when the gate
    is open and the required entities were found. *)
Definition create_succeeds (text : string) : bool :=
  lead_create_gate (Py.lower text) &&
  issubset ["name"; "phone"; "city"] (lead_create_entities text).

Definition visit_succeeds {datetime : Type}
    (dateparser_parse : datetime -> string -> option datetime)
    (isoformat : datetime -> string) (now : datetime) (text : string) : bool :=
  let '(visit, time_text) :=
    visit_schedule_entities dateparser_parse isoformat now text in
  visit_schedule_gate (Py.lower text) && visit_schedule_ok visit time_text.

Definition update_succeeds (text : string) : bool :=
  lead_update_gate (Py.lower text) &&
  issubset ["lead_id"; "status"] (lead_update_entities text).

(** The entities of a VISIT_SCHEDULE result. *)
Definition visit_entities {datetime : Type}
    (dateparser_parse : datetime -> string -> option datetime)
    (isoformat : datetime -> string) (now : datetime) (text : string)
    : gmap string string :=
  let '(visit, time_text) :=
    visit_schedule_entities dateparser_parse isoformat now text in
  visit_schedule_result visit time_text.

(** What the loops of the VISIT_SCHEDULE block find. *)
Definition lead_id_value (text : string) : option string :=
  lead_id_loop Pat.lead_patterns text ∅ !! "lead_id".

Definition notes_value (text : string) : option string :=
  notes_loop Pat.visit_notes_patterns text ∅ !! "notes".

(** The Time Normalizer: the canonical timestamp of a phrase, if the date
    library can parse it. *)
Definition normalize {datetime : Type}
    (dateparser_parse : datetime -> string -> option datetime)
    (isoformat : datetime -> string) (now : datetime) (phrase : string)
    : option string :=
  isoformat <$> dateparser_parse now phrase.

(** ** Vocabulary of the further properties *)

(** *** More vocabulary for [parse_transcript] *)

(** The entities that a result of each intent may hold. *)
Definition allowed (i : Intent) : list string :=
  match i with
  | LEAD_CREATE => ["name"; "phone"; "city"; "source"]
  | VISIT_SCHEDULE => ["lead_id"; "visit_time"; "notes"]
  | LEAD_UPDATE => ["lead_id"; "status"; "notes"]
  | UNKNOWN => []
  end.

(** A character of [[A-Za-z]] and one of [[a-zA-Z0-9-]]. *)
Definition alpha_char (a : ascii) : bool :=
  Py.in_range "A" "Z" a || Py.in_range "a" "z" a.

Definition alnumdash_char (a : ascii) : bool :=
  alpha_char a || Py.isdigit a || Ascii.eqb a "-".

(** [last_in p ic r]: every match of [r] ends with a character in [p]. *)
Fixpoint last_in (p : ascii -> bool) (ic : bool) (r : regex) : bool :=
  match r with
  | Cls neg items => char_sub (cls_mem ic neg items) p
  | Dot => char_sub (fun a => negb (Ascii.eqb a "010")) p
  | Seq _ r2 => last_in p ic r2
  | Alt r1 r2 => last_in p ic r1 && last_in p ic r2
  | Rep lo _ r' => (0 <? lo) && last_in p ic r'
  | Grp _ r' => last_in p ic r'
  | Eps | Eos => false
  end.

(** [ends p m]: [m] ends with a character in [p]. *)
Definition ends (p : ascii -> bool) (m : string) : Prop :=
  exists m' a, m = m' +:+ String a EmptyString /\ p a = true.

(** [lead_shape ps]: in every pattern of [ps], group 1 is always set and
    holds three characters of [[a-zA-Z0-9-]] at least and no other
    character. *)
Definition lead_shape (ps : list regex) : bool :=
  forallb (fun p =>
    sets 1 p &&
    forallb (fun '(k, r') =>
               implb (k =? 1)
                 (all_in alnumdash_char true r' &&
                  (3 <=? min_count alnumdash_char true r')))
            (subgroups p)) ps.

(** ** The CRM client ([crm_client.py]) *)

(** [c in chars] for a character *)
Fixpoint char_in (c : ascii) (chars : string) : bool :=
  match chars with
  | EmptyString => false
  | String a chars' => Ascii.eqb c a || char_in c chars'
  end.

(** [s.rstrip(chars)]: the characters of [chars] are removed at the end. *)
Fixpoint rstrip_chars (chars s : string) : string :=
  match s with
  | EmptyString => EmptyString
  | String a s' =>
      match rstrip_chars chars s' with
      | EmptyString => if char_in a chars then EmptyString else String a EmptyString
      | t => String a t
      end
  end.

(** Truth value of an [Optional[str]]: [None] and the empty string are
    false. *)
Definition opt_truthy (x : option string) : bool :=
  match x with Some s => Py.truthy s | None => false end.

Module Crm.

(** What [session.post(url, json=payload, timeout=TIMEOUT)] sends. *)
Record Request := mkRequest {
  url : string;
  json : gmap string string;
  timeout : nat
}.

(** What it gives back: a [Response] with its status code, what
    [resp.json()] gives and [resp.text]; or an exception of [requests] with
    its message.  The body is the decoded JSON object, as far as its values
    are strings (a key whose value is [null] is left out: [get] gives
    [None] for it as for a missing key), or the message of the exception
    that reading it raises: [resp.json()] on a body that is not JSON,
    [data.get] on one that is no object. *)
Inductive Reply :=
| Response (status_code : nat) (body : string + gmap string string) (text : string)
| Raises (message : string).

(** Request timeout in seconds *)
Definition TIMEOUT : nat := 3.

Section Client.

(** [settings.CRM_BASE_URL] and the network behind [session.post]. *)
Variable CRM_BASE_URL : string.
Variable post : Request -> Reply.

(** A call of [session.post]: the request is sent, the reply comes back. *)
Definition session_post (request : Request) : list Request * Reply :=
  ([request], post request).

Definition create_lead (name phone city : string) (source : option string)
    : list Request * Reply :=
  let url := rstrip_chars "/" CRM_BASE_URL +:+ "/crm/leads" in
  let payload : gmap string string :=
    <["city" := city]> (<["phone" := phone]> (<["name" := name]> ∅)) in
  let payload :=
    match source with
    | Some s => if Py.truthy s then <["source" := s]> payload else payload
    | None => payload
    end in
  session_post (mkRequest url payload TIMEOUT).

Definition schedule_visit (lead_id visit_time : string) (notes : option string)
    : list Request * Reply :=
  let url := rstrip_chars "/" CRM_BASE_URL +:+ "/crm/visits" in
  let payload : gmap string string :=
    <["visit_time" := visit_time]> (<["lead_id" := lead_id]> ∅) in
  let payload :=
    match notes with
    | Some s => if Py.truthy s then <["notes" := s]> payload else payload
    | None => payload
    end in
  session_post (mkRequest url payload TIMEOUT).

Definition update_lead_status (lead_id status : string) (notes : option string)
    : list Request * Reply :=
  let url :=
    rstrip_chars "/" CRM_BASE_URL +:+ "/crm/leads/" +:+ lead_id +:+ "/status" in
  let payload : gmap string string := <["status" := status]> ∅ in
  let payload :=
    match notes with
    | Some s => if Py.truthy s then <["notes" := s]> payload else payload
    | None => payload
    end in
  session_post (mkRequest url payload TIMEOUT).

End Client.

End Crm.

(** ** The AI layer ([ai_nlu.py]) *)

(** The name of an intent, as the dictionaries hold it. *)
Definition intent_name (i : Intent) : string :=
  match i with
  | LEAD_CREATE => "LEAD_CREATE"
  | VISIT_SCHEDULE => "VISIT_SCHEDULE"
  | LEAD_UPDATE => "LEAD_UPDATE"
  | UNKNOWN => "UNKNOWN"
  end.

Module Ai.

Section Processor.

(** Confidence scores are numbers [K] with [0], [0.5] and [x > y]. *)
Variable K : Type.
Variable zero half : K.
Variable gt : K -> K -> bool.

(** One element of ["requests"] in the answer of the model, with the types
    that the system prompt asks for; a field is [None] when the key is not
    there. *)
Record Request := mkRequest {
  r_intent : option string;
  r_entities : option (gmap string string);
  r_confidence : option K;
  r_reasoning : option string
}.

(** The decoded answer: [ai_result.get("multiple_requests", False)] and
    [ai_result.get("requests", [])]. *)
Record AiResult := mkAiResult {
  multiple_requests : bool;
  requests : list Request
}.

(** The dictionary that [AINLUProcessor.parse_transcript] returns; a field
    is [None], or [false] for [multiple_requests_detected], when the key is
    not there. *)
Record Parsed := mkParsed {
  intent : string;
  entities : gmap string string;
  confidence : option K;
  reasoning : option string;
  ai_enhanced : bool;
  fallback_reason : option string;
  multiple_requests_detected : bool;
  total_requests : option nat;
  all_requests : option (list Request)
}.

(** [r.get("intent") != "UNKNOWN"] *)
Definition not_unknown (r : Request) : bool :=
  match r_intent r with
  | Some i => negb (String.eqb i "UNKNOWN")
  | None => true
  end.

(** [x.get("confidence", 0)] *)
Definition key (x : Request) : K := default zero (r_confidence x).

(** [max(rs, key=...)] from the first element on: a later element takes
    over when its key is greater. *)
Fixpoint max_from (best : Request) (rs : list Request) : Request :=
  match rs with
  | [] => best
  | r :: rs' => max_from (if gt (key r) (key best) then r else best) rs'
  end.

Definition handle_multiple_requests (requests : list Request) : Parsed :=
  let valid_requests := List.filter not_unknown requests in
  match valid_requests with
  | [] => mkParsed "UNKNOWN" ∅ None None true None false None None
  | r :: rs =>
      let best_request := max_from r rs in
      mkParsed (default "UNKNOWN" (r_intent best_request))
               (default ∅ (r_entities best_request))
               (Some (default half (r_confidence best_request)))
               (Some (default EmptyString (r_reasoning best_request)))
               true None true (Some (length requests)) (Some requests)
  end.

(** [self.client]: [None] without an API key; otherwise the chat completion
    and [json.loads] of its content, [None] when one of them raises.
    [settings.USE_AI_NLU].  [nlu.parse_transcript] as it runs at the moment
    of the call. *)
Variable client : option (string -> option AiResult).
Variable USE_AI_NLU : bool.
Variable rule_based : string -> ParseResult.

Definition fallback_to_rule_based (transcript : string) : Parsed :=
  let '(mkResult i e) := rule_based transcript in
  mkParsed (intent_name i) e None None false
           (Some "AI NLU unavailable or failed") false None None.

Definition parse_transcript (transcript : string) : Parsed :=
  match client with
  | None => fallback_to_rule_based transcript
  | Some create =>
      if negb USE_AI_NLU then fallback_to_rule_based transcript
      else
        match create transcript with
        | None => fallback_to_rule_based transcript
        | Some ai_result =>
            if multiple_requests ai_result
               && (1 <? length (requests ai_result))
            then handle_multiple_requests (requests ai_result)
            else
              match requests ai_result with
              | request :: _ =>
                  mkParsed (default "UNKNOWN" (r_intent request))
                           (default ∅ (r_entities request))
                           (Some (default half (r_confidence request)))
                           (Some (default EmptyString (r_reasoning request)))
                           true None false None None
              | [] => fallback_to_rule_based transcript
              end
        end
  end.

End Processor.

Arguments mkRequest {K}.
Arguments r_intent {K}.
Arguments r_entities {K}.
Arguments r_confidence {K}.
Arguments r_reasoning {K}.
Arguments mkAiResult {K}.
Arguments multiple_requests {K}.
Arguments requests {K}.
Arguments mkParsed {K}.
Arguments intent {K}.
Arguments entities {K}.
Arguments confidence {K}.
Arguments reasoning {K}.
Arguments ai_enhanced {K}.
Arguments fallback_reason {K}.
Arguments multiple_requests_detected {K}.
Arguments total_requests {K}.
Arguments all_requests {K}.
Arguments not_unknown {K}.
Arguments key {K}.
Arguments max_from {K}.
Arguments handle_multiple_requests {K}.
Arguments fallback_to_rule_based {K}.
Arguments parse_transcript {K}.

End Ai.

(** ** The bot service ([app.py]) *)

Module App.

(** [crm_call_result] *)
Record CrmCall := mkCall {
  endpoint : string;
  method : string;
  status_code : nat
}.

Section Handler.

Variable K : Type.

(** One line of the analytics log, as [log_interaction] gets it.  The
    request identifier, the time stamp and the response time, which come
    from [uuid4] and the clock, are left out; so are the messages of the
    application log. *)
Record Entry := mkEntry {
  a_transcript : string;
  a_intent : string;
  a_entities : gmap string string;
  a_confidence : option K;
  a_success : bool;
  a_error_message : option string;
  a_crm_call_result : option CrmCall;
  a_ai_enhanced : bool
}.

(** The [BotResponse] that is returned, with the attributes that [handle]
    adds to it: [confidence] when it is not [None], [ai_enhanced] and
    [multiple_requests_detected] when they are true, [total_requests] with
    the latter. *)
Record BotResponse := mkResponse {
  intent : string;
  entities : gmap string string;
  crm_call : option CrmCall;
  result : option (gmap string string);
  confidence : option K;
  ai_enhanced : bool;
  multiple_requests_detected : bool;
  total_requests : option nat
}.

(** How a request ends: with the response, or with
    [HTTPException(status_code, detail={'type': ..., 'details': ...})]. *)
Inductive Outcome :=
| Returns (response : BotResponse)
| HTTPException (status : nat) (type details : string).

(** [settings.MAX_TRANSCRIPT_LENGTH]; [ai_nlu.parse_transcript], which gives
    the parsed dictionary or raises an exception with a message;
    [settings.CRM_BASE_URL] and the network of the CRM client; the message
    of the error of pydantic for a [result] that is no [Dict[str, str]]. *)
Variable MAX_TRANSCRIPT_LENGTH : nat.
Variable nlu : string -> Ai.Parsed K + string.
Variable CRM_BASE_URL : string.
Variable post : Crm.Request -> Crm.Reply.
Variable validation_error : gmap string (option string) -> string.

(** [not entities.get(key)] *)
Definition lacks (entities : gmap string string) (key : string) : bool :=
  negb (opt_truthy (entities !! key)).

(** [entities[key]], read after the check that the key is there. *)
Definition item (entities : gmap string string) (key : string) : string :=
  default EmptyString (entities !! key).

(** [BotResponse(..., result=result)]: a [result] with a [None] inside is
    refused. *)
Definition validated (result : gmap string (option string))
    : option (gmap string string) :=
  if decide (map_Forall (fun _ v => is_Some v) result)
  then Some (omap id result) else None.

Section Request.

(** The request at hand: the transcript and what the NLU made of it. *)
Variable transcript : string.
Variable parsed : Ai.Parsed K.

Definition log_interaction (intent : string) (entities : gmap string string)
    (confidence : option K) (success : bool) (error_message : option string)
    (crm_call_result : option CrmCall) (ai_enhanced : bool) : list Entry :=
  [mkEntry transcript intent entities confidence success error_message
           crm_call_result ai_enhanced].

(** [except Exception as e] of the second [try] *)
Definition unexpected (e : string) : list Entry * Outcome :=
  let error_msg := "Unexpected error: " +:+ e in
  (log_interaction (Ai.intent parsed) (Ai.entities parsed)
     (Ai.confidence parsed) false (Some error_msg) None (Ai.ai_enhanced parsed),
   HTTPException 500 "INTERNAL_ERROR" error_msg).

(** The entity check of an intent has failed. *)
Definition missing (error_msg : string) : list Entry * Outcome :=
  (log_interaction (Ai.intent parsed) (Ai.entities parsed)
     (Ai.confidence parsed) false (Some error_msg) None (Ai.ai_enhanced parsed),
   HTTPException 400 "VALIDATION_ERROR" error_msg).

(** From [# Log successful interaction] on: the success is logged, then the
    response is built. *)
Definition respond (crm_call_result : option CrmCall)
    (result : gmap string (option string)) : list Entry * Outcome :=
  let logged :=
    log_interaction (Ai.intent parsed) (Ai.entities parsed)
      (Ai.confidence parsed) true None crm_call_result (Ai.ai_enhanced parsed) in
  match validated result with
  | Some result' =>
      (logged,
       Returns (mkResponse (Ai.intent parsed) (Ai.entities parsed)
                  crm_call_result (Some result')
                  (Ai.confidence parsed) (Ai.ai_enhanced parsed)
                  (Ai.multiple_requests_detected parsed)
                  (if Ai.multiple_requests_detected parsed
                   then Ai.total_requests parsed else None)))
  | None =>
      let '(entries, outcome) := unexpected (validation_error result) in
      (logged ++ entries, outcome)
  end.

(** What the three intents do with the answer of the CRM; they differ in
    the endpoint that is reported, the message and the key that is read
    from the answer. *)
Definition answered (endpoint message key : string) (resp : Crm.Reply)
    : list Entry * Outcome :=
  match resp with
  | Crm.Raises e => unexpected e
  | Crm.Response status_code body text =>
      let crm_call_result := mkCall endpoint "POST" status_code in
      if (200 <=? status_code) && (status_code <? 300) then
        match body with
        | inl e => unexpected e
        | inr data =>
            respond (Some crm_call_result)
              (<[key := data !! key]> (<["message" := Some message]> ∅))
        end
      else
        let error_msg :=
          "CRM returned " +:+ pretty status_code +:+ ": " +:+ text in
        (log_interaction (Ai.intent parsed) (Ai.entities parsed)
           (Ai.confidence parsed) false (Some error_msg)
           (Some crm_call_result) (Ai.ai_enhanced parsed),
         HTTPException 500 "CRM_ERROR" error_msg)
  end.

(** The second [try] of [handle]. *)
Definition dispatch : list Crm.Request * (list Entry * Outcome) :=
  let intent := Ai.intent parsed in
  let entities := Ai.entities parsed in
  if String.eqb intent "LEAD_CREATE" then
    if lacks entities "name" || lacks entities "phone" || lacks entities "city"
    then ([], missing "Missing name, phone, or city for LEAD_CREATE")
    else
      let '(sent, resp) :=
        Crm.create_lead CRM_BASE_URL post (item entities "name")
          (item entities "phone") (item entities "city")
          (entities !! "source") in
      (sent, answered "/crm/leads" "Lead created" "lead_id" resp)
  else if String.eqb intent "VISIT_SCHEDULE" then
    if lacks entities "lead_id" || lacks entities "visit_time"
    then ([], missing "Missing lead_id or visit_time for VISIT_SCHEDULE")
    else
      let '(sent, resp) :=
        Crm.schedule_visit CRM_BASE_URL post (item entities "lead_id")
          (item entities "visit_time") (entities !! "notes") in
      (sent, answered "/crm/visits" "Visit scheduled" "visit_id" resp)
  else if String.eqb intent "LEAD_UPDATE" then
    if lacks entities "lead_id" || lacks entities "status"
    then ([], missing "Missing lead_id or status for LEAD_UPDATE")
    else
      let '(sent, resp) :=
        Crm.update_lead_status CRM_BASE_URL post (item entities "lead_id")
          (item entities "status") (entities !! "notes") in
      (sent,
       answered "/crm/leads/{lead_id}/status" "Lead status updated" "status"
         resp)
  else
    ([], respond None (<["message" := Some "Could not determine intent"]> ∅)).

End Request.

(** The requests sent to the CRM, the lines written to the analytics log
    and the outcome. *)
Definition handle (transcript : string)
    : list Crm.Request * (list Entry * Outcome) :=
  if negb (Py.truthy transcript)
     || (MAX_TRANSCRIPT_LENGTH <? String.length transcript)
  then
    let error_msg := "Transcript missing or too long" in
    ([], ([mkEntry transcript "VALIDATION_ERROR" ∅ None false
             (Some error_msg) None false],
          HTTPException 400 "VALIDATION_ERROR" error_msg))
  else
    match nlu transcript with
    | inr e =>
        let error_msg := "NLU parsing failed: " +:+ e in
        ([], ([mkEntry transcript "NLU_ERROR" ∅ None false
                 (Some error_msg) None false],
              HTTPException 500 "NLU_ERROR" error_msg))
    | inl parsed => dispatch transcript parsed
    end.

End Handler.

Arguments mkEntry {K}.
Arguments a_transcript {K}.
Arguments a_intent {K}.
Arguments a_entities {K}.
Arguments a_confidence {K}.
Arguments a_success {K}.
Arguments a_error_message {K}.
Arguments a_crm_call_result {K}.
Arguments a_ai_enhanced {K}.
Arguments mkResponse {K}.
Arguments intent {K}.
Arguments entities {K}.
Arguments crm_call {K}.
Arguments result {K}.
Arguments confidence {K}.
Arguments ai_enhanced {K}.
Arguments multiple_requests_detected {K}.
Arguments total_requests {K}.
Arguments Returns {K}.
Arguments HTTPException {K}.
Arguments validated : simpl never.
Arguments log_interaction {K}.
Arguments unexpected {K}.
Arguments missing {K}.
Arguments respond {K}.
Arguments answered {K}.
Arguments dispatch {K}.
Arguments handle {K}.

End App.

(** [ai_nlu.parse_transcript] as [handle] calls it, over the rule-based
    parser at the moment [now]: the bot service as it is deployed. *)
Definition bot_handle {K datetime : Type} (zero half : K) (gt : K -> K -> bool)
    (client : option (string -> option (Ai.AiResult K))) (USE_AI_NLU : bool)
    (dateparser_parse : datetime -> string -> option datetime)
    (isoformat : datetime -> string)
    (MAX_TRANSCRIPT_LENGTH : nat) (CRM_BASE_URL : string)
    (post : Crm.Request -> Crm.Reply)
    (validation_error : gmap string (option string) -> string)
    (now : datetime) (transcript : string)
    : list Crm.Request * (list (App.Entry K) * App.Outcome K) :=
  App.handle MAX_TRANSCRIPT_LENGTH
    (fun t => inl (Ai.parse_transcript zero half gt client USE_AI_NLU
                     (parse_transcript dateparser_parse isoformat now) t))
    CRM_BASE_URL post validation_error transcript.

(** ** The mock CRM ([mock_crm.py]) *)

Module Mock.

Section Store.

Variable datetime : Type.

(** What a stored record holds under a key: a string, [None] or a
    [datetime]. *)
Inductive value :=
| Str (s : string)
| Null
| Stamp (t : datetime).

Definition of_optional (x : option string) : value :=
  match x with Some s => Str s | None => Null end.

Record LeadCreate := mkLeadCreate {
  lc_name : string;
  lc_phone : string;
  lc_city : string;
  lc_source : option string
}.

Record VisitCreate := mkVisitCreate {
  vc_lead_id : string;
  vc_visit_time : datetime;
  vc_notes : option string
}.

Record LeadStatusUpdate := mkLeadStatusUpdate {
  su_status : string;
  su_notes : option string
}.

(** [payload.dict()] *)
Definition lead_dict (payload : LeadCreate) : gmap string value :=
  <["source" := of_optional (lc_source payload)]>
    (<["city" := Str (lc_city payload)]>
       (<["phone" := Str (lc_phone payload)]>
          (<["name" := Str (lc_name payload)]> ∅))).

Definition visit_dict (payload : VisitCreate) : gmap string value :=
  <["notes" := of_optional (vc_notes payload)]>
    (<["visit_time" := Stamp (vc_visit_time payload)]>
       (<["lead_id" := Str (vc_lead_id payload)]> ∅)).

(** In-memory storage for mock data *)
Record Storage := mkStorage {
  LEADS : gmap string (gmap string value);
  VISITS : gmap string (gmap string value)
}.

(** What an endpoint answers: the dictionary it returns, or
    [HTTPException(status_code, detail)]. *)
Inductive Answer :=
| Ok (body : gmap string string)
| HTTPException (status_code : nat) (detail : string).

(** The endpoints; [uuid4] is the text of the identifier that [uuid4()]
    draws.  The copy of the data that [auto_save_data] writes to a file is
    left out: it changes neither the storage nor the answer. *)
Definition create_lead (uuid4 : string) (payload : LeadCreate) (s : Storage)
    : Storage * Answer :=
  let lead_id := uuid4 in
  (mkStorage
     (<[lead_id := <["status" := Str "NEW"]>
                     (<["lead_id" := Str lead_id]> (lead_dict payload))]>
        (LEADS s))
     (VISITS s),
   Ok (<["status" := "NEW"]> (<["lead_id" := lead_id]> ∅))).

Definition create_visit (uuid4 : string) (payload : VisitCreate) (s : Storage)
    : Storage * Answer :=
  match LEADS s !! vc_lead_id payload with
  | None => (s, HTTPException 404 "Lead not found")
  | Some _ =>
      let visit_id := uuid4 in
      (mkStorage
         (LEADS s)
         (<[visit_id := <["status" := Str "SCHEDULED"]>
                          (<["visit_id" := Str visit_id]> (visit_dict payload))]>
            (VISITS s)),
       Ok (<["status" := "SCHEDULED"]> (<["visit_id" := visit_id]> ∅)))
  end.

Definition update_lead_status (lead_id : string) (payload : LeadStatusUpdate)
    (s : Storage) : Storage * Answer :=
  match LEADS s !! lead_id with
  | None => (s, HTTPException 404 "Lead not found")
  | Some lead =>
      let lead := <["status" := Str (su_status payload)]> lead in
      let lead :=
        match su_notes payload with
        | Some notes =>
            if Py.truthy notes then <["notes" := Str notes]> lead else lead
        | None => lead
        end in
      (mkStorage (<[lead_id := lead]> (LEADS s)) (VISITS s),
       Ok (<["status" := su_status payload]> (<["lead_id" := lead_id]> ∅)))
  end.

(** A request to the mock CRM, and the storage after a list of them. *)
Inductive Call :=
| CreateLead (uuid4 : string) (payload : LeadCreate)
| CreateVisit (uuid4 : string) (payload : VisitCreate)
| UpdateLeadStatus (lead_id : string) (payload : LeadStatusUpdate).

Definition call (c : Call) (s : Storage) : Storage * Answer :=
  match c with
  | CreateLead uuid4 payload => create_lead uuid4 payload s
  | CreateVisit uuid4 payload => create_visit uuid4 payload s
  | UpdateLeadStatus lead_id payload => update_lead_status lead_id payload s
  end.

Fixpoint run (cs : list Call) (s : Storage) : Storage :=
  match cs with
  | [] => s
  | c :: cs' => run cs' (call c s).1
  end.

(** The identifiers that the [create_lead] requests of a list drew. *)
Fixpoint lead_ids (cs : list Call) : list string :=
  match cs with
  | [] => []
  | CreateLead uuid4 _ :: cs' => uuid4 :: lead_ids cs'
  | _ :: cs' => lead_ids cs'
  end.

End Store.

Arguments Str {datetime}.
Arguments Null {datetime}.
Arguments Stamp {datetime}.
Arguments of_optional {datetime}.
Arguments mkVisitCreate {datetime}.
Arguments vc_lead_id {datetime}.
Arguments vc_visit_time {datetime}.
Arguments vc_notes {datetime}.
Arguments lead_dict {datetime}.
Arguments visit_dict {datetime}.
Arguments mkStorage {datetime}.
Arguments LEADS {datetime}.
Arguments VISITS {datetime}.
Arguments create_lead {datetime}.
Arguments create_visit {datetime}.
Arguments update_lead_status {datetime}.
Arguments CreateLead {datetime}.
Arguments CreateVisit {datetime}.
Arguments UpdateLeadStatus {datetime}.
Arguments call {datetime}.
Arguments run {datetime}.
Arguments lead_ids {datetime}.

End Mock.

(** The storage of the mock CRM when it starts. *)
Definition fresh {datetime : Type} : Mock.Storage datetime := Mock.mkStorage ∅ ∅.

(** A stored lead is well formed: it carries its own identifier, a status
    and the name, phone and city it was created with. *)
Definition lead_ok {datetime : Type} (lead_id : string)
    (lead : gmap string (Mock.value datetime)) : Prop :=
  lead !! "lead_id" = Some (Mock.Str lead_id) /\
  (exists status, lead !! "status" = Some (Mock.Str status)) /\
  (exists name, lead !! "name" = Some (Mock.Str name)) /\
  (exists phone, lead !! "phone" = Some (Mock.Str phone)) /\
  (exists city, lead !! "city" = Some (Mock.Str city)).

(** A stored visit is well formed: it carries its own identifier, the
    status SCHEDULED, and the identifier of a lead that is in the storage. *)
Definition visit_ok {datetime : Type} (leads : gmap string (gmap string (Mock.value datetime)))
    (visit_id : string) (visit : gmap string (Mock.value datetime)) : Prop :=
  visit !! "visit_id" = Some (Mock.Str visit_id) /\
  visit !! "status" = Some (Mock.Str "SCHEDULED") /\
  exists lead_id, visit !! "lead_id" = Some (Mock.Str lead_id) /\
                  is_Some (leads !! lead_id).

Definition consistent {datetime : Type} (s : Mock.Storage datetime) : Prop :=
  map_Forall lead_ok (Mock.LEADS s) /\
  map_Forall (visit_ok (Mock.LEADS s)) (Mock.VISITS s).

(** The entries of a dictionary whose value is not empty: what is left of
    optional arguments after [if source:] and [if notes:]. *)
Definition truthy_items (entities : gmap string string) : gmap string string :=
  omap (fun v => if Py.truthy v then Some v else None) entities.

(** *** How the handler goes *)

Section HandlerCases.

Context {K : Type}.
Variable post : Crm.Request -> Crm.Reply.
Variable validation_error : gmap string (option string) -> string.

(** The five ways in which the answer of the CRM is handled. *)
Inductive answer_case (transcript : string) (parsed : Ai.Parsed K)
    (endpoint message key : string) (resp : Crm.Reply)
    : list (App.Entry K) * App.Outcome K -> Prop :=
| A_raises e :
    resp = Crm.Raises e ->
    answer_case transcript parsed endpoint message key resp
      (App.unexpected transcript parsed e)
| A_refused status_code body text :
    resp = Crm.Response status_code body text ->
    ~ (200 <= status_code < 300) ->
    answer_case transcript parsed endpoint message key resp
      ([App.mkEntry transcript (Ai.intent parsed) (Ai.entities parsed)
          (Ai.confidence parsed) false
          (Some ("CRM returned " +:+ pretty status_code +:+ ": " +:+ text))
          (Some (App.mkCall endpoint "POST" status_code))
          (Ai.ai_enhanced parsed)],
       App.HTTPException 500 "CRM_ERROR"
         ("CRM returned " +:+ pretty status_code +:+ ": " +:+ text))
| A_no_json status_code e text :
    resp = Crm.Response status_code (inl e) text ->
    200 <= status_code < 300 ->
    answer_case transcript parsed endpoint message key resp
      (App.unexpected transcript parsed e)
| A_done status_code data text id :
    resp = Crm.Response status_code (inr data) text ->
    200 <= status_code < 300 ->
    data !! key = Some id ->
    answer_case transcript parsed endpoint message key resp
      ([App.mkEntry transcript (Ai.intent parsed) (Ai.entities parsed)
          (Ai.confidence parsed) true None
          (Some (App.mkCall endpoint "POST" status_code))
          (Ai.ai_enhanced parsed)],
       App.Returns
         (App.mkResponse (Ai.intent parsed) (Ai.entities parsed)
            (Some (App.mkCall endpoint "POST" status_code))
            (Some (<[key := id]> (<["message" := message]> ∅)))
            (Ai.confidence parsed) (Ai.ai_enhanced parsed)
            (Ai.multiple_requests_detected parsed)
            (if Ai.multiple_requests_detected parsed
             then Ai.total_requests parsed else None)))
| A_no_id status_code data text :
    resp = Crm.Response status_code (inr data) text ->
    200 <= status_code < 300 ->
    data !! key = None ->
    answer_case transcript parsed endpoint message key resp
      ([App.mkEntry transcript (Ai.intent parsed) (Ai.entities parsed)
          (Ai.confidence parsed) true None
          (Some (App.mkCall endpoint "POST" status_code))
          (Ai.ai_enhanced parsed)]
       ++ (App.unexpected transcript parsed
             (validation_error
                (<[key := None]> (<["message" := Some message]> ∅)))).1,
       App.HTTPException 500 "INTERNAL_ERROR"
         ("Unexpected error: "
          +:+ validation_error
                (<[key := None]> (<["message" := Some message]> ∅)))).

(** The three ways in which the second [try] goes. *)
Inductive dispatch_case (transcript : string) (parsed : Ai.Parsed K)
    : list Crm.Request * (list (App.Entry K) * App.Outcome K) -> Prop :=
| D_missing error_msg :
    dispatch_case transcript parsed
      ([], App.missing transcript parsed error_msg)
| D_unknown :
    Ai.intent parsed <> "LEAD_CREATE" ->
    Ai.intent parsed <> "VISIT_SCHEDULE" ->
    Ai.intent parsed <> "LEAD_UPDATE" ->
    dispatch_case transcript parsed
      ([], App.respond validation_error transcript parsed None
             (<["message" := Some "Could not determine intent"]> ∅))
| D_call request endpoint message key :
    In (Ai.intent parsed) ["LEAD_CREATE"; "VISIT_SCHEDULE"; "LEAD_UPDATE"] ->
    dispatch_case transcript parsed
      ([request],
       App.answered validation_error transcript parsed endpoint message key
         (post request)).

End HandlerCases.

(** ** A deployment to run the service with *)

Module Demo.

(** A CRM that accepts every new lead under the same identifier and knows
    no other lead. *)
Definition post (request : Crm.Request) : Crm.Reply :=
  if String.eqb (Crm.url request) "http://localhost:8001/crm/leads"
  then Crm.Response 200
         (inr (<["status" := "NEW"]> (<["lead_id" := "lead-1"]> ∅))) "created"
  else Crm.Response 404
         (inr (<["detail" := "Lead not found"]> ∅)) "Lead not found".

(** The service with the rule-based parser, the date library [Clock] and
    this CRM, on the morning of [day1]. *)
Definition handle (transcript : string)
    : list Crm.Request * (list (App.Entry nat) * App.Outcome nat) :=
  bot_handle 0 5 (fun a b => b <? a) None false Clock.parse Clock.isoformat
    1000 "http://localhost:8001/" post (fun _ => "result is not valid")
    day1 transcript.

End Demo.

(** * Proofs *)

(** ** Facts about strings *)

Lemma app_cons (a : ascii) (s t : string) :
  String a s +:+ t = String a (s +:+ t).
Proof. reflexivity. Qed.

Lemma app_nil_l (t : string) : "" +:+ t = t.
Proof. reflexivity. Qed.

Lemma app_empty_r (s : string) : s +:+ "" = s.
Proof. induction s as [|a s IH]; [done | by rewrite app_cons, IH]. Qed.

Lemma app_assoc' (a b c : string) : (a +:+ b) +:+ c = a +:+ b +:+ c.
Proof. induction a as [|x a IH]; [done | by rewrite !app_cons, IH]. Qed.

Lemma app_length' (a b : string) :
  String.length (a +:+ b) = String.length a + String.length b.
Proof. induction a as [|x a IH]; [done | by rewrite app_cons; simpl; rewrite IH]. Qed.

(** ** Soundness of the matcher *)

Section Sound.
Variable ic : bool.

Lemma rep_sound (step : string -> caps -> list success) (r : regex) :
  (forall s c m rest c', In (m, rest, c') (step s c) ->
                         s = m +:+ rest /\ matches ic r m) ->
  forall fuel lo hi s c m rest c',
    hi = None \/ hi = Some fuel ->
    In (m, rest, c') (rep step lo fuel s c) ->
    s = m +:+ rest /\ matches ic (Rep lo hi r) m.
Proof.
  intros Hstep fuel.
  induction fuel as [|fuel IH]; intros lo hi s c m rest c' Hhi Hin; simpl in Hin.
  - destruct lo; [|done]. destruct Hin as [[= <- <- <-]|[]].
    split; [done | constructor].
  - apply in_app_iff in Hin as [Hin|Hin].
    + apply in_flat_map in Hin as [[[m1 s1] c1] [H1 Hin]].
      apply in_map_iff in Hin as [[[m2 s2] c2] [[= <- <- <-] H2]].
      apply Hstep in H1 as [-> Hm1].
      apply (IH (pred lo) (pred <$> hi)) in H2 as [-> Hm2].
      * split; [by rewrite app_assoc'|].
        apply M_rep_step; [|done..].
        destruct Hhi as [->| ->]; done.
      * destruct Hhi as [->| ->]; [by left | by right].
    + destruct lo; [|done]. destruct Hin as [[= <- <- <-]|[]].
      split; [done | constructor].
Qed.

Lemma rmatch_sound (r : regex) :
  forall s c m rest c',
    In (m, rest, c') (rmatch ic r s c) -> s = m +:+ rest /\ matches ic r m.
Proof.
  induction r as [|neg items| | |r1 IH1 r2 IH2|r1 IH1 r2 IH2|lo hi r IH|n r IH];
    intros s c m rest c' Hin; simpl in Hin.
  - destruct Hin as [[= <- <- <-]|[]]. split; [done | constructor].
  - destruct s as [|a s]; [done|].
    destruct (cls_mem ic neg items a) eqn:Hmem; [|done].
    destruct Hin as [[= <- <- <-]|[]]. split; [done | by constructor].
  - destruct s as [|a s]; [done|].
    destruct (Ascii.eqb a "010") eqn:Hnl; [done|].
    destruct Hin as [[= <- <- <-]|[]]. split; [done | by constructor].
  - destruct s as [|a [|b s]].
    + destruct Hin as [[= <- <- <-]|[]]. split; [done | constructor].
    + destruct (Ascii.eqb a "010"); [|done].
      destruct Hin as [[= <- <- <-]|[]]. split; [done | constructor].
    + done.
  - apply in_flat_map in Hin as [[[m1 s1] c1] [H1 Hin]].
    apply in_map_iff in Hin as [[[m2 s2] c2] [[= <- <- <-] H2]].
    apply IH1 in H1 as [-> Hm1]. apply IH2 in H2 as [-> Hm2].
    split; [by rewrite app_assoc' | by constructor].
  - apply in_app_iff in Hin as [Hin|Hin].
    + apply IH1 in Hin as [-> Hm]. split; [done | by apply M_alt_l].
    + apply IH2 in Hin as [-> Hm]. split; [done | by apply M_alt_r].
  - eapply rep_sound in Hin; [exact Hin | exact IH |].
    destruct hi; [by right | by left].
  - apply in_map_iff in Hin as [[[m1 s1] c1] [[= <- <- <-] H1]].
    apply IH in H1 as [-> Hm]. split; [done | by constructor].
Qed.

End Sound.

(** ** The groups of a match *)

Section Groups.
Variable ic : bool.

(** A property of the groups that each capture preserves is preserved by a
    match. *)
Section Inv.
Variable I : caps -> Prop.

Lemma rep_inv (step : string -> caps -> list success) :
  (forall s c m rest c', I c -> In (m, rest, c') (step s c) -> I c') ->
  forall fuel lo s c m rest c',
    I c -> In (m, rest, c') (rep step lo fuel s c) -> I c'.
Proof.
  intros Hstep fuel.
  induction fuel as [|fuel IH]; intros lo s c m rest c' Hc Hin; simpl in Hin.
  - destruct lo; [|done]. by destruct Hin as [[= <- <- <-]|[]].
  - apply in_app_iff in Hin as [Hin|Hin].
    + apply in_flat_map in Hin as [[[m1 s1] c1] [H1 Hin]].
      apply in_map_iff in Hin as [[[m2 s2] c2] [[= <- <- <-] H2]].
      eapply IH; [|exact H2]. eapply Hstep; [exact Hc | exact H1].
    + destruct lo; [|done]. by destruct Hin as [[= <- <- <-]|[]].
Qed.

Lemma rmatch_inv (r : regex) :
  capture_keeps ic I r ->
  forall s c m rest c',
    I c -> In (m, rest, c') (rmatch ic r s c) -> I c'.
Proof.
  unfold capture_keeps.
  induction r as [|neg items| | |r1 IH1 r2 IH2|r1 IH1 r2 IH2|lo hi r IH|n r IH];
    intros Hk s c m rest c' Hc Hin; simpl in Hin, Hk.
  - by destruct Hin as [[= <- <- <-]|[]].
  - destruct s as [|a s]; [done|].
    destruct (cls_mem ic neg items a); [|done].
    by destruct Hin as [[= <- <- <-]|[]].
  - destruct s as [|a s]; [done|].
    destruct (Ascii.eqb a "010"); [done|].
    by destruct Hin as [[= <- <- <-]|[]].
  - destruct s as [|a [|b s]]; [| |done].
    + by destruct Hin as [[= <- <- <-]|[]].
    + destruct (Ascii.eqb a "010"); [|done].
      by destruct Hin as [[= <- <- <-]|[]].
  - apply in_flat_map in Hin as [[[m1 s1] c1] [H1 Hin]].
    apply in_map_iff in Hin as [[[m2 s2] c2] [[= <- <- <-] H2]].
    eapply IH2; [|eapply IH1; [|exact Hc|exact H1]|exact H2];
      intros; eapply Hk; eauto; apply in_app_iff; eauto.
  - apply in_app_iff in Hin as [Hin|Hin].
    + eapply IH1; [|exact Hc|exact Hin].
      intros; eapply Hk; eauto; apply in_app_iff; eauto.
    + eapply IH2; [|exact Hc|exact Hin].
      intros; eapply Hk; eauto; apply in_app_iff; eauto.
  - eapply rep_inv; [|exact Hc|exact Hin]. intros. eapply IH; eauto.
  - apply in_map_iff in Hin as [[[m1 s1] c1] [[= <- <- <-] H1]].
    eapply Hk; [by left| |].
    + by apply rmatch_sound in H1 as [_ ?].
    + eapply IH; [|exact Hc|exact H1]. intros; eapply Hk; eauto; by right.
Qed.

End Inv.

(** A group that is set stays set. *)
Lemma rmatch_keeps_set (n : nat) (r : regex) s c m rest c' :
  is_Some (c !! n) -> In (m, rest, c') (rmatch ic r s c) -> is_Some (c' !! n).
Proof.
  apply (rmatch_inv (fun c => is_Some (c !! n))).
  intros k r' m' c0 _ _ Hc0.
  destruct (decide (k = n)) as [->|Hne].
  - rewrite lookup_insert_eq. eauto.
  - by rewrite lookup_insert_ne.
Qed.

Lemma rmatch_sets (n : nat) (r : regex) :
  sets n r = true ->
  forall s c m rest c',
    In (m, rest, c') (rmatch ic r s c) -> is_Some (c' !! n).
Proof.
  induction r as [|neg items| | |r1 IH1 r2 IH2|r1 IH1 r2 IH2|lo hi r IH|k r IH];
    simpl; try done; intros Hs s c m rest c' Hin.
  - apply in_flat_map in Hin as [[[m1 s1] c1] [H1 Hin]].
    apply in_map_iff in Hin as [[[m2 s2] c2] [[= <- <- <-] H2]].
    apply orb_true_iff in Hs as [Hs|Hs].
    + eapply rmatch_keeps_set; [|exact H2]. eapply IH1; eauto.
    + eapply IH2; eauto.
  - apply andb_true_iff in Hs as [Hs1 Hs2].
    apply in_app_iff in Hin as [Hin|Hin]; [eapply IH1|eapply IH2]; eauto.
  - apply andb_true_iff in Hs as [Hlo Hs].
    apply Nat.ltb_lt in Hlo. destruct lo as [|lo]; [lia|].
    destruct (match hi with Some h => h | None => S (String.length s) end)
      as [|fuel]; simpl in Hin; [done|].
    rewrite app_nil_r in Hin.
    apply in_flat_map in Hin as [[[m1 s1] c1] [H1 Hin]].
    apply in_map_iff in Hin as [[[m2 s2] c2] [[= <- <- <-] H2]].
    eapply (rep_inv (fun c => is_Some (c !! n))); [| |exact H2].
    + intros s0 c0 m0 rest0 c0'. apply rmatch_keeps_set.
    + eapply IH; eauto.
  - apply in_map_iff in Hin as [[[m1 s1] c1] [[= <- <- <-] H1]].
    apply orb_true_iff in Hs as [Hs|Hs].
    + apply Nat.eqb_eq in Hs as ->. rewrite lookup_insert_eq. eauto.
    + destruct (decide (k = n)) as [->|Hne].
      * rewrite lookup_insert_eq. eauto.
      * rewrite lookup_insert_ne by done. eapply IH; eauto.
Qed.

End Groups.

(** ** What [search] returns *)

Lemma search_spec (ic : bool) (r : regex) (s : string) (m : caps) :
  search ic r s = Some m <->
  exists pre suf g rest c tl,
    s = pre +:+ suf /\ leftmost ic r pre suf /\
    rmatch ic r suf ∅ = (g, rest, c) :: tl /\ m = <[0:=g]> c.
Proof.
  split.
  - induction s as [|a s IH]; simpl.
    + destruct (rmatch ic r "" ∅) as [|[[g rest] c] tl] eqn:E; [done|].
      intros [= <-]. exists "", "", g, rest, c, tl.
      split_and!; try done. intros [|??] ?? [=].
    + destruct (rmatch ic r (String a s) ∅) as [|[[g rest] c] tl] eqn:E.
      * intros H. apply IH in H as (pre & suf & g & rest & c & tl & -> & Hl & Hm & ->).
        exists (String a pre), suf, g, rest, c, tl. split_and!; try done.
        intros [|b p1] a' p2.
        -- rewrite app_nil_l. intros [= <- ->]. exact E.
        -- rewrite app_cons. intros [= <- ->]. by apply (Hl p1 a' p2).
      * intros [= <-]. exists "", (String a s), g, rest, c, tl.
        split_and!; try done. intros [|??] ?? [=].
  - intros (pre & suf & g & rest & c & tl & -> & Hl & Hm & ->).
    induction pre as [|a pre IH].
    + rewrite app_nil_l. destruct suf; simpl; by rewrite Hm.
    + rewrite app_cons. simpl.
      pose proof (Hl "" a pre eq_refl) as E. rewrite app_cons in E. rewrite E.
      apply IH. intros p1 b p2 ->. apply (Hl (String a p1) b p2). done.
Qed.

(** A match found by [search] is a match of the pattern, located in the
    text at the leftmost position where the pattern matches. *)
Lemma search_sound (ic : bool) (r : regex) (s : string) (m : caps) :
  search ic r s = Some m ->
  exists pre g rest,
    s = pre +:+ g +:+ rest /\ leftmost ic r pre (g +:+ rest) /\
    matches ic r g /\ m !! 0 = Some g.
Proof.
  intros H. apply search_spec in H as (pre & suf & g & rest & c & tl & -> & Hl & Hm & ->).
  assert (Hin : In (g, rest, c) (rmatch ic r suf ∅)) by (rewrite Hm; by left).
  apply rmatch_sound in Hin as [-> Hg].
  exists pre, g, rest. by rewrite lookup_insert_eq.
Qed.

(** A group that every match goes through is set in the result. *)
Lemma search_sets (ic : bool) (r : regex) (n : nat) (s : string) (m : caps) :
  sets n r = true -> search ic r s = Some m -> is_Some (m !! n).
Proof.
  intros Hs H. apply search_spec in H as (pre & suf & g & rest & c & tl & -> & _ & Hm & ->).
  assert (Hin : In (g, rest, c) (rmatch ic r suf ∅)) by (rewrite Hm; by left).
  apply (rmatch_sets ic n r Hs) in Hin.
  destruct (decide (0 = n)) as [<-|Hne].
  - rewrite lookup_insert_eq. eauto.
  - by rewrite lookup_insert_ne.
Qed.

(** The text of a group of the result is a match of the group's body. *)
Lemma search_group (ic : bool) (r : regex) (P : nat -> string -> Prop) s m :
  (forall n r' g, In (n, r') (subgroups r) -> matches ic r' g -> P n g) ->
  search ic r s = Some m ->
  forall n g, n <> 0 -> m !! n = Some g -> P n g.
Proof.
  intros HP H n g Hn Hg.
  apply search_spec in H as (pre & suf & g0 & rest & c & tl & -> & _ & Hm & ->).
  assert (Hin : In (g0, rest, c) (rmatch ic r suf ∅)) by (rewrite Hm; by left).
  rewrite lookup_insert_ne in Hg by done.
  revert n g Hn Hg.
  eapply (rmatch_inv ic (fun c => forall n g, n <> 0 -> c !! n = Some g -> P n g));
    [| |exact Hin].
  - intros k r' m' c0 Hk Hm' Hc0 n g Hn. 
    destruct (decide (k = n)) as [->|Hne].
    + rewrite lookup_insert_eq. intros [= <-]. eapply HP; eauto.
    + rewrite lookup_insert_ne by done. by apply Hc0.
  - intros n g _. by rewrite lookup_empty.
Qed.

(** ** Static facts about the matches of a pattern *)

Lemma in_all_ascii (a : ascii) : In a all_ascii.
Proof.
  unfold all_ascii. apply in_map_iff. exists (nat_of_ascii a). split.
  - apply ascii_nat_embedding.
  - apply in_seq. pose proof (nat_ascii_bounded a). lia.
Qed.

Lemma char_sub_spec (q p : ascii -> bool) (a : ascii) :
  char_sub q p = true -> q a = true -> p a = true.
Proof.
  unfold char_sub. rewrite forallb_forall. intros H Hq.
  specialize (H a (in_all_ascii a)). by rewrite Hq in H.
Qed.

Lemma scount_app p (a b : string) : scount p (a +:+ b) = scount p a + scount p b.
Proof.
  induction a as [|x a IH]; [done|]. rewrite app_cons. simpl. rewrite IH. lia.
Qed.

Lemma sall_app p (a b : string) : sall p (a +:+ b) = sall p a && sall p b.
Proof.
  induction a as [|x a IH]; [done|]. rewrite app_cons. simpl.
  by rewrite IH, andb_assoc.
Qed.

Lemma sall_sfilter p (s : string) : sall p (sfilter p s) = true.
Proof.
  induction s as [|a s IH]; [done|]. simpl.
  destruct (p a) eqn:E; [simpl; by rewrite E|done].
Qed.

Lemma length_sfilter p (s : string) : String.length (sfilter p s) = scount p s.
Proof.
  induction s as [|a s IH]; [done|]. simpl.
  destruct (p a); simpl; by rewrite IH.
Qed.

Section Static.
Variable p : ascii -> bool.
Variable ic : bool.

Lemma first_in_spec (r : regex) (m : string) :
  matches ic r m -> first_in p ic r = true ->
  exists a m', m = String a m' /\ p a = true.
Proof.
  induction 1 as [|neg items a Ha|a Ha| |r1 r2 m1 m2 H1 IH1 H2 IH2
                  |r1 r2 m H IH|r1 r2 m H IH|hi r
                  |lo hi r m1 m2 Hhi H1 IH1 H2 IH2|n r m H IH];
    simpl; intros Hf; try done.
  - exists a, "". split; [done|]. eapply char_sub_spec; eauto.
  - exists a, "". split; [done|]. apply (char_sub_spec _ _ a Hf). by rewrite Ha.
  - destruct (IH1 Hf) as (a & m' & -> & Ha). exists a, (m' +:+ m2). by rewrite app_cons.
  - apply andb_true_iff in Hf as [Hf _]. auto.
  - apply andb_true_iff in Hf as [_ Hf]. auto.
  - apply andb_true_iff in Hf as [_ Hf].
    destruct (IH1 Hf) as (a & m' & -> & Ha). exists a, (m' +:+ m2). by rewrite app_cons.
  - auto.
Qed.

Lemma all_in_spec (r : regex) (m : string) :
  matches ic r m -> all_in p ic r = true -> sall p m = true.
Proof.
  induction 1 as [|neg items a Ha|a Ha| |r1 r2 m1 m2 H1 IH1 H2 IH2
                  |r1 r2 m H IH|r1 r2 m H IH|hi r
                  |lo hi r m1 m2 Hhi H1 IH1 H2 IH2|n r m H IH];
    simpl; intros Hf; try done.
  - rewrite andb_true_r. eapply char_sub_spec; eauto.
  - rewrite andb_true_r. apply (char_sub_spec _ _ a Hf). by rewrite Ha.
  - apply andb_true_iff in Hf as [Hf1 Hf2]. rewrite sall_app, IH1, IH2; done.
  - apply andb_true_iff in Hf as [Hf _]. auto.
  - apply andb_true_iff in Hf as [_ Hf]. auto.
  - rewrite sall_app, IH1, IH2; done.
  - auto.
Qed.

Lemma min_count_spec (r : regex) (m : string) :
  matches ic r m -> min_count p ic r <= scount p m.
Proof.
  induction 1 as [|neg items a Ha|a Ha| |r1 r2 m1 m2 H1 IH1 H2 IH2
                  |r1 r2 m H IH|r1 r2 m H IH|hi r
                  |lo hi r m1 m2 Hhi H1 IH1 H2 IH2|n r m H IH];
    simpl in *; try lia.
  - destruct (char_sub (cls_mem ic neg items) p) eqn:E; [|lia].
    rewrite (char_sub_spec _ _ a E Ha). lia.
  - rewrite scount_app. lia.
  - rewrite scount_app. destruct lo as [|lo]; simpl in *; lia.
Qed.

End Static.

(** ** Facts about [strip] and the character classes *)

Lemma rstrip_cons_nonspace (a : ascii) (s : string) :
  Py.isspace a = false -> Py.truthy (Py.rstrip (String a s)) = true.
Proof. intros Ha. simpl. rewrite Ha. by destruct (Py.rstrip s). Qed.

Lemma strip_truthy (a : ascii) (s : string) :
  Py.isspace a = false -> Py.truthy (Py.strip (String a s)) = true.
Proof.
  intros Ha. unfold Py.strip. simpl Py.lstrip. rewrite Ha.
  by apply rstrip_cons_nonspace.
Qed.

Lemma rstrip_nonspace (s : string) : sall nonspace s = true -> Py.rstrip s = s.
Proof.
  induction s as [|a s IH]; [done|]. simpl.
  intros [Ha Hs]%andb_true_iff. rewrite (IH Hs).
  unfold nonspace in Ha. apply negb_true_iff in Ha. rewrite Ha. by destruct s.
Qed.

Lemma strip_nonspace (s : string) : sall nonspace s = true -> Py.strip s = s.
Proof.
  intros Hs. unfold Py.strip.
  destruct s as [|a s]; [done|]. simpl Py.lstrip.
  pose proof Hs as [Ha _]%andb_true_iff. unfold nonspace in Ha.
  apply negb_true_iff in Ha. rewrite Ha. by apply rstrip_nonspace.
Qed.

Lemma truthy_nonempty (s : string) : Py.truthy s = true <-> s <> "".
Proof. destruct s; simpl; split; congruence. Qed.

Lemma search_group_solid (ic : bool) (n : nat) (r : regex) (s : string) (m : caps) :
  group_solid ic n r = true -> n <> 0 -> search ic r s = Some m ->
  exists a g, m !! n = Some (String a g) /\ Py.isspace a = false.
Proof.
  intros [Hs Hf]%andb_true_iff Hn H.
  destruct (search_sets ic r n s m Hs H) as [g Hg].
  rewrite forallb_forall in Hf.
  pose proof (search_group ic r
    (fun k g => k = n -> exists a g', g = String a g' /\ nonspace a = true) s m) as HP.
  destruct (HP) with (n := n) (g := g) as (a & g' & -> & Ha); try done.
  - intros k r' g0 Hin Hm ->. specialize (Hf _ Hin). simpl in Hf.
    rewrite Nat.eqb_refl in Hf. simpl in Hf.
    eapply first_in_spec; eauto.
  - exists a, g'. split; [done|]. by apply negb_true_iff in Ha.
Qed.

Lemma search_group_truthy (ic : bool) (n : nat) (r : regex) (s : string) (m : caps) :
  group_solid ic n r = true -> n <> 0 -> search ic r s = Some m ->
  Py.truthy (Py.strip (group_text m n)) = true.
Proof.
  intros Hg Hn H.
  destruct (search_group_solid ic n r s m Hg Hn H) as (a & g & Hm & Ha).
  unfold group_text, group. rewrite Hm. simpl. by apply strip_truthy.
Qed.

(** [re.sub(r"\D", "", s)] keeps the digits of [s]. *)
Lemma sub_go_nondigit (fuel : nat) (s : string) :
  String.length s <= fuel ->
  sub_go fuel false nondigit "" s = sfilter Py.isdigit s.
Proof.
  revert s. induction fuel as [|fuel IH]; intros [|a s] Hlen; simpl in *; try done; [lia|].
  unfold cls_mem, item_mem. simpl.
  rewrite !orb_false_r.
  destruct (Py.isdigit a); simpl.
  - f_equal. apply IH. lia.
  - rewrite app_nil_l. apply IH. lia.
Qed.

Lemma sub_nondigit (s : string) :
  Re.sub false nondigit "" s = sfilter Py.isdigit s.
Proof. apply sub_go_nondigit. done. Qed.

(** ** Lookups in the entities of each block *)

Lemma has_key_spec (k : string) (e : gmap string string) :
  has_key k e = true <-> is_Some (e !! k).
Proof. unfold has_key. by rewrite bool_decide_eq_true. Qed.

Lemma lead_create_name (text : string) :
  lead_create_entities text !! "name" =
  (fun m => Py.strip (group_text m 1)) <$> search false Pat.name text.
Proof.
  unfold lead_create_entities.
  destruct (search false Pat.name text), (search false Pat.phone text),
    (search false Pat.city text), (search true Pat.source text);
    repeat case_match; by simplify_map_eq.
Qed.

Lemma lead_create_phone (text : string) :
  lead_create_entities text !! "phone" =
  (fun m => Re.sub false nondigit "" (group_text m 0)) <$> search false Pat.phone text.
Proof.
  unfold lead_create_entities.
  destruct (search false Pat.name text), (search false Pat.phone text),
    (search false Pat.city text), (search true Pat.source text);
    repeat case_match; by simplify_map_eq.
Qed.

Lemma lead_create_city (text : string) :
  lead_create_entities text !! "city" =
  (fun m => Py.strip (group_text m 1)) <$> search false Pat.city text.
Proof.
  unfold lead_create_entities.
  destruct (search false Pat.name text), (search false Pat.phone text),
    (search false Pat.city text), (search true Pat.source text);
    repeat case_match; by simplify_map_eq.
Qed.

Lemma lead_create_source (text : string) :
  lead_create_entities text !! "source" =
  match search true Pat.source text with
  | Some m =>
      let candidate := Py.capitalize (group_text m 1) in
      if mem (Py.lower candidate) KNOWN_SOURCES then Some candidate else None
  | None => None
  end.
Proof.
  unfold lead_create_entities.
  destruct (search false Pat.name text), (search false Pat.phone text),
    (search false Pat.city text), (search true Pat.source text);
    repeat case_match; by simplify_map_eq.
Qed.

(** ** The four ways out of [parse_transcript] *)

Section Cases.
Context {datetime : Type}.
Variable dateparser_parse : datetime -> string -> option datetime.
Variable isoformat : datetime -> string.

Lemma parse_transcript_cases (now : datetime) (transcript : string) :
  let text := Py.strip transcript in
  (create_succeeds text = true /\
   parse_transcript dateparser_parse isoformat now transcript = mkResult LEAD_CREATE (lead_create_entities text)) \/
  (create_succeeds text = false /\
   visit_succeeds dateparser_parse isoformat now text = true /\
   parse_transcript dateparser_parse isoformat now transcript = mkResult VISIT_SCHEDULE
       (visit_entities dateparser_parse isoformat now text)) \/
  (create_succeeds text = false /\
   visit_succeeds dateparser_parse isoformat now text = false /\
   update_succeeds text = true /\
   parse_transcript dateparser_parse isoformat now transcript = mkResult LEAD_UPDATE (lead_update_entities text)) \/
  (create_succeeds text = false /\
   visit_succeeds dateparser_parse isoformat now text = false /\
   update_succeeds text = false /\
   parse_transcript dateparser_parse isoformat now transcript = mkResult UNKNOWN ∅).
Proof.
  intros text. unfold parse_transcript, create_succeeds, visit_succeeds,
    update_succeeds, visit_entities. fold text.
  destruct (lead_create_gate _ && issubset _ (lead_create_entities _)); [by left|].
  right.
  destruct (visit_schedule_entities _ _ _ _) as [visit time_text].
  destruct (visit_schedule_gate _ && visit_schedule_ok _ _); [by left|].
  right.
  destruct (lead_update_gate _ && issubset _ (lead_update_entities _)); [by left|].
  by right.
Qed.

End Cases.

(** ** Required entities *)

Lemma visit_schedule_result_keys (e : gmap string string) (tt : option string) :
  visit_schedule_ok e tt = true ->
  is_Some (visit_schedule_result e tt !! "lead_id") /\
  is_Some (visit_schedule_result e tt !! "visit_time").
Proof.
  unfold visit_schedule_ok, visit_schedule_result, issubset. simpl.
  rewrite andb_true_r.
  intros [Hl Ht]%andb_true_iff. apply has_key_spec in Hl.
  destruct (has_key "visit_time" e) eqn:Hv.
  - apply has_key_spec in Hv. destruct tt; simpl; done.
  - simpl in Ht. destruct tt as [t|]; [|done]. simpl in *. rewrite Ht.
    split; [by rewrite lookup_insert_ne | rewrite lookup_insert_eq; eauto].
Qed.

(** C1: a result whose intent is not UNKNOWN holds every required entity of
    its intent: name, phone and city for LEAD_CREATE, lead_id and visit_time
    for VISIT_SCHEDULE, lead_id and status for LEAD_UPDATE. *)
Theorem required_entities_present {datetime : Type}
    (dateparser_parse : datetime -> string -> option datetime)
    (isoformat : datetime -> string) (now : datetime) (transcript : string) :
  let r := parse_transcript dateparser_parse isoformat now transcript in
  intent r <> UNKNOWN ->
  forall key, In key (required (intent r)) -> is_Some (entities r !! key).
Proof.
  intros r Hi key Hk. subst r.
  destruct (parse_transcript_cases dateparser_parse isoformat now transcript)
    as [[Hc E]|[(_ & Hv & E)|[(_ & _ & Hu & E)|(_ & _ & _ & E)]]];
    rewrite E in *; simpl in *; [| | |congruence].
  - apply andb_true_iff in Hc as [_ Hc]. unfold issubset in Hc.
    rewrite forallb_forall in Hc. apply has_key_spec, Hc. exact Hk.
  - unfold visit_succeeds, visit_entities in *.
    destruct (visit_schedule_entities _ _ _ _) as [visit time_text].
    apply andb_true_iff in Hv as [_ Hv].
    apply visit_schedule_result_keys in Hv as [H1 H2].
    destruct Hk as [<-|[<-|[]]]; done.
  - apply andb_true_iff in Hu as [_ Hu]. unfold issubset in Hu.
    rewrite forallb_forall in Hu. apply has_key_spec, Hu. exact Hk.
Qed.

Lemma required_entities_present_witness :
  let r := Clock.run day1 "Schedule visit for lead abc-123 at 7" in
  intent r <> UNKNOWN /\ In "visit_time" (required (intent r)) /\
  is_Some (entities r !! "visit_time").
Proof.
  assert (Hi : intent (Clock.run day1 "Schedule visit for lead abc-123 at 7")
               <> UNKNOWN) by (vm_compute; discriminate).
  assert (Hk : In "visit_time"
                 (required (intent (Clock.run day1
                    "Schedule visit for lead abc-123 at 7"))))
    by (vm_compute; auto).
  split; [exact Hi|]. split; [exact Hk|].
  exact (required_entities_present Clock.parse Clock.isoformat day1
           "Schedule visit for lead abc-123 at 7" Hi "visit_time" Hk).
Defined.

(** ** LEAD_CREATE *)



(** ** Case mapping *)

Lemma char_upper_lower_upper (a : ascii) :
  Py.char_upper (Py.char_lower (Py.char_upper a)) = Py.char_upper a.
Proof. by destruct a as [[] [] [] [] [] [] [] []]. Qed.

Lemma char_lower_idem (a : ascii) :
  Py.char_lower (Py.char_lower a) = Py.char_lower a.
Proof. by destruct a as [[] [] [] [] [] [] [] []]. Qed.

Lemma lower_idem (s : string) : Py.lower (Py.lower s) = Py.lower s.
Proof.
  induction s as [|a s IH]; [done|].
  unfold Py.lower in *. simpl. by rewrite char_lower_idem, IH.
Qed.

(** Capitalizing is not undone by lower-casing. *)
Lemma capitalize_lower_capitalize (s : string) :
  Py.capitalize (Py.lower (Py.capitalize s)) = Py.capitalize s.
Proof.
  destruct s as [|a s]; [done|].
  change (String (Py.char_upper (Py.char_lower (Py.char_upper a)))
                 (Py.lower (Py.lower (Py.lower s)))
          = String (Py.char_upper a) (Py.lower s)).
  by rewrite char_upper_lower_upper, !lower_idem.
Qed.

Lemma mem_In (x : string) (xs : list string) : mem x xs = true <-> In x xs.
Proof.
  unfold mem. rewrite existsb_exists. split.
  - intros (y & Hy & ->%String.eqb_eq). done.
  - intros Hx. exists x. split; [done | apply String.eqb_refl].
Qed.

(** C6: in a LEAD_CREATE result, a source is present only if its
    lower-cased value is one of the six known sources, and it is stored
    capitalized; a candidate that follows via, source, referral or through
    and is not a known source is left out, and whether LEAD_CREATE succeeds
    depends on the name, phone and city matches only. *)
Theorem source_whitelisted {datetime : Type}
    (dateparser_parse : datetime -> string -> option datetime)
    (isoformat : datetime -> string) (now : datetime) (transcript : string) :
  let r := parse_transcript dateparser_parse isoformat now transcript in
  let text := Py.strip transcript in
  intent r = LEAD_CREATE ->
  (forall v, entities r !! "source" = Some v ->
     In (Py.lower v) KNOWN_SOURCES /\ v = Py.capitalize (Py.lower v) /\
     In v ["Instagram"; "Facebook"; "Linkedin"; "Website"; "Google"; "Ads"]) /\
  (forall m, search true Pat.source text = Some m ->
     ~ In (Py.lower (Py.capitalize (group_text m 1))) KNOWN_SOURCES ->
     entities r !! "source" = None) /\
  (issubset ["name"; "phone"; "city"] (lead_create_entities text) = true <->
   is_Some (search false Pat.name text) /\
   is_Some (search false Pat.phone text) /\
   is_Some (search false Pat.city text)).
Proof.
  intros r text Hi. subst r.
  destruct (parse_transcript_cases dateparser_parse isoformat now transcript)
    as [[Hc E]|[(_ & _ & E)|[(_ & _ & _ & E)|(_ & _ & _ & E)]]];
    rewrite E in *; simpl in *; try discriminate.
  clear E Hi. fold text. split_and!.
  - intros v Hv. rewrite lead_create_source in Hv.
    destruct (search true Pat.source text) as [m|]; [|done]. cbv zeta in Hv.
    destruct (mem _ KNOWN_SOURCES) eqn:Hmem; [|done].
    injection Hv as <-. apply mem_In in Hmem.
    assert (Hcap : Py.capitalize (group_text m 1)
                   = Py.capitalize (Py.lower (Py.capitalize (group_text m 1))))
      by (by rewrite capitalize_lower_capitalize).
    split_and!; [done..|].
    rewrite Hcap.
    set (k := Py.lower (Py.capitalize (group_text m 1))) in *. clearbody k.
    simpl in Hmem. destruct_or!; subst; simpl; vm_compute; tauto.
  - intros m Hm Hnot. rewrite lead_create_source, Hm. cbv zeta.
    destruct (mem _ KNOWN_SOURCES) eqn:Hmem; [|done].
    apply mem_In in Hmem. done.
  - unfold issubset. simpl. rewrite andb_true_r, !andb_true_iff, !has_key_spec.
    rewrite lead_create_name, lead_create_phone, lead_create_city.
    rewrite !fmap_is_Some. done.
Qed.

Lemma source_whitelisted_witness :
  let t := "Add a new lead: Rohan Sharma from Gurgaon, phone 9876543210, source Instagram." in
  let r := Clock.run day1 t in
  intent r = LEAD_CREATE /\
  entities r !! "source" = Some "Instagram" /\
  In "Instagram" ["Instagram"; "Facebook"; "Linkedin"; "Website"; "Google"; "Ads"].
Proof.
  assert (Hi : intent (Clock.run day1
    "Add a new lead: Rohan Sharma from Gurgaon, phone 9876543210, source Instagram.")
    = LEAD_CREATE) by (vm_compute; reflexivity).
  assert (Hs : entities (Clock.run day1
    "Add a new lead: Rohan Sharma from Gurgaon, phone 9876543210, source Instagram.")
    !! "source" = Some "Instagram") by (vm_compute; reflexivity).
  split; [exact Hi|]. split; [exact Hs|].
  exact (proj2 (proj2 (proj1
    (source_whitelisted Clock.parse Clock.isoformat day1
       "Add a new lead: Rohan Sharma from Gurgaon, phone 9876543210, source Instagram."
       Hi) "Instagram" Hs))).
Defined.

(** ** Literals under IGNORECASE *)

Lemma char_upper_lower (a : ascii) :
  Py.char_upper (Py.char_lower a) = Py.char_upper a.
Proof. by destruct a as [[] [] [] [] [] [] [] []]. Qed.

Lemma char_upper_idem (a : ascii) :
  Py.char_upper (Py.char_upper a) = Py.char_upper a.
Proof. by destruct a as [[] [] [] [] [] [] [] []]. Qed.

Lemma char_lower_upper (a : ascii) :
  Py.char_lower (Py.char_upper a) = Py.char_lower a.
Proof. by destruct a as [[] [] [] [] [] [] [] []]. Qed.

Lemma char_upper_or_lower (a : ascii) :
  a = Py.char_upper a \/ a = Py.char_lower (Py.char_upper a).
Proof. destruct a as [[] [] [] [] [] [] [] []]; vm_compute; tauto. Qed.

(** A character matches a literal one under IGNORECASE exactly when the two
    have the same upper case. *)
Lemma chr_ic (a b : ascii) :
  cls_mem true false [CChr a] b = true <-> Py.char_upper b = Py.char_upper a.
Proof.
  unfold cls_mem, item_mem. simpl. rewrite !orb_false_r, !orb_true_iff.
  rewrite !Ascii.eqb_eq. split.
  - intros [<-|[<-|<-]];
      [done | by rewrite char_upper_lower | by rewrite char_upper_idem].
  - intros H. destruct (char_upper_or_lower a) as [Ha|Ha].
    + right. right. congruence.
    + right. left. rewrite Ha, <- H. by rewrite char_lower_upper.
Qed.

Lemma upper_app (a b : string) : Py.upper (a +:+ b) = Py.upper a +:+ Py.upper b.
Proof.
  induction a as [|x a IH]; [done|].
  rewrite app_cons. unfold Py.upper in *. simpl. by rewrite IH.
Qed.

Lemma lit_cons (a a' : ascii) (l : string) :
  lit (String a (String a' l)) = Seq (chr a) (lit (String a' l)).
Proof. reflexivity. Qed.

Lemma matches_lit_upper (l g : string) :
  matches true (lit l) g -> Py.upper g = Py.upper l.
Proof.
  revert g. induction l as [|a l IH]; intros g H.
  - simpl in H. by inversion H.
  - destruct l as [|a' l].
    + simpl in H. unfold chr in H. inversion H as [|? ? b Hb| | | | | | | |]; subst.
      apply chr_ic in Hb. unfold Py.upper. simpl. by rewrite Hb.
    + rewrite lit_cons in H. unfold chr in H.
      inversion H as [| | | |? ? m1 m2 H1 H2| | | | |]; subst.
      inversion H1 as [|? ? b Hb| | | | | | | |]; subst.
      apply chr_ic in Hb. rewrite upper_app, (IH _ H2).
      unfold Py.upper at 1. simpl. rewrite Hb. done.
Qed.

Lemma matches_grp_inv (ic : bool) (n : nat) (r : regex) (g : string) :
  matches ic (Grp n r) g -> matches ic r g.
Proof. by inversion 1. Qed.

Lemma matches_alts (ic : bool) (rs : list regex) (g : string) :
  matches ic (alts rs) g -> exists r, In r rs /\ matches ic r g.
Proof.
  induction rs as [|r rs IH]; intros H.
  - inversion H as [|? ? a Ha| | | | | | | |]; subst. discriminate Ha.
  - destruct rs as [|r' rs].
    + exists r. split; [by left | done].
    + change (alts (r :: r' :: rs)) with (Alt r (alts (r' :: rs))) in H.
      inversion H as [| | | | |? ? ? H1|? ? ? H1| | |]; subst.
      * exists r. split; [by left | done].
      * destruct (IH H1) as (r0 & Hin & Hm). exists r0. split; [by right | done].
Qed.

(** The status pattern matches the five tokens, in any case. *)
Lemma matches_status (g : string) :
  matches true Pat.status g ->
  In (Py.upper g) ["NEW"; "IN PROGRESS"; "FOLLOW UP"; "WON"; "LOST"].
Proof.
  unfold Pat.status. intros H.
  apply matches_grp_inv, matches_alts in H as (r & Hin & Hm).
  repeat (destruct Hin as [<-|Hin];
          [apply matches_lit_upper in Hm; rewrite Hm; vm_compute; tauto|]).
  destruct Hin.
Qed.


Lemma rmatch_grp (ic : bool) (n : nat) (r : regex) (s : string) (c : caps) :
  rmatch ic (Grp n r) s c =
  map (fun '(m, s', c') => (m, s', <[n:=m]> c')) (rmatch ic r s c).
Proof. reflexivity. Qed.

(** In a match of a pattern that is one group, that group is the whole
    match. *)
Lemma search_grp (ic : bool) (n : nat) (r : regex) (text : string) (m : caps) :
  n <> 0 -> search ic (Grp n r) text = Some m -> m !! n = m !! 0.
Proof.
  intros Hn H.
  apply search_spec in H as (pre & suf & g & rest & c & tl & _ & _ & Hm & ->).
  rewrite rmatch_grp in Hm.
  destruct (rmatch ic r suf ∅) as [|[[g' rest'] c'] tl']; [done|].
  simpl in Hm. injection Hm as <- <- <- <-.
  by rewrite lookup_insert_ne, !lookup_insert_eq.
Qed.

Lemma search_status (text : string) (m : caps) :
  search true Pat.status text = Some m -> m !! 1 = m !! 0.
Proof. by apply search_grp. Qed.

Lemma lead_update_lead_id (text : string) :
  lead_update_entities text !! "lead_id" =
  (fun m => Py.strip (group_text m 1)) <$> search false Pat.update_lead text.
Proof.
  unfold lead_update_entities.
  destruct (search false Pat.update_lead text), (search true Pat.status text),
    (search true Pat.update_notes text);
    repeat case_match; by simplify_map_eq.
Qed.

Lemma lead_update_status (text : string) :
  lead_update_entities text !! "status" =
  match search true Pat.status text with
  | Some m =>
      let status := Py.replace " " "_" (Py.upper (group_text m 1)) in
      if mem status VALID_STATUSES then Some status else None
  | None => None
  end.
Proof.
  unfold lead_update_entities.
  destruct (search false Pat.update_lead text), (search true Pat.status text),
    (search true Pat.update_notes text);
    repeat case_match; by simplify_map_eq.
Qed.

(** ** LEAD_UPDATE *)

(** C5: in a LEAD_UPDATE result the status is one of NEW, IN_PROGRESS,
    FOLLOW_UP, WON, LOST: it is the leftmost occurrence, in any case, of one
    of the tokens NEW, IN PROGRESS, FOLLOW UP, WON, LOST, upper-cased and
    with spaces replaced by underscores, and it was kept because it is in
    VALID_STATUSES. *)
Theorem status_valid {datetime : Type}
    (dateparser_parse : datetime -> string -> option datetime)
    (isoformat : datetime -> string) (now : datetime) (transcript : string) :
  let r := parse_transcript dateparser_parse isoformat now transcript in
  intent r = LEAD_UPDATE ->
  exists status pre g rest,
    entities r !! "status" = Some status /\
    In status VALID_STATUSES /\
    Py.strip transcript = pre +:+ g +:+ rest /\
    leftmost true Pat.status pre (g +:+ rest) /\
    In (Py.upper g) ["NEW"; "IN PROGRESS"; "FOLLOW UP"; "WON"; "LOST"] /\
    status = Py.replace " " "_" (Py.upper g).
Proof.
  intros r Hi. subst r.
  destruct (parse_transcript_cases dateparser_parse isoformat now transcript)
    as [[_ E]|[(_ & _ & E)|[(_ & _ & Hu & E)|(_ & _ & _ & E)]]];
    rewrite E in *; simpl in *; try discriminate.
  clear E Hi. set (text := Py.strip transcript) in *.
  apply andb_true_iff in Hu as [_ Hu]. unfold issubset in Hu. simpl in Hu.
  rewrite andb_true_r in Hu. apply andb_true_iff in Hu as [_ Hs].
  apply has_key_spec in Hs as [status Hs]. pose proof Hs as Hs'.
  rewrite lead_update_status in Hs'.
  destruct (search true Pat.status text) as [m|] eqn:Em; [|done].
  cbv zeta in Hs'.
  destruct (mem _ VALID_STATUSES) eqn:Hmem; [|done]. injection Hs' as Hs'.
  pose proof (search_status _ _ Em) as H10.
  apply search_sound in Em as (pre & g & rest & Htext & Hleft & Hg & Hg0).
  assert (Hgt : group_text m 1 = g)
    by (unfold group_text, group; by rewrite H10, Hg0).
  rewrite Hgt in *.
  exists status, pre, g, rest. split_and!; try done.
  - rewrite <- Hs'. exact (proj1 (mem_In _ VALID_STATUSES) Hmem).
  - by apply matches_status.
Qed.

Lemma status_valid_witness :
  let r := Clock.run day1 "Mark lead abc-123-def-456 status in progress" in
  intent r = LEAD_UPDATE /\
  exists status pre g rest,
    entities r !! "status" = Some status /\
    In status VALID_STATUSES /\
    Py.strip "Mark lead abc-123-def-456 status in progress" = pre +:+ g +:+ rest /\
    leftmost true Pat.status pre (g +:+ rest) /\
    In (Py.upper g) ["NEW"; "IN PROGRESS"; "FOLLOW UP"; "WON"; "LOST"] /\
    status = Py.replace " " "_" (Py.upper g).
Proof.
  assert (Hi : intent (Clock.run day1 "Mark lead abc-123-def-456 status in progress")
               = LEAD_UPDATE) by (vm_compute; reflexivity).
  split; [exact Hi|].
  exact (status_valid Clock.parse Clock.isoformat day1
           "Mark lead abc-123-def-456 status in progress" Hi).
Defined.

(** ** The router *)

Lemma existsb_false_Forall {A} (f : A -> bool) (l : list A) :
  existsb f l = false <-> Forall (fun x => f x = false) l.
Proof.
  induction l as [|x l IH]; simpl.
  - split; [constructor | done].
  - rewrite orb_false_iff, IH. split.
    + intros [??]. by constructor.
    + by inversion 1.
Qed.

(** C3: a transcript that opens no gate (its lower-cased text does not hold
    both lead and one of add, create, register, new; holds none of visit,
    appointment, meeting, schedule; holds none of update, mark, status),
    and more generally one for which no block succeeds, gets UNKNOWN with no
    entities. *)
Theorem unknown_fallback {datetime : Type}
    (dateparser_parse : datetime -> string -> option datetime)
    (isoformat : datetime -> string) (now : datetime) (transcript : string) :
  let text := Py.strip transcript in
  let lowered := Py.lower text in
  ((Py.contains "lead" lowered = false \/
    Forall (fun w => Py.contains w lowered = false)
           ["add"; "create"; "register"; "new"]) /\
   Forall (fun w => Py.contains w lowered = false)
          ["visit"; "appointment"; "meeting"; "schedule"] /\
   Forall (fun w => Py.contains w lowered = false) ["update"; "mark"; "status"])
  \/
  (create_succeeds text = false /\
   visit_succeeds dateparser_parse isoformat now text = false /\
   update_succeeds text = false) ->
  parse_transcript dateparser_parse isoformat now transcript = mkResult UNKNOWN ∅.
Proof.
  intros text lowered H.
  assert (Hall : create_succeeds text = false /\
                 visit_succeeds dateparser_parse isoformat now text = false /\
                 update_succeeds text = false).
  { destruct H as [(Hc & Hv & Hu)|H]; [|exact H].
    unfold create_succeeds, visit_succeeds, update_succeeds.
    fold lowered. split_and!.
    - unfold lead_create_gate.
      destruct Hc as [->|Hc]; [done|].
      apply existsb_false_Forall in Hc. rewrite Hc. by rewrite andb_false_r.
    - destruct (visit_schedule_entities _ _ _ _) as [visit time_text].
      unfold visit_schedule_gate. apply existsb_false_Forall in Hv.
      by rewrite Hv.
    - unfold lead_update_gate.
      inversion Hu as [|? ? H1 Hu1]; subst. inversion Hu1 as [|? ? H2 Hu2]; subst.
      inversion Hu2 as [|? ? H3 _]; subst. by rewrite H1, H2, H3. }
  destruct Hall as (Hc & Hv & Hu). subst text.
  destruct (parse_transcript_cases dateparser_parse isoformat now transcript)
    as [[Hc' _]|[(_ & Hv' & _)|[(_ & _ & Hu' & _)|(_ & _ & _ & E)]]];
    congruence.
Qed.

Lemma unknown_fallback_witness :
  let lowered := Py.lower (Py.strip "  Good morning, how are you?  ") in
  ((Py.contains "lead" lowered = false \/
    Forall (fun w => Py.contains w lowered = false)
           ["add"; "create"; "register"; "new"]) /\
   Forall (fun w => Py.contains w lowered = false)
          ["visit"; "appointment"; "meeting"; "schedule"] /\
   Forall (fun w => Py.contains w lowered = false) ["update"; "mark"; "status"]) /\
  Clock.run day1 "  Good morning, how are you?  " = mkResult UNKNOWN ∅.
Proof.
  assert (H : let lowered := Py.lower (Py.strip "  Good morning, how are you?  ") in
    (Py.contains "lead" lowered = false \/
     Forall (fun w => Py.contains w lowered = false)
            ["add"; "create"; "register"; "new"]) /\
    Forall (fun w => Py.contains w lowered = false)
           ["visit"; "appointment"; "meeting"; "schedule"] /\
    Forall (fun w => Py.contains w lowered = false) ["update"; "mark"; "status"]).
  { split_and!; [left; reflexivity | repeat constructor..]. }
  split; [exact H|].
  exact (unknown_fallback Clock.parse Clock.isoformat day1
           "  Good morning, how are you?  " (or_introl H)).
Defined.

(** C2: the three blocks are tried in the order LEAD_CREATE, VISIT_SCHEDULE,
    LEAD_UPDATE and the first one that succeeds gives the result.  When the
    LEAD_CREATE gate is open but name, phone and city were not all found,
    the later blocks are tried; if VISIT_SCHEDULE then succeeds the intent
    is VISIT_SCHEDULE, as for a transcript with both lead and visit. *)
Theorem priority_order {datetime : Type}
    (dateparser_parse : datetime -> string -> option datetime)
    (isoformat : datetime -> string) (now : datetime) (transcript : string) :
  let r := parse_transcript dateparser_parse isoformat now transcript in
  let text := Py.strip transcript in
  let visit_ok := visit_succeeds dateparser_parse isoformat now text in
  (create_succeeds text = true ->
   r = mkResult LEAD_CREATE (lead_create_entities text)) /\
  (create_succeeds text = false -> visit_ok = true ->
   r = mkResult VISIT_SCHEDULE
         (visit_entities dateparser_parse isoformat now text)) /\
  (create_succeeds text = false -> visit_ok = false ->
   update_succeeds text = true ->
   r = mkResult LEAD_UPDATE (lead_update_entities text)) /\
  (lead_create_gate (Py.lower text) = true ->
   issubset ["name"; "phone"; "city"] (lead_create_entities text) = false ->
   (visit_ok = true -> intent r = VISIT_SCHEDULE) /\
   (visit_ok = false -> update_succeeds text = true -> intent r = LEAD_UPDATE)) /\
  (let t := "Schedule new visit for lead abc-123 at 3 PM" in
   lead_create_gate (Py.lower (Py.strip t)) = true /\
   intent (parse_transcript Clock.parse Clock.isoformat day1 t) = VISIT_SCHEDULE).
Proof.
  intros r text visit_ok. subst r visit_ok.
  assert (Hgate : forall b, lead_create_gate (Py.lower text) = true ->
            issubset ["name"; "phone"; "city"] (lead_create_entities text) = b ->
            create_succeeds text = b).
  { intros b Hg Hs. unfold create_succeeds. by rewrite Hg, Hs. }
  subst text.
  destruct (parse_transcript_cases dateparser_parse isoformat now transcript)
    as [[Hc E]|[(Hc & Hv & E)|[(Hc & Hv & Hu & E)|(Hc & Hv & Hu & E)]]];
    rewrite E; (split_and!; [try congruence..|by vm_compute]).
  all: intros Hg Hs; apply (Hgate false Hg) in Hs; simpl; split; congruence.
Qed.

Lemma priority_order_witness :
  let t := "Schedule new visit for lead abc-123 at 3 PM" in
  lead_create_gate (Py.lower (Py.strip t)) = true /\
  issubset ["name"; "phone"; "city"] (lead_create_entities (Py.strip t)) = false /\
  visit_succeeds Clock.parse Clock.isoformat day1 (Py.strip t) = true /\
  intent (Clock.run day1 t) = VISIT_SCHEDULE.
Proof.
  assert (Hg : lead_create_gate (Py.lower (Py.strip
                 "Schedule new visit for lead abc-123 at 3 PM")) = true)
    by (vm_compute; reflexivity).
  assert (Hs : issubset ["name"; "phone"; "city"] (lead_create_entities (Py.strip
                 "Schedule new visit for lead abc-123 at 3 PM")) = false)
    by (vm_compute; reflexivity).
  assert (Hv : visit_succeeds Clock.parse Clock.isoformat day1 (Py.strip
                 "Schedule new visit for lead abc-123 at 3 PM") = true)
    by (vm_compute; reflexivity).
  split_and!; [exact Hg | exact Hs | exact Hv |].
  exact (proj1 (proj1 (proj2 (proj2 (proj2
    (priority_order Clock.parse Clock.isoformat day1
       "Schedule new visit for lead abc-123 at 3 PM")))) Hg Hs) Hv).
Defined.

(** ** VISIT_SCHEDULE *)

Lemma lead_id_loop_eq (ps : list regex) (text : string) (e : gmap string string) :
  lead_id_loop ps text e =
  match lead_id_loop ps text ∅ !! "lead_id" with
  | Some v => <["lead_id" := v]> e
  | None => e
  end.
Proof.
  induction ps as [|p ps IH]; simpl; [done|].
  destruct (search true p text) as [m|]; [|done].
  destruct (negb _); [by rewrite lookup_insert_eq | done].
Qed.

Lemma notes_loop_eq (ps : list regex) (text : string) (e : gmap string string) :
  notes_loop ps text e =
  match notes_loop ps text ∅ !! "notes" with
  | Some v => <["notes" := v]> e
  | None => e
  end.
Proof.
  induction ps as [|p ps IH]; simpl; [done|].
  destruct (search true p text) as [m|]; [by rewrite lookup_insert_eq | done].
Qed.

(** A phrase that a time pattern matched is not empty. *)
Lemma time_loop_truthy (ps : list regex) (text t : string) :
  forallb (fun p => (1 <? ngroups p) || group_solid true 1 p) ps = true ->
  time_loop ps text = Some t -> Py.truthy t = true.
Proof.
  induction ps as [|p ps IH]; simpl; [done|].
  intros [Hp Hps]%andb_true_iff.
  destruct (search true p text) as [m|] eqn:Em; [|by apply IH].
  destruct (1 <? ngroups p); simpl in Hp.
  - intros [= <-]. destruct (fmt (group m 1)); done.
  - intros [= <-]. by apply (search_group_truthy true 1 p text).
Qed.

Lemma time_patterns_truthy (text t : string) :
  time_loop Pat.time_patterns text = Some t -> Py.truthy t = true.
Proof. by apply time_loop_truthy. Qed.

Section Visit.
Context {datetime : Type}.
Variable dateparser_parse : datetime -> string -> option datetime.
Variable isoformat : datetime -> string.

(** The block in terms of what its loops find. *)
Lemma visit_schedule_entities_eq (now : datetime) (text : string) :
  visit_schedule_entities dateparser_parse isoformat now text =
  let e0 : gmap string string :=
    match lead_id_value text with Some v => {["lead_id" := v]} | None => ∅ end in
  let tt := time_loop Pat.time_patterns text in
  let e1 :=
    match tt with
    | Some t =>
        match normalize dateparser_parse isoformat now t with
        | Some v => <["visit_time" := v]> e0
        | None => e0
        end
    | None => e0
    end in
  let e2 :=
    match notes_value text with Some v => <["notes" := v]> e1 | None => e1 end in
  (e2, tt).
Proof.
  unfold visit_schedule_entities, normalize, lead_id_value, notes_value.
  rewrite notes_loop_eq, lead_id_loop_eq. cbv zeta.
  generalize (notes_loop Pat.visit_notes_patterns text ∅ !! "notes").
  generalize (lead_id_loop Pat.lead_patterns text ∅ !! "lead_id").
  intros lid nts.
  destruct (time_loop Pat.time_patterns text) as [t|] eqn:Et.
  - rewrite (time_patterns_truthy _ _ Et).
    destruct (dateparser_parse now t), lid; try rewrite insert_empty; done.
  - destruct lid; try rewrite insert_empty; done.
Qed.

Lemma visit_succeeds_eq (now : datetime) (text : string) :
  visit_succeeds dateparser_parse isoformat now text =
  visit_schedule_gate (Py.lower text) &&
  bool_decide (is_Some (lead_id_value text)) &&
  bool_decide (is_Some (time_loop Pat.time_patterns text)).
Proof.
  unfold visit_succeeds. rewrite visit_schedule_entities_eq. cbv zeta.
  pose proof (time_patterns_truthy text) as Htt.
  destruct (visit_schedule_gate (Py.lower text)); [|done].
  rewrite !andb_true_l.
  revert Htt. generalize (time_loop Pat.time_patterns text).
  generalize (lead_id_value text) (notes_value text) (normalize dateparser_parse isoformat now).
  intros lid nts norm [t|] Htt.
  - unfold visit_schedule_ok, issubset, has_key, time_truthy. simpl forallb.
    rewrite (Htt t eq_refl), orb_true_r, !andb_true_r.

    destruct lid, (norm t), nts; apply bool_decide_ext; by simplify_map_eq.
  - unfold visit_schedule_ok, issubset, has_key, time_truthy. simpl forallb.
    rewrite (bool_decide_eq_false_2 (is_Some None)) by (by intros [? [=]]).
    rewrite orb_false_r, !andb_true_r, andb_false_r.
    apply andb_false_iff. right. apply bool_decide_eq_false_2.
    destruct lid, nts; by simplify_map_eq.
Qed.

(** The entities of a VISIT_SCHEDULE result. *)
Lemma visit_entities_lookup (now : datetime) (text : string) (k : string) :
  visit_entities dateparser_parse isoformat now text !! k =
  if decide (k = "notes") then notes_value text
  else if decide (k = "visit_time") then
    match time_loop Pat.time_patterns text with
    | Some t => Some (default t (normalize dateparser_parse isoformat now t))
    | None => None
    end
  else if decide (k = "lead_id") then lead_id_value text
  else None.
Proof.
  unfold visit_entities. rewrite visit_schedule_entities_eq. cbv zeta.
  pose proof (time_patterns_truthy text) as Htt.
  revert Htt. generalize (time_loop Pat.time_patterns text).
  generalize (lead_id_value text) (notes_value text) (normalize dateparser_parse isoformat now).
  intros lid nts norm [t|] Htt; unfold visit_schedule_result, has_key.
  - rewrite (Htt t eq_refl), andb_true_r.
    destruct lid, (norm t), nts; simpl;
      repeat case_bool_decide; repeat case_decide; subst;
      simplify_map_eq; try done;
      match goal with H : ¬ is_Some _ |- _ => exfalso; apply H; by simplify_map_eq
                 | H : is_Some _ |- _ => destruct H as [? H]; by simplify_map_eq end.
  - destruct lid, nts; repeat case_decide; subst; by simplify_map_eq.
Qed.

End Visit.

(** C4: in the VISIT_SCHEDULE block, the phrase that the first matching time
    pattern gives is passed to the Time Normalizer.  When it is normalized,
    visit_time is the canonical timestamp; when the date library cannot
    parse it, visit_time is the phrase itself, and the intent succeeds all
    the same. *)
Theorem visit_time_normalized_or_raw {datetime : Type}
    (dateparser_parse : datetime -> string -> option datetime)
    (isoformat : datetime -> string) (now : datetime)
    (transcript phrase : string) :
  let r := parse_transcript dateparser_parse isoformat now transcript in
  let text := Py.strip transcript in
  create_succeeds text = false ->
  visit_schedule_gate (Py.lower text) = true ->
  is_Some (lead_id_loop Pat.lead_patterns text ∅ !! "lead_id") ->
  time_loop Pat.time_patterns text = Some phrase ->
  intent r = VISIT_SCHEDULE /\
  entities r !! "visit_time" =
    Some (match dateparser_parse now phrase with
          | Some parsed_time => isoformat parsed_time
          | None => phrase
          end).
Proof.
  intros r text Hc Hg Hl Ht. subst r text.
  assert (Hv : visit_succeeds dateparser_parse isoformat now
                 (Py.strip transcript) = true).
  { rewrite visit_succeeds_eq, Hg, Ht.
    unfold lead_id_value. rewrite !bool_decide_eq_true_2; eauto. }
  destruct (parse_transcript_cases dateparser_parse isoformat now transcript)
    as [[Hc' E]|[(_ & _ & E)|[(_ & Hv' & _)|(_ & Hv' & _)]]];
    try congruence.
  rewrite E. cbn [intent entities]. split; [done|].
  rewrite visit_entities_lookup, Ht.
  repeat case_decide; try done.
  unfold normalize. by destruct (dateparser_parse now phrase).
Qed.

Lemma visit_time_normalized_or_raw_witness :
  let t := "Schedule visit for lead abc-123 tomorrow at 3 PM" in
  let r := Clock.run day1 t in
  time_loop Pat.time_patterns (Py.strip t) = Some "tomorrow 3 PM" /\
  Clock.parse day1 "tomorrow 3 PM" = None /\
  intent r = VISIT_SCHEDULE /\
  entities r !! "visit_time" = Some "tomorrow 3 PM".
Proof.
  assert (Ht : time_loop Pat.time_patterns
                 (Py.strip "Schedule visit for lead abc-123 tomorrow at 3 PM")
               = Some "tomorrow 3 PM") by (vm_compute; reflexivity).
  split; [exact Ht|]. split; [reflexivity|].
  refine (visit_time_normalized_or_raw Clock.parse Clock.isoformat day1
            "Schedule visit for lead abc-123 tomorrow at 3 PM" "tomorrow 3 PM"
            _ _ _ Ht).
  - vm_compute; reflexivity.
  - vm_compute; reflexivity.
  - vm_compute. eexists. reflexivity.
Defined.

(** ** The current moment *)

Section Moment.
Context {datetime : Type}.
Variable dateparser_parse : datetime -> string -> option datetime.
Variable isoformat : datetime -> string.

Lemma visit_schedule_entities_ext (now1 now2 : datetime) (text : string) :
  (forall phrase, time_loop Pat.time_patterns text = Some phrase ->
     normalize dateparser_parse isoformat now1 phrase =
     normalize dateparser_parse isoformat now2 phrase) ->
  visit_schedule_entities dateparser_parse isoformat now1 text =
  visit_schedule_entities dateparser_parse isoformat now2 text.
Proof.
  intros H. rewrite !visit_schedule_entities_eq. cbv zeta.
  destruct (time_loop Pat.time_patterns text) as [t|]; [|done].
  by rewrite (H t eq_refl).
Qed.

End Moment.

(** C9, as the code has it: the result depends on the transcript and, through
    the date library, on the current moment, and on nothing else.  Two runs
    on the same transcript give the same intent and the same entities but
    for the value of visit_time, which both have or both lack; they give
    the same result when the time phrase is resolved to the same timestamp
    at the two moments, as it is when the moment is the same. *)
Theorem same_result_up_to_visit_time {datetime : Type}
    (dateparser_parse : datetime -> string -> option datetime)
    (isoformat : datetime -> string) (now1 now2 : datetime) (transcript : string) :
  let r1 := parse_transcript dateparser_parse isoformat now1 transcript in
  let r2 := parse_transcript dateparser_parse isoformat now2 transcript in
  intent r1 = intent r2 /\
  (forall key, key <> "visit_time" -> entities r1 !! key = entities r2 !! key) /\
  (is_Some (entities r1 !! "visit_time") <->
   is_Some (entities r2 !! "visit_time")) /\
  ((forall phrase,
      time_loop Pat.time_patterns (Py.strip transcript) = Some phrase ->
      isoformat <$> dateparser_parse now1 phrase =
      isoformat <$> dateparser_parse now2 phrase) ->
   r1 = r2).
Proof.
  intros r1 r2. subst r1 r2.
  pose proof (visit_succeeds_eq dateparser_parse isoformat now1
                (Py.strip transcript)) as V1.
  pose proof (visit_succeeds_eq dateparser_parse isoformat now2
                (Py.strip transcript)) as V2.
  split_and!.
  - destruct (parse_transcript_cases dateparser_parse isoformat now1 transcript)
      as [[Hc E]|[(Hc & Hv & E)|[(Hc & Hv & Hu & E)|(Hc & Hv & Hu & E)]]];
    destruct (parse_transcript_cases dateparser_parse isoformat now2 transcript)
      as [[Hc' E']|[(Hc' & Hv' & E')|[(Hc' & Hv' & Hu' & E')|(Hc' & Hv' & Hu' & E')]]];
    rewrite E, E'; try done; congruence.
  - intros key Hk.
    destruct (parse_transcript_cases dateparser_parse isoformat now1 transcript)
      as [[Hc E]|[(Hc & Hv & E)|[(Hc & Hv & Hu & E)|(Hc & Hv & Hu & E)]]];
    destruct (parse_transcript_cases dateparser_parse isoformat now2 transcript)
      as [[Hc' E']|[(Hc' & Hv' & E')|[(Hc' & Hv' & Hu' & E')|(Hc' & Hv' & Hu' & E')]]];
    rewrite E, E'; try done; try congruence.
    cbn [entities]. rewrite !visit_entities_lookup.
    repeat case_decide; done.
  - destruct (parse_transcript_cases dateparser_parse isoformat now1 transcript)
      as [[Hc E]|[(Hc & Hv & E)|[(Hc & Hv & Hu & E)|(Hc & Hv & Hu & E)]]];
    destruct (parse_transcript_cases dateparser_parse isoformat now2 transcript)
      as [[Hc' E']|[(Hc' & Hv' & E')|[(Hc' & Hv' & Hu' & E')|(Hc' & Hv' & Hu' & E')]]];
    rewrite E, E'; try done; try congruence.
    cbn [entities]. rewrite !visit_entities_lookup.
    repeat case_decide; try done.
    destruct (time_loop Pat.time_patterns (Py.strip transcript));
      [split; eauto | reflexivity].
  - intros H. unfold parse_transcript.
    by rewrite (visit_schedule_entities_ext dateparser_parse isoformat
                  now1 now2 (Py.strip transcript) H).
Qed.

Lemma same_result_up_to_visit_time_witness :
  Clock.run day1 "Schedule visit for lead abc-123 at 3 PM" =
  Clock.run day1_evening "Schedule visit for lead abc-123 at 3 PM".
Proof.
  refine (proj2 (proj2 (proj2
    (same_result_up_to_visit_time Clock.parse Clock.isoformat
       day1 day1_evening "Schedule visit for lead abc-123 at 3 PM"))) _).
  intros phrase H. vm_compute in H. injection H as <-. reflexivity.
Defined.

(** The claim of C9 fails when the moment changes: the same transcript on
    two days gives two results, since the date library resolves the time
    against the current day. *)
Lemma clock_changes_visit_time :
  Clock.run day1 "Schedule visit for lead abc-123 at 3 PM" <>
  Clock.run day2 "Schedule visit for lead abc-123 at 3 PM".
Proof.
  intros H.
  apply (f_equal (fun r => entities r !! "visit_time")) in H.
  vm_compute in H. discriminate H.
Qed.

(** ** Computing the first success *)





Lemma take_drop (n : nat) (s : string) : take n s +:+ Py.drop n s = s.
Proof.
  revert s. induction n as [|n IH]; intros [|a s]; simpl; try done.
  by rewrite app_cons, IH.
Qed.

Lemma rmatch_seq (ic : bool) (r1 r2 : regex) (s : string) (c : caps) :
  rmatch ic (Seq r1 r2) s c =
  flat_map (fun '(m1, s1, c1) =>
              map (fun '(m2, s2, c2) => (m1 +:+ m2, s2, c2)) (rmatch ic r2 s1 c1))
           (rmatch ic r1 s c).
Proof. reflexivity. Qed.

Lemma rmatch_chr (ic : bool) (a b : ascii) (s : string) (c : caps) :
  rmatch ic (chr a) (String b s) c =
  if cls_mem ic false [CChr a] b then [(String b "", s, c)] else [].
Proof. reflexivity. Qed.

Lemma rmatch_lit (ic : bool) (l s : string) (c : caps) :
  rmatch ic (lit l) s c =
  if lit_prefix ic l s
  then [(take (String.length l) s, Py.drop (String.length l) s, c)]
  else [].
Proof.
  revert s. induction l as [|a l IH]; intros s.
  - by destruct s.
  - destruct l as [|a' l].
    + destruct s as [|b s]; [done|].
      change (lit (String a "")) with (chr a). rewrite rmatch_chr.
      simpl. rewrite andb_true_r. destruct (cls_mem ic false [CChr a] b); [|done].
      by destruct s.
    + rewrite lit_cons, rmatch_seq.
      destruct s as [|b s]; [done|]. rewrite rmatch_chr.
      change (lit_prefix ic (String a (String a' l)) (String b s))
        with (cls_mem ic false [CChr a] b && lit_prefix ic (String a' l) s).
      destruct (cls_mem ic false [CChr a] b); [|done].
      simpl flat_map. rewrite IH, app_nil_r.
      destruct (lit_prefix ic (String a' l) s); done.
Qed.

Lemma lit_prefix_cs (l s : string) : lit_prefix false l s = String.prefix l s.
Proof.
  revert s. induction l as [|a l IH]; intros [|b s]; simpl; try done.
  rewrite IH. unfold cls_mem, item_mem. simpl. rewrite !orb_false_r.
  destruct (ascii_dec a b) as [->|Hne].
  - by rewrite Ascii.eqb_refl.
  - apply Ascii.eqb_neq in Hne. rewrite Ascii.eqb_sym in Hne. by rewrite Hne.
Qed.






Lemma search_none (ic : bool) (r : regex) (s : string) :
  (forall pre suf, s = pre +:+ suf -> rmatch ic r suf ∅ = []) ->
  search ic r s = None.
Proof.
  induction s as [|a s IH]; intros H; simpl.
  - by rewrite (H "" "" eq_refl).
  - rewrite (H "" (String a s) eq_refl). apply IH.
    intros pre suf ->. by apply (H (String a pre) suf).
Qed.

(** ** Facts about [in] *)

Lemma contains_suffix (sub pre suf : string) :
  Py.contains sub (pre +:+ suf) = false -> Py.contains sub suf = false.
Proof.
  induction pre as [|a pre IH]; [done|]. rewrite app_cons. simpl.
  intros [_ H]%orb_false_iff. by apply IH.
Qed.

Lemma contains_prefix (sub s : string) :
  Py.contains sub s = false -> String.prefix sub s = false.
Proof. destruct s; simpl; by intros [? _]%orb_false_iff. Qed.

Lemma prefix_app (sub q z : string) :
  String.length sub <= String.length q ->
  String.prefix sub (q +:+ z) = String.prefix sub q.
Proof.
  revert q. induction sub as [|a sub IH]; intros q Hlen;
    [by destruct (q +:+ z), q|].
  destruct q as [|b q]; simpl in Hlen; [lia|].
  rewrite app_cons. simpl. destruct (ascii_dec a b); [|done]. apply IH. lia.
Qed.



Lemma sall_impl (p q : ascii -> bool) (s : string) :
  (forall a, p a = true -> q a = true) -> sall p s = true -> sall q s = true.
Proof.
  intros H. induction s as [|a s IH]; simpl; [done|].
  intros [Ha Hs]%andb_true_iff. by rewrite (H a Ha), IH.
Qed.

Lemma sall_ext (p q : ascii -> bool) (s : string) :
  (forall a, p a = q a) -> sall p s = sall q s.
Proof. intros H. induction s as [|a s IH]; simpl; [done | by rewrite H, IH]. Qed.

(** ** The lead id of the LEAD_UPDATE block *)

Lemma hexdash_cls (a : ascii) :
  cls_mem false false
    [CRng "0" "9"; CRng "a" "f"; CRng "A" "F"; CChr "-"] a = hexdash_char a.
Proof.
  unfold cls_mem, item_mem, hexdash_char, Py.isdigit. simpl.
  by rewrite !orb_false_r, !orb_assoc.
Qed.


Lemma hexdash_nonspace (a : ascii) : hexdash_char a = true -> Py.isspace a = false.
Proof.
  intros H. apply (char_sub_spec hexdash_char nonspace a) in H; [|done].
  by apply negb_true_iff in H.
Qed.

(** Without the word lead in lower case the pattern finds nothing. *)
Lemma search_update_lead_none (text : string) :
  Py.contains "lead" text = false -> search false Pat.update_lead text = None.
Proof.
  intros H. apply search_none. intros pre suf ->.
  apply contains_suffix, contains_prefix in H.
  unfold Pat.update_lead. by rewrite rmatch_seq, rmatch_lit, lit_prefix_cs, H.
Qed.

Lemma no_earlier_match_cons (ic : bool) (r : regex) (a : ascii)
    (pre suf : string) :
  no_earlier_match ic r (String a pre) suf =
  match rmatch ic r (String a pre +:+ suf) ∅ with
  | [] => no_earlier_match ic r pre suf
  | _ :: _ => false
  end.
Proof. reflexivity. Qed.


(** Before the first lead, in lower case, the pattern matches nowhere. *)
Lemma first_lead_no_earlier_match (pre rest : string) :
  Py.contains "lead" (pre +:+ "lea") = false ->
  no_earlier_match false Pat.update_lead pre ("lead" +:+ rest) = true.
Proof.
  induction pre as [|a pre IH]; [done|]. intros H.
  assert (E : rmatch false Pat.update_lead
                (String a pre +:+ "lead" +:+ rest) ∅ = []).
  { apply contains_prefix in H.
    unfold Pat.update_lead. rewrite rmatch_seq, rmatch_lit, lit_prefix_cs.
    change (String a pre +:+ "lead" +:+ rest)
      with (String a pre +:+ "lea" +:+ "d" +:+ rest).
    rewrite <- (app_assoc' (String a pre) "lea"), prefix_app, H; [done|].
    rewrite app_length'. simpl. lia. }
  rewrite no_earlier_match_cons, E. apply IH.
  rewrite app_cons in H. simpl in H. by apply orb_false_iff in H as [_ H].
Qed.








(** C10: the LEAD_UPDATE block looks for the word lead in lower case only,
    whereas the lead_id search of the VISIT_SCHEDULE block ignores case.  So
    a transcript that opens neither the LEAD_CREATE nor the VISIT_SCHEDULE
    gate and in which lead never occurs in lower case (it is written Lead,
    say) gets no lead_id and the result is UNKNOWN. *)
Theorem update_lead_case_sensitive {datetime : Type}
    (dateparser_parse : datetime -> string -> option datetime)
    (isoformat : datetime -> string) (now : datetime) (transcript : string) :
  let text := Py.strip transcript in
  Py.contains "lead" text = false ->
  lead_create_gate (Py.lower text) = false ->
  visit_schedule_gate (Py.lower text) = false ->
  (lead_update_entities text !! "lead_id" = None /\
   parse_transcript dateparser_parse isoformat now transcript
     = mkResult UNKNOWN ∅) /\
  (let t := "Schedule visit for Lead abc-123 at 3 PM" in
   Py.contains "lead" t = false /\
   lead_id_loop Pat.lead_patterns t ∅ !! "lead_id" = Some "abc-123").
Proof.
  intros text Hlead Hcreate Hvisit. subst text.
  split; [|by vm_compute].
  assert (Hid : lead_update_entities (Py.strip transcript) !! "lead_id" = None).
  { by rewrite lead_update_lead_id, search_update_lead_none. }
  split; [exact Hid|].
  destruct (parse_transcript_cases dateparser_parse isoformat now transcript)
    as [[Hc _]|[(_ & Hv & _)|[(_ & _ & Hu & _)|(_ & _ & _ & E)]]].
  - unfold create_succeeds in Hc. by rewrite Hcreate in Hc.
  - rewrite visit_succeeds_eq, Hvisit in Hv. done.
  - unfold update_succeeds, issubset, has_key in Hu. simpl forallb in Hu.
    rewrite Hid in Hu.
    rewrite (bool_decide_eq_false_2 (is_Some None)) in Hu by (by intros [? [=]]).
    by rewrite andb_false_r in Hu.
  - exact E.
Qed.

Lemma update_lead_case_sensitive_witness :
  let t := "Update Lead abc-123 status WON" in
  Py.contains "lead" (Py.strip t) = false /\
  lead_update_gate (Py.lower (Py.strip t)) = true /\
  Clock.run day1 t = mkResult UNKNOWN ∅.
Proof.
  split; [reflexivity|]. split; [reflexivity|].
  refine (proj2 (proj1 (update_lead_case_sensitive Clock.parse Clock.isoformat
            day1 "Update Lead abc-123 status WON" _ _ _))); reflexivity.
Defined.

(** ** The groups that the program reads are always set *)

(** A group that every match of the pattern goes through is never [None]
    in a match: reading its text cannot fail. *)
Lemma group_read_defined (ic : bool) (n : nat) (p : regex) (s : string) (m : caps) :
  sets n p = true -> search ic p s = Some m ->
  group m n = Some (group_text m n).
Proof.
  intros Hs Hm. destruct (search_sets ic p n s m Hs Hm) as [g Hg].
  unfold group_text, group. by rewrite Hg.
Qed.

(** This is so for [group(1)] of each pattern whose group 1 is read as a
    string, and for both groups of the day and time pattern. *)
Lemma groups_read_are_set :
  forallb (sets 1)
    ([Pat.name; Pat.city; Pat.source; Pat.update_lead; Pat.status;
      Pat.update_notes]
     ++ Pat.lead_patterns ++ Pat.time_patterns ++ Pat.visit_notes_patterns)
  = true /\
  forallb (fun p => implb (1 <? ngroups p) (sets 2 p)) Pat.time_patterns = true.
Proof. by vm_compute. Qed.

(** * Further properties of the code *)

(** ** [parse_transcript]: the shape of a result *)

Lemma lead_create_other (text key : string) :
  ~ In key ["name"; "phone"; "city"; "source"] ->
  lead_create_entities text !! key = None.
Proof.
  intros Hk. unfold lead_create_entities.
  assert (key <> "name" /\ key <> "phone" /\ key <> "city" /\ key <> "source")
    as (?&?&?&?) by (repeat split; intros ->; apply Hk; simpl; tauto).
  destruct (search false Pat.name text), (search false Pat.phone text),
    (search false Pat.city text), (search true Pat.source text);
    repeat case_match; by simplify_map_eq.
Qed.

Lemma lead_update_other (text key : string) :
  ~ In key ["lead_id"; "status"; "notes"] ->
  lead_update_entities text !! key = None.
Proof.
  intros Hk. unfold lead_update_entities.
  assert (key <> "lead_id" /\ key <> "status" /\ key <> "notes")
    as (?&?&?) by (repeat split; intros ->; apply Hk; simpl; tauto).
  destruct (search false Pat.update_lead text), (search true Pat.status text),
    (search true Pat.update_notes text);
    repeat case_match; by simplify_map_eq.
Qed.

(** X1: a result holds no entity outside the schema of its intent (name,
    phone, city, source for LEAD_CREATE; lead_id, visit_time, notes for
    VISIT_SCHEDULE; lead_id, status, notes for LEAD_UPDATE), and an UNKNOWN
    result holds none: what an earlier block extracted before it gave up is
    never part of the result. *)
Theorem entities_within_schema {datetime : Type}
    (dateparser_parse : datetime -> string -> option datetime)
    (isoformat : datetime -> string) (now : datetime) (transcript : string) :
  let r := parse_transcript dateparser_parse isoformat now transcript in
  (forall key, is_Some (entities r !! key) -> In key (allowed (intent r))) /\
  (intent r = UNKNOWN -> entities r = ∅).
Proof.
  intros r. subst r.
  destruct (parse_transcript_cases dateparser_parse isoformat now transcript)
    as [[_ E]|[(_ & _ & E)|[(_ & _ & _ & E)|(_ & _ & _ & E)]]];
    rewrite E; cbn [intent entities allowed]; (split; [|done]); intros key Hk.
  - destruct (decide (In key ["name"; "phone"; "city"; "source"])) as [|Hn];
      [done|]. rewrite lead_create_other in Hk by done. by destruct Hk.
  - rewrite visit_entities_lookup in Hk.
    repeat case_decide; subst; simpl; try tauto. by destruct Hk.
  - destruct (decide (In key ["lead_id"; "status"; "notes"])) as [|Hn];
      [done|]. rewrite lead_update_other in Hk by done. by destruct Hk.
  - rewrite lookup_empty in Hk. by destruct Hk.
Qed.

Lemma existsb_contains (lowered : string) (ws : list string) :
  existsb (fun w => Py.contains w lowered) ws = true ->
  exists w, In w ws /\ Py.contains w lowered = true.
Proof. intros H. apply existsb_exists in H. exact H. Qed.

(** X2: an intent is never returned without its trigger words: LEAD_CREATE
    needs lead and one of add, create, register, new in the lower-cased
    text; VISIT_SCHEDULE one of visit, appointment, meeting, schedule;
    LEAD_UPDATE one of update, mark, status. *)
Theorem intent_needs_keyword {datetime : Type}
    (dateparser_parse : datetime -> string -> option datetime)
    (isoformat : datetime -> string) (now : datetime) (transcript : string) :
  let r := parse_transcript dateparser_parse isoformat now transcript in
  let lowered := Py.lower (Py.strip transcript) in
  (intent r = LEAD_CREATE ->
   Py.contains "lead" lowered = true /\
   exists w, In w ["add"; "create"; "register"; "new"] /\
             Py.contains w lowered = true) /\
  (intent r = VISIT_SCHEDULE ->
   exists w, In w ["visit"; "appointment"; "meeting"; "schedule"] /\
             Py.contains w lowered = true) /\
  (intent r = LEAD_UPDATE ->
   exists w, In w ["update"; "mark"; "status"] /\ Py.contains w lowered = true).
Proof.
  intros r lowered. subst r lowered.
  destruct (parse_transcript_cases dateparser_parse isoformat now transcript)
    as [[Hc E]|[(_ & Hv & E)|[(_ & _ & Hu & E)|(_ & _ & _ & E)]]];
    rewrite E; cbn [intent]; split_and!; try discriminate; intros _.
  - unfold create_succeeds, lead_create_gate in Hc.
    apply andb_true_iff in Hc as [[H1 H2]%andb_true_iff _].
    split; [done | by apply existsb_contains].
  - rewrite visit_succeeds_eq in Hv.
    apply andb_true_iff in Hv as [[H1 _]%andb_true_iff _].
    by apply existsb_contains.
  - unfold update_succeeds, lead_update_gate in Hu.
    apply andb_true_iff in Hu as [H1 _].
    apply orb_true_iff in H1 as [[H1|H1]%orb_true_iff|H1];
      eexists; (split; [|exact H1]); simpl; tauto.
Qed.

(** ** [parse_transcript]: surrounding whitespace *)

Lemma lstrip_all_space (w : string) : sall Py.isspace w = true -> Py.lstrip w = "".
Proof.
  induction w as [|a w IH]; [done|]. simpl.
  intros [Ha Hw]%andb_true_iff. rewrite Ha. by apply IH.
Qed.

Lemma rstrip_all_space (w : string) : sall Py.isspace w = true -> Py.rstrip w = "".
Proof.
  induction w as [|a w IH]; [done|]. simpl.
  intros [Ha Hw]%andb_true_iff. by rewrite (IH Hw), Ha.
Qed.

Lemma lstrip_space_app (w s : string) :
  sall Py.isspace w = true -> Py.lstrip (w +:+ s) = Py.lstrip s.
Proof.
  induction w as [|a w IH]; [done|]. rewrite app_cons. simpl.
  intros [Ha Hw]%andb_true_iff. rewrite Ha. by apply IH.
Qed.

Lemma rstrip_app_space (s w : string) :
  sall Py.isspace w = true -> Py.rstrip (s +:+ w) = Py.rstrip s.
Proof.
  intros Hw. induction s as [|a s IH].
  - rewrite app_nil_l. by apply rstrip_all_space.
  - rewrite app_cons. simpl. by rewrite IH.
Qed.

Lemma lstrip_app (s w : string) :
  Py.lstrip (s +:+ w) =
  match Py.lstrip s with
  | EmptyString => Py.lstrip w
  | u => u +:+ w
  end.
Proof.
  induction s as [|a s IH]; [done|]. rewrite app_cons. simpl.
  destruct (Py.isspace a); [exact IH | done].
Qed.

Lemma strip_surrounded (w1 t w2 : string) :
  sall Py.isspace w1 = true -> sall Py.isspace w2 = true ->
  Py.strip (w1 +:+ t +:+ w2) = Py.strip t.
Proof.
  intros H1 H2. unfold Py.strip.
  rewrite (lstrip_space_app w1 _ H1), lstrip_app.
  destruct (Py.lstrip t) as [|a u] eqn:E.
  - by rewrite (lstrip_all_space w2 H2).
  - by rewrite rstrip_app_space.
Qed.

(** X3: whitespace before and after the transcript does not change the
    result. *)
Theorem surrounding_whitespace_ignored {datetime : Type}
    (dateparser_parse : datetime -> string -> option datetime)
    (isoformat : datetime -> string) (now : datetime)
    (before transcript after : string) :
  sall Py.isspace before = true -> sall Py.isspace after = true ->
  parse_transcript dateparser_parse isoformat now
    (before +:+ transcript +:+ after) =
  parse_transcript dateparser_parse isoformat now transcript.
Proof.
  intros H1 H2. unfold parse_transcript.
  by rewrite (strip_surrounded before transcript after H1 H2).
Qed.

Lemma surrounding_whitespace_ignored_witness :
  Clock.run day1
    ("  " +:+ "Mark lead abc-123-def-456 status IN PROGRESS" +:+ " ") =
  Clock.run day1 "Mark lead abc-123-def-456 status IN PROGRESS".
Proof.
  apply (surrounding_whitespace_ignored Clock.parse Clock.isoformat day1
           "  " "Mark lead abc-123-def-456 status IN PROGRESS" " ");
    reflexivity.
Defined.

(** ** More static facts about matches *)

Lemma ends_app (p : ascii -> bool) (m1 m2 : string) :
  ends p m2 -> ends p (m1 +:+ m2).
Proof.
  intros (m' & a & -> & Ha). exists (m1 +:+ m'), a. by rewrite app_assoc'.
Qed.

Lemma last_in_both (p : ascii -> bool) (ic : bool) (r : regex) (m : string) :
  matches ic r m ->
  (last_in p ic r = true -> ends p m) /\
  (forall lo hi r', r = Rep lo hi r' -> last_in p ic r' = true ->
                    m = "" \/ ends p m).
Proof.
  induction 1 as [|neg items a Ha|a Ha| |r1 r2 m1 m2 H1 IH1 H2 IH2
                  |r1 r2 m H IH|r1 r2 m H IH|hi r
                  |lo hi r m1 m2 Hhi H1 IH1 H2 IH2|n r m H IH];
    simpl; (split; [intros Hf | intros lo' hi' r' Heq Hf]); try done.
  - exists "", a. split; [done|]. eapply char_sub_spec; eauto.
  - exists "", a. split; [done|]. apply (char_sub_spec _ _ a Hf). by rewrite Ha.
  - apply ends_app. by apply IH2.
  - apply andb_true_iff in Hf as [Hf _]. by apply IH.
  - apply andb_true_iff in Hf as [_ Hf]. by apply IH.
  - by left.
  - apply andb_true_iff in Hf as [_ Hf].
    destruct (proj2 IH2 _ _ _ eq_refl Hf) as [->|He].
    + rewrite app_empty_r. by apply IH1.
    + by apply ends_app.
  - injection Heq as -> -> ->. right.
    destruct (proj2 IH2 _ _ _ eq_refl Hf) as [->|He].
    + rewrite app_empty_r. by apply IH1.
    + by apply ends_app.
  - by apply IH.
Qed.

Lemma last_in_spec (p : ascii -> bool) (ic : bool) (r : regex) (m : string) :
  matches ic r m -> last_in p ic r = true -> ends p m.
Proof. intros H. apply (last_in_both p ic r m H). Qed.

Lemma rstrip_ends (m : string) : ends nonspace m -> Py.rstrip m = m.
Proof.
  intros (m' & a & -> & Ha). unfold nonspace in Ha. apply negb_true_iff in Ha.
  induction m' as [|b m' IH].
  - rewrite app_nil_l. simpl. by rewrite Ha.
  - rewrite app_cons. simpl. rewrite IH.
    destruct m'; [rewrite app_nil_l | rewrite app_cons]; done.
Qed.

(** Stripping a text that starts and ends with other characters than
    whitespace changes nothing. *)
Lemma strip_solid (a : ascii) (m : string) :
  Py.isspace a = false -> ends nonspace (String a m) ->
  Py.strip (String a m) = String a m.
Proof.
  intros Ha He. unfold Py.strip. simpl Py.lstrip. rewrite Ha.
  by apply rstrip_ends.
Qed.

Lemma scount_sall (p : ascii -> bool) (s : string) :
  sall p s = true -> scount p s = String.length s.
Proof.
  induction s as [|a s IH]; [done|]. simpl.
  intros [Ha Hs]%andb_true_iff. by rewrite Ha, IH.
Qed.

Lemma scount_le_length (p : ascii -> bool) (s : string) :
  scount p s <= String.length s.
Proof. induction s as [|a s IH]; simpl; [done|]. destruct (p a); lia. Qed.

(** The text of group [n] in a match found by [search], when every match
    goes through the group. *)
Lemma search_group_matches (ic : bool) (n : nat) (p : regex)
    (P : string -> Prop) (s : string) (m : caps) :
  n <> 0 -> sets n p = true ->
  (forall k r' g, In (k, r') (subgroups p) -> k = n -> matches ic r' g -> P g) ->
  search ic p s = Some m ->
  exists g, m !! n = Some g /\ P g.
Proof.
  intros Hn Hs HP Hm.
  destruct (search_sets ic p n s m Hs Hm) as [g Hg].
  exists g. split; [done|].
  apply (search_group ic p (fun k g => k = n -> P g) s m) with (n := n);
    try done.
  intros k r' g0 Hin Hg0 Hk. by eapply HP.
Qed.

(** ** [parse_transcript]: the entities of LEAD_CREATE *)

Lemma create_result {datetime : Type}
    (dateparser_parse : datetime -> string -> option datetime)
    (isoformat : datetime -> string) (now : datetime) (transcript : string) :
  let r := parse_transcript dateparser_parse isoformat now transcript in
  intent r = LEAD_CREATE ->
  entities r = lead_create_entities (Py.strip transcript) /\
  create_succeeds (Py.strip transcript) = true.
Proof.
  intros r Hi. subst r.
  destruct (parse_transcript_cases dateparser_parse isoformat now transcript)
    as [[Hc E]|[(_ & _ & E)|[(_ & _ & _ & E)|(_ & _ & _ & E)]]];
    rewrite E in *; by simpl in *.
Qed.

Lemma create_succeeds_keys (text : string) :
  create_succeeds text = true ->
  is_Some (search false Pat.name text) /\
  is_Some (search false Pat.phone text) /\
  is_Some (search false Pat.city text).
Proof.
  intros [_ Hc]%andb_true_iff. unfold issubset in Hc. simpl in Hc.
  rewrite andb_true_r in Hc.
  apply andb_true_iff in Hc as [Hn [Hp Hcity]%andb_true_iff].
  apply has_key_spec in Hn, Hp, Hcity.
  rewrite lead_create_name in Hn. rewrite lead_create_phone in Hp.
  rewrite lead_create_city in Hcity.
  by rewrite !fmap_is_Some in *.
Qed.

Lemma alpha_cls (a : ascii) :
  cls_mem false false [CRng "A" "Z"; CRng "a" "z"] a = alpha_char a.
Proof.
  unfold cls_mem, item_mem, alpha_char. simpl. by rewrite !orb_false_r.
Qed.

(** X4: in a LEAD_CREATE result of an ASCII transcript the name is exactly
    two capitalized words, an upper-case letter followed by lower-case
    letters, twice, with whitespace in between, and the city is one word of
    letters. *)
Theorem lead_create_name_city {datetime : Type}
    (dateparser_parse : datetime -> string -> option datetime)
    (isoformat : datetime -> string) (now : datetime) (transcript : string) :
  let r := parse_transcript dateparser_parse isoformat now transcript in
  isascii transcript = true ->
  intent r = LEAD_CREATE ->
  exists name city,
    entities r !! "name" = Some name /\ matches false Pat.two_words name /\
    entities r !! "city" = Some city /\ city <> "" /\
    sall alpha_char city = true.
Proof.
  intros r _ Hi. subst r.
  destruct (create_result dateparser_parse isoformat now transcript Hi)
    as [-> Hc].
  apply create_succeeds_keys in Hc as ([mn Hn] & _ & [mc Hcity]).
  rewrite lead_create_name, lead_create_city, Hn, Hcity.
  cbn [fmap option_fmap option_map].
  assert (HPn : forall k r' g, In (k, r') (subgroups Pat.name) -> k = 1 ->
            matches false r' g -> matches false Pat.two_words g).
  { intros k r' g0 Hin _ Hg0. simpl in Hin.
    destruct Hin as [[= <- <-]|[]]. exact Hg0. }
  assert (HPc : forall k r' g, In (k, r') (subgroups Pat.city) -> k = 1 ->
            matches false r' g -> sall alpha_char g = true /\ g <> "").
  { intros k r' g0 Hin _ Hg0. simpl in Hin.
    destruct Hin as [[= <- <-]|[]]. split.
    - erewrite sall_ext; [|intros a; symmetry; apply alpha_cls].
      by apply (all_in_spec _ false _ _ Hg0).
    - destruct (first_in_spec nonspace false _ _ Hg0) as (a & m' & -> & _); done. }
  destruct (search_group_matches false 1 Pat.name _ _ _
              ltac:(done) ltac:(done) HPn Hn) as (g & Hg & Hm).
  destruct (search_group_matches false 1 Pat.city _ _ _
              ltac:(done) ltac:(done) HPc Hcity) as (c & Hc & Hall & Hne).
  unfold group_text, group. rewrite Hg, Hc. cbn [default from_option id].
  exists g, c.
  assert (Hgs : Py.strip g = g).
  { destruct (first_in_spec nonspace false _ _ Hm) as (a & m' & -> & Ha); [done|].
    apply strip_solid; [by apply negb_true_iff in Ha|].
    by apply (last_in_spec nonspace false _ _ Hm). }
  assert (Hcs : Py.strip c = c).
  { apply strip_nonspace. apply (sall_impl alpha_char); [|done].
    intros a. by apply char_sub_spec. }
  rewrite Hgs, Hcs. done.
Qed.

Lemma lead_create_name_city_witness :
  let r := Clock.run day1 "Create new lead John Smith from Delhi phone 8765432109" in
  exists name city,
    entities r !! "name" = Some name /\ matches false Pat.two_words name /\
    entities r !! "city" = Some city /\ city <> "" /\
    sall alpha_char city = true.
Proof.
  apply (lead_create_name_city Clock.parse Clock.isoformat day1
           "Create new lead John Smith from Delhi phone 8765432109");
    vm_compute; reflexivity.
Defined.

(** ** Inversion of matches *)

Lemma matches_seq_inv (ic : bool) (r1 r2 : regex) (m : string) :
  matches ic (Seq r1 r2) m ->
  exists m1 m2, m = m1 +:+ m2 /\ matches ic r1 m1 /\ matches ic r2 m2.
Proof. inversion 1; subst. eauto. Qed.

Lemma matches_rep_zero (ic : bool) (lo : nat) (r : regex) (m : string) :
  matches ic (Rep lo (Some 0) r) m -> m = "".
Proof. inversion 1; subst; done. Qed.

(** [r?] matches nothing or what [r] matches. *)
Lemma matches_opt_inv (ic : bool) (r : regex) (m : string) :
  matches ic (opt r) m -> m = "" \/ matches ic r m.
Proof.
  unfold opt. inversion 1 as [| | | | | | | |? ? ? m1 m2 _ H1 H2|]; subst.
  - by left.
  - simpl in H2. apply matches_rep_zero in H2 as ->.
    right. by rewrite app_empty_r.
Qed.

(** A repetition of a character class matches a run of its characters, of
    a length within the bounds. *)
Lemma matches_rep_cls (ic neg : bool) (items : list citem) (m : string) :
  forall lo hi,
    matches ic (Rep lo hi (Cls neg items)) m ->
    sall (cls_mem ic neg items) m = true /\ lo <= String.length m /\
    (forall h, hi = Some h -> String.length m <= h).
Proof.
  intros lo hi H. remember (Rep lo hi (Cls neg items)) as r eqn:Er.
  revert lo hi Er.
  induction H as [|neg' items' a Ha|a Ha| |r1 r2 m1 m2 H1 IH1 H2 IH2
                  |r1 r2 m H IH|r1 r2 m H IH|hi' r
                  |lo' hi' r m1 m2 Hhi H1 IH1 H2 IH2|n r m H IH];
    intros lo hi Er; try discriminate.
  - injection Er as <- <- ->. split_and!; simpl; [done|lia|intros; lia].
  - injection Er as <- <- ->.
    inversion H1 as [|? ? a Ha| | | | | | | |]; subst.
    destruct (IH2 _ _ eq_refl) as (Hall & Hlo & Hhi').
    rewrite app_cons, app_nil_l. simpl. rewrite Ha, Hall.
    split_and!; [done|lia|].
    intros h ->. destruct h as [|h]; [done|].
    specialize (Hhi' h eq_refl). lia.
Qed.

Lemma matches_chr_cs (a : ascii) (g : string) :
  matches false (chr a) g -> g = String a "".
Proof.
  unfold chr. inversion 1 as [|? ? b Hb| | | | | | | |]; subst.
  unfold cls_mem, item_mem in Hb. simpl in Hb.
  rewrite !orb_false_r in Hb. by apply Ascii.eqb_eq in Hb as ->.
Qed.

(** A literal matches itself only, when case matters. *)
Lemma matches_lit_cs (l g : string) : matches false (lit l) g -> g = l.
Proof.
  revert g. induction l as [|a l IH]; intros g H.
  - simpl in H. by inversion H.
  - destruct l as [|a' l].
    + by apply matches_chr_cs.
    + rewrite lit_cons in H.
      apply matches_seq_inv in H as (m1 & m2 & -> & H1 & H2).
      apply matches_chr_cs in H1 as ->. by rewrite (IH _ H2).
Qed.

Lemma sfilter_app (p : ascii -> bool) (a b : string) :
  sfilter p (a +:+ b) = sfilter p a +:+ sfilter p b.
Proof.
  induction a as [|x a IH]; [done|]. rewrite app_cons. simpl.
  destruct (p x); [by rewrite app_cons, IH | done].
Qed.

Lemma sfilter_all (p : ascii -> bool) (s : string) :
  sall p s = true -> sfilter p s = s.
Proof.
  induction s as [|a s IH]; [done|]. simpl.
  intros [Ha Hs]%andb_true_iff. by rewrite Ha, IH.
Qed.

Lemma sfilter_none (p q : ascii -> bool) (s : string) :
  (forall a, q a = true -> p a = false) -> sall q s = true -> sfilter p s = "".
Proof.
  intros H. induction s as [|a s IH]; [done|]. simpl.
  intros [Ha Hs]%andb_true_iff. by rewrite (H a Ha), IH.
Qed.

Lemma digit_cls (a : ascii) : cls_mem false false [CDigit] a = Py.isdigit a.
Proof. unfold cls_mem, item_mem. simpl. by rewrite !orb_false_r. Qed.

Lemma sep_no_digit (a : ascii) :
  cls_mem false false [CChr "-"; CSpace] a = true -> Py.isdigit a = false.
Proof.
  intros H.
  apply (char_sub_spec _ (fun a => negb (Py.isdigit a)) a) in H; [|done].
  by apply negb_true_iff in H.
Qed.

(** An optional separator carries no digit. *)
Lemma opt_sep_digits (m : string) :
  matches false (opt Pat.sep) m -> sfilter Py.isdigit m = "".
Proof.
  intros [->|H]%matches_opt_inv; [done|].
  unfold Pat.sep in H. inversion H as [|? ? a Ha| | | | | | | |]; subst.
  simpl. by rewrite (sep_no_digit a Ha).
Qed.

Lemma five_digits (m : string) :
  matches false (times 5 digit) m ->
  sfilter Py.isdigit m = m /\ String.length m = 5.
Proof.
  unfold times, digit. intros H.
  apply matches_rep_cls in H as (Hall & Hlo & Hhi).
  specialize (Hhi 5 eq_refl). split; [|lia].
  apply sfilter_all. erewrite sall_ext; [exact Hall|].
  intros a. symmetry. apply digit_cls.
Qed.

(** The digits of a match of the phone pattern: ten digits, with 91 in
    front when the country code is there. *)
Lemma phone_digits (g : string) :
  matches false Pat.phone g ->
  exists prefix number,
    sfilter Py.isdigit g = prefix +:+ number /\
    (prefix = "" \/ prefix = "91") /\
    sall Py.isdigit number = true /\ String.length number = 10.
Proof.
  unfold Pat.phone. intros H.
  apply matches_seq_inv in H as (p & m1 & -> & Hp & H).
  apply matches_seq_inv in H as (d1 & m2 & -> & Hd1 & H).
  apply matches_seq_inv in H as (s & d2 & -> & Hs & Hd2).
  apply five_digits in Hd1 as [Hd1 Hl1], Hd2 as [Hd2 Hl2].
  apply opt_sep_digits in Hs.
  exists (sfilter Py.isdigit p), (d1 +:+ d2).
  rewrite !sfilter_app, Hd1, Hd2, Hs, app_nil_l.
  split_and!; [done| | |].
  - apply matches_opt_inv in Hp as [->|Hp]; [by left|]. right.
    apply matches_grp_inv, matches_seq_inv in Hp as (c & s' & -> & Hc & Hs').
    apply matches_lit_cs in Hc as ->. apply opt_sep_digits in Hs'.
    by rewrite sfilter_app, Hs'.
  - rewrite sall_app. rewrite <- Hd1, <- Hd2. by rewrite !sall_sfilter.
  - rewrite app_length'. lia.
Qed.

(** X5: in a LEAD_CREATE result of an ASCII transcript the phone is ten
    digits, or twelve digits that begin with the country code 91: the sign,
    the separators and nothing else are removed from the match. *)
Theorem lead_create_phone_length {datetime : Type}
    (dateparser_parse : datetime -> string -> option datetime)
    (isoformat : datetime -> string) (now : datetime) (transcript : string) :
  let r := parse_transcript dateparser_parse isoformat now transcript in
  isascii transcript = true ->
  intent r = LEAD_CREATE ->
  exists prefix number,
    entities r !! "phone" = Some (prefix +:+ number) /\
    (prefix = "" \/ prefix = "91") /\
    sall Py.isdigit number = true /\ String.length number = 10.
Proof.
  intros r _ Hi. subst r.
  destruct (create_result dateparser_parse isoformat now transcript Hi)
    as [-> Hc].
  apply create_succeeds_keys in Hc as (_ & [mp Hp] & _).
  rewrite lead_create_phone, Hp. cbn [fmap option_fmap option_map].
  apply search_sound in Hp as (pre & g & rest & _ & _ & Hg & Hg0).
  unfold group_text, group. rewrite Hg0. cbn [default from_option id].
  rewrite sub_nondigit.
  destruct (phone_digits g Hg) as (prefix & number & -> & H).
  by exists prefix, number.
Qed.

Lemma lead_create_phone_length_witness :
  let r := Clock.run day1
             "add lead Asha Rao from Pune phone +91-98765 43210" in
  intent r = LEAD_CREATE /\ entities r !! "phone" = Some "919876543210" /\
  exists prefix number,
    entities r !! "phone" = Some (prefix +:+ number) /\
    (prefix = "" \/ prefix = "91") /\
    sall Py.isdigit number = true /\ String.length number = 10.
Proof.
  assert (Hi : intent (Clock.run day1
                 "add lead Asha Rao from Pune phone +91-98765 43210")
               = LEAD_CREATE) by (vm_compute; reflexivity).
  assert (Ha : isascii "add lead Asha Rao from Pune phone +91-98765 43210"
               = true) by (vm_compute; reflexivity).
  split; [exact Hi|]. split; [vm_compute; reflexivity|].
  exact (lead_create_phone_length Clock.parse Clock.isoformat day1
           "add lead Asha Rao from Pune phone +91-98765 43210" Ha Hi).
Defined.

(** ** [parse_transcript]: the lead ids *)

Lemma lead_shape_cons (p : regex) (ps : list regex) :
  lead_shape (p :: ps) =
  (sets 1 p &&
   forallb (fun '(k, r') =>
              implb (k =? 1)
                (all_in alnumdash_char true r' &&
                 (3 <=? min_count alnumdash_char true r')))
           (subgroups p))
  && lead_shape ps.
Proof. reflexivity. Qed.

Lemma lead_id_loop_shape (ps : list regex) (text v : string) :
  lead_shape ps = true ->
  lead_id_loop ps text ∅ !! "lead_id" = Some v ->
  3 <= String.length v /\ sall alnumdash_char v = true /\
  ~ In (Py.lower v) stopwords.
Proof.
  intros Hps. induction ps as [|p ps IH]; [done|].
  rewrite lead_shape_cons in Hps. apply andb_true_iff in Hps as [Hp Hps].
  apply andb_true_iff in Hp as [Hs Hg]. rewrite forallb_forall in Hg.
  cbn [lead_id_loop].
  destruct (search true p text) as [m|] eqn:Em; [|by apply IH].
  assert (HP : forall k r' g, In (k, r') (subgroups p) -> k = 1 ->
            matches true r' g ->
            sall alnumdash_char g = true /\ 3 <= String.length g).
  { intros k r' g Hin -> Hm. specialize (Hg _ Hin).
    cbv beta iota in Hg. rewrite Nat.eqb_refl in Hg. cbn [implb] in Hg.
    apply andb_true_iff in Hg as [Hall Hmin]. apply Nat.leb_le in Hmin.
    split; [by apply (all_in_spec _ true _ _ Hm)|].
    pose proof (min_count_spec alnumdash_char true _ _ Hm).
    pose proof (scount_le_length alnumdash_char g). lia. }
  destruct (search_group_matches true 1 p _ _ _ ltac:(done) Hs HP Em)
    as (g & Hg1 & Hall & Hlen).
  unfold group_text, group. rewrite Hg1. cbn [default from_option id].
  assert (Hstrip : Py.strip g = g).
  { apply strip_nonspace. apply (sall_impl alnumdash_char); [|done].
    intros a. by apply char_sub_spec. }
  rewrite Hstrip.
  destruct (mem (Py.lower g) stopwords) eqn:Hstop; cbn [negb];
    [by apply IH|].
  rewrite lookup_insert_eq. intros [= <-]. split_and!; try done.
  intros Hin. apply mem_In in Hin. congruence.
Qed.

Lemma visit_result {datetime : Type}
    (dateparser_parse : datetime -> string -> option datetime)
    (isoformat : datetime -> string) (now : datetime) (transcript : string) :
  let r := parse_transcript dateparser_parse isoformat now transcript in
  intent r = VISIT_SCHEDULE ->
  entities r = visit_entities dateparser_parse isoformat now (Py.strip transcript) /\
  visit_succeeds dateparser_parse isoformat now (Py.strip transcript) = true.
Proof.
  intros r Hi. subst r.
  destruct (parse_transcript_cases dateparser_parse isoformat now transcript)
    as [[Hc E]|[(_ & Hv & E)|[(_ & _ & _ & E)|(_ & _ & _ & E)]]];
    rewrite E in *; by simpl in *.
Qed.

Lemma update_result {datetime : Type}
    (dateparser_parse : datetime -> string -> option datetime)
    (isoformat : datetime -> string) (now : datetime) (transcript : string) :
  let r := parse_transcript dateparser_parse isoformat now transcript in
  intent r = LEAD_UPDATE ->
  entities r = lead_update_entities (Py.strip transcript) /\
  update_succeeds (Py.strip transcript) = true.
Proof.
  intros r Hi. subst r.
  destruct (parse_transcript_cases dateparser_parse isoformat now transcript)
    as [[Hc E]|[(_ & Hv & E)|[(_ & _ & Hu & E)|(_ & _ & _ & E)]]];
    rewrite E in *; by simpl in *.
Qed.

(** X6: in a VISIT_SCHEDULE result of an ASCII transcript lead_id has three
    characters at least, all of them letters, digits or hyphens, and is none
    of the words at, on, for, with, and, or, in any case. *)
Theorem visit_lead_id_shape {datetime : Type}
    (dateparser_parse : datetime -> string -> option datetime)
    (isoformat : datetime -> string) (now : datetime) (transcript : string) :
  let r := parse_transcript dateparser_parse isoformat now transcript in
  isascii transcript = true ->
  intent r = VISIT_SCHEDULE ->
  exists lead_id,
    entities r !! "lead_id" = Some lead_id /\
    3 <= String.length lead_id /\ sall alnumdash_char lead_id = true /\
    ~ In (Py.lower lead_id) ["at"; "on"; "for"; "with"; "and"; "or"].
Proof.
  intros r _ Hi. subst r.
  destruct (visit_result dateparser_parse isoformat now transcript Hi)
    as [-> Hv].
  rewrite visit_succeeds_eq in Hv.
  apply andb_true_iff in Hv as [[_ Hl]%andb_true_iff _].
  apply bool_decide_eq_true in Hl as [v Hl].
  exists v. rewrite visit_entities_lookup.
  repeat case_decide; try done. split; [done|].
  by apply (lead_id_loop_shape Pat.lead_patterns (Py.strip transcript)).
Qed.

Lemma visit_lead_id_shape_witness :
  let r := Clock.run day1 "Schedule visit for lead abc-123 at 3 PM" in
  exists lead_id,
    entities r !! "lead_id" = Some lead_id /\
    3 <= String.length lead_id /\ sall alnumdash_char lead_id = true /\
    ~ In (Py.lower lead_id) ["at"; "on"; "for"; "with"; "and"; "or"].
Proof.
  apply (visit_lead_id_shape Clock.parse Clock.isoformat day1
           "Schedule visit for lead abc-123 at 3 PM");
    vm_compute; reflexivity.
Defined.

(** The lead_id that the LEAD_UPDATE block reads off a match. *)
Lemma update_lead_id_found (text : string) (m : caps) :
  search false Pat.update_lead text = Some m ->
  Py.strip (group_text m 1) <> "" /\
  sall hexdash_char (Py.strip (group_text m 1)) = true.
Proof.
  intros Hm.
  assert (HP : forall k r' g, In (k, r') (subgroups Pat.update_lead) -> k = 1 ->
            matches false r' g -> sall hexdash_char g = true /\ g <> "").
  { intros k r' g Hin _ Hg. simpl in Hin. destruct Hin as [[= <- <-]|[]].
    split.
    - erewrite sall_ext; [|intros a; symmetry; apply hexdash_cls].
      by apply (all_in_spec _ false _ _ Hg).
    - destruct (first_in_spec nonspace false _ _ Hg) as (a & m' & -> & _); done. }
  destruct (search_group_matches false 1 Pat.update_lead _ _ _
              ltac:(done) ltac:(done) HP Hm) as (g & Hg1 & Hall & Hne).
  unfold group_text, group. rewrite Hg1. cbn [default from_option id].
  assert (Hstrip : Py.strip g = g).
  { apply strip_nonspace. apply (sall_impl hexdash_char); [|done].
    intros a Ha. unfold nonspace. by rewrite (hexdash_nonspace a Ha). }
  by rewrite Hstrip.
Qed.

(** X7: in a LEAD_UPDATE result lead_id is a non-empty text of hexadecimal
    digits and hyphens. *)
Theorem update_lead_id_shape {datetime : Type}
    (dateparser_parse : datetime -> string -> option datetime)
    (isoformat : datetime -> string) (now : datetime) (transcript : string) :
  let r := parse_transcript dateparser_parse isoformat now transcript in
  intent r = LEAD_UPDATE ->
  exists lead_id,
    entities r !! "lead_id" = Some lead_id /\
    lead_id <> "" /\ sall hexdash_char lead_id = true.
Proof.
  intros r Hi. subst r.
  destruct (update_result dateparser_parse isoformat now transcript Hi)
    as [-> Hu].
  apply andb_true_iff in Hu as [_ Hu]. unfold issubset in Hu. simpl in Hu.
  apply andb_true_iff in Hu as [Hl _]. apply has_key_spec in Hl.
  rewrite lead_update_lead_id in *. apply fmap_is_Some in Hl as [m Hm].
  rewrite Hm. cbn [fmap option_fmap option_map].
  destruct (update_lead_id_found _ _ Hm) as [Hne Hall]. eauto.
Qed.

Lemma update_lead_id_shape_witness :
  let r := Clock.run day1 "Mark lead abc-123-def-456 status IN PROGRESS" in
  exists lead_id,
    entities r !! "lead_id" = Some lead_id /\
    lead_id <> "" /\ sall hexdash_char lead_id = true.
Proof.
  apply (update_lead_id_shape Clock.parse Clock.isoformat day1
           "Mark lead abc-123-def-456 status IN PROGRESS").
  vm_compute; reflexivity.
Defined.

(** ** [parse_transcript]: notes *)

Lemma scount_contains (c : ascii) (s : string) :
  0 < scount (Ascii.eqb c) s -> Py.contains (String c "") s = true.
Proof.
  induction s as [|a s IH]; simpl; [lia|].
  destruct (ascii_dec c a) as [->|Hne].
  - intros _. by destruct s.
  - apply Ascii.eqb_neq in Hne. rewrite Hne. simpl. intros H. by apply IH.
Qed.

(** A note of the LEAD_UPDATE block needs a colon. *)
Lemma update_notes_colon (text : string) :
  Py.contains ":" text = false -> search true Pat.update_notes text = None.
Proof.
  intros H. destruct (search true Pat.update_notes text) as [m|] eqn:Em; [|done].
  apply search_sound in Em as (pre & g & rest & -> & _ & Hg & _).
  apply (min_count_spec (Ascii.eqb ":") true) in Hg.
  assert (Hc : 0 < scount (Ascii.eqb ":") (pre +:+ g +:+ rest)).
  { rewrite !scount_app.
    change (min_count (Ascii.eqb ":") true Pat.update_notes) with 1 in Hg. lia. }
  apply scount_contains in Hc. congruence.
Qed.

(** X8: the LEAD_UPDATE block takes a note only after note: or notes: with
    the colon: a LEAD_UPDATE result for a transcript without a colon has no
    notes, whatever follows the word notes. *)
Theorem update_notes_need_colon {datetime : Type}
    (dateparser_parse : datetime -> string -> option datetime)
    (isoformat : datetime -> string) (now : datetime) (transcript : string) :
  let r := parse_transcript dateparser_parse isoformat now transcript in
  intent r = LEAD_UPDATE ->
  Py.contains ":" (Py.strip transcript) = false ->
  entities r !! "notes" = None.
Proof.
  intros r Hi Hc. subst r.
  destruct (update_result dateparser_parse isoformat now transcript Hi)
    as [-> _].
  unfold lead_update_entities. rewrite (update_notes_colon _ Hc).
  destruct (search false Pat.update_lead _), (search true Pat.status _);
    repeat case_match; by simplify_map_eq.
Qed.

Lemma update_notes_need_colon_witness :
  let t := "Update lead 7b1b8f54-aaaa-bbbb-cccc-1234567890ab to WON notes booked unit A2" in
  let r := Clock.run day1 t in
  intent r = LEAD_UPDATE /\ entities r !! "notes" = None.
Proof.
  assert (Hi : intent (Clock.run day1
    "Update lead 7b1b8f54-aaaa-bbbb-cccc-1234567890ab to WON notes booked unit A2")
    = LEAD_UPDATE) by (vm_compute; reflexivity).
  split; [exact Hi|].
  apply (update_notes_need_colon Clock.parse Clock.isoformat day1
    "Update lead 7b1b8f54-aaaa-bbbb-cccc-1234567890ab to WON notes booked unit A2"
    Hi).
  vm_compute; reflexivity.
Defined.

(** ** The CRM client *)

Lemma rstrip_chars_all (chars w : string) :
  sall (fun a => char_in a chars) w = true -> rstrip_chars chars w = "".
Proof.
  induction w as [|a w IH]; [done|]. cbn [sall rstrip_chars].
  intros [Ha Hw]%andb_true_iff. by rewrite IH, Ha.
Qed.

Lemma rstrip_chars_app (chars s w : string) :
  sall (fun a => char_in a chars) w = true ->
  rstrip_chars chars (s +:+ w) = rstrip_chars chars s.
Proof.
  intros Hw. induction s as [|a s IH].
  - rewrite app_nil_l. by apply rstrip_chars_all.
  - rewrite app_cons. cbn [rstrip_chars]. by rewrite IH.
Qed.

Lemma rstrip_chars_end (chars s : string) :
  rstrip_chars chars s = "" \/
  exists t a, rstrip_chars chars s = t +:+ String a "" /\ char_in a chars = false.
Proof.
  induction s as [|a s IH]; [by left|]. cbn [rstrip_chars].
  destruct IH as [->|(t & b & -> & Hb)].
  - destruct (char_in a chars) eqn:Ha; [by left|].
    right. exists "", a. by rewrite app_nil_l.
  - right. exists (String a t), b. split; [|done].
    rewrite app_cons. by destruct (t +:+ String b "") eqn:E;
      [destruct t; rewrite ?app_nil_l, ?app_cons in E|].
Qed.

(** X9: slashes at the end of CRM_BASE_URL make no difference: the three
    client functions send the same request, and the path is joined to a base
    that does not end in a slash. *)
Theorem crm_url_ignores_trailing_slashes (base slashes : string)
    (post : Crm.Request -> Crm.Reply) :
  sall (Ascii.eqb "/") slashes = true ->
  (forall name phone city source,
     Crm.create_lead (base +:+ slashes) post name phone city source
     = Crm.create_lead base post name phone city source) /\
  (forall lead_id visit_time notes,
     Crm.schedule_visit (base +:+ slashes) post lead_id visit_time notes
     = Crm.schedule_visit base post lead_id visit_time notes) /\
  (forall lead_id status notes,
     Crm.update_lead_status (base +:+ slashes) post lead_id status notes
     = Crm.update_lead_status base post lead_id status notes) /\
  (forall t, rstrip_chars "/" (base +:+ slashes) <> t +:+ "/").
Proof.
  intros Hs.
  assert (E : rstrip_chars "/" (base +:+ slashes) = rstrip_chars "/" base).
  { apply rstrip_chars_app. erewrite sall_ext; [exact Hs|].
    intros a. cbn [char_in]. rewrite orb_false_r. apply Ascii.eqb_sym. }
  split_and!.
  - intros. unfold Crm.create_lead. by rewrite E.
  - intros. unfold Crm.schedule_visit. by rewrite E.
  - intros. unfold Crm.update_lead_status. by rewrite E.
  - intros t Ht.
    destruct (rstrip_chars_end "/" (base +:+ slashes)) as [E'|(t' & a & E' & Ha)];
      rewrite E' in Ht.
    + by destruct t.
    + assert (String a "" = "/") as [= ->]; [|done].
      clear -Ht. revert t Ht. induction t' as [|b t' IH]; intros [|c t] Ht;
        rewrite ?app_nil_l, ?app_cons in Ht.
      * done.
      * injection Ht as _ Ht. by destruct t.
      * injection Ht as _ Ht. by destruct t'.
      * injection Ht as _ Ht. by apply (IH t).
Qed.

Lemma crm_url_ignores_trailing_slashes_witness :
  let post := fun _ : Crm.Request => Crm.Raises "connection refused" in
  (Crm.create_lead "http://localhost:8001//" post "John Smith" "9876543210"
     "Delhi" None).1
  = [Crm.mkRequest "http://localhost:8001/crm/leads"
       (<["city" := "Delhi"]> (<["phone" := "9876543210"]>
          (<["name" := "John Smith"]> ∅))) 3].
Proof.
  intros post.
  pose proof (crm_url_ignores_trailing_slashes "http://localhost:8001" "//"
                post eq_refl) as (H & _).
  change ("http://localhost:8001//") with ("http://localhost:8001" +:+ "//").
  rewrite H. reflexivity.
Defined.

(** ** The AI layer *)

Section Best.

Variable K : Type.
Variable zero : K.
Variable gt : K -> K -> bool.

(** [gt] is a strict weak order, as [>] is on numbers. *)
Hypothesis gt_asym : forall a b, gt a b = true -> gt b a = false.
Hypothesis gt_cotrans : forall a b c,
  gt a b = true -> gt a c = true \/ gt c b = true.

Lemma gt_le_trans (a b c : K) :
  gt a b = true -> gt c b = false -> gt a c = true.
Proof.
  intros Hab Hcb. destruct (gt_cotrans a b c Hab) as [H|H]; congruence.
Qed.

Lemma le_gt_trans (a b c : K) :
  gt a b = false -> gt c b = true -> gt a c = false.
Proof.
  intros Hab Hcb. destruct (gt a c) eqn:Hac; [|done].
  destruct (gt_cotrans a c b Hac) as [H|H]; [congruence|].
  apply gt_asym in H. congruence.
Qed.

(** [max_from] keeps the first of the greatest elements. *)
Lemma max_from_spec (rs before mid : list (Ai.Request K)) (best : Ai.Request K) :
  (forall r, In r before -> gt (Ai.key zero best) (Ai.key zero r) = true) ->
  (forall r, In r mid -> gt (Ai.key zero r) (Ai.key zero best) = false) ->
  exists before' after,
    before ++ best :: mid ++ rs = before' ++ Ai.max_from zero gt best rs :: after /\
    (forall r, In r before' ->
       gt (Ai.key zero (Ai.max_from zero gt best rs)) (Ai.key zero r) = true) /\
    (forall r, In r after ->
       gt (Ai.key zero r) (Ai.key zero (Ai.max_from zero gt best rs)) = false).
Proof.
  revert before mid best.
  induction rs as [|r rs IH]; intros before mid best Hb Hm.
  - exists before, mid. rewrite app_nil_r. by split_and!.
  - cbn [Ai.max_from]. destruct (gt (Ai.key zero r) (Ai.key zero best)) eqn:Hr.
    + destruct (IH (before ++ best :: mid) [] r) as (b' & a' & E & Hb' & Ha').
      { intros x [Hx|[<-|Hx]]%in_app_iff; [|done|].
        - destruct (gt_cotrans _ _ (Ai.key zero x) Hr) as [H|H]; [done|].
          apply gt_asym in H. rewrite (Hb x Hx) in H. done.
        - by apply (gt_le_trans _ _ _ Hr), Hm. }
      { by intros x []. }
      exists b', a'. split_and!; try done.
      rewrite <- E. cbn [app]. by rewrite <- app_assoc.
    + destruct (IH before (mid ++ [r]) best) as (b' & a' & E & Hb' & Ha').
      { done. }
      { intros x [Hx|[<-|[]]]%in_app_iff; [by apply Hm|done]. }
      exists b', a'. split_and!; try done.
      rewrite <- E. by rewrite <- app_assoc.
Qed.

(** X10: of several requests in one answer of the model, those whose intent
    is UNKNOWN are dropped; when none is left the result is UNKNOWN without
    entities; otherwise the result is read from the first of the requests
    with the greatest confidence (0 when it has none), and total_requests
    counts all requests. *)
Theorem multiple_requests_best (half : K) (requests : list (Ai.Request K)) :
  let valid := List.filter Ai.not_unknown requests in
  let p := Ai.handle_multiple_requests zero half gt requests in
  (valid = [] ->
     Ai.intent p = "UNKNOWN" /\ Ai.entities p = ∅ /\ Ai.confidence p = None) /\
  (valid <> [] ->
     exists before best after,
       valid = before ++ best :: after /\
       (forall r, In r before ->
          gt (Ai.key zero best) (Ai.key zero r) = true) /\
       (forall r, In r after ->
          gt (Ai.key zero r) (Ai.key zero best) = false) /\
       Ai.intent p = default "UNKNOWN" (Ai.r_intent best) /\
       Ai.entities p = default ∅ (Ai.r_entities best) /\
       Ai.confidence p = Some (default half (Ai.r_confidence best)) /\
       Ai.multiple_requests_detected p = true /\
       Ai.total_requests p = Some (length requests)).
Proof.
  intros valid p. subst p. unfold Ai.handle_multiple_requests.
  fold valid. destruct valid as [|r rs] eqn:E.
  - by split.
  - split; [done|]. intros _.
    destruct (max_from_spec rs [] [] r) as (b' & a' & E' & Hb' & Ha');
      [by intros x []|by intros x []|].
    exists b', (Ai.max_from zero gt r rs), a'. by split_and!.
Qed.

End Best.

Lemma multiple_requests_best_witness :
  let r1 := Ai.mkRequest (Some "LEAD_UPDATE") None (Some 7) None in
  let r2 := Ai.mkRequest (Some "UNKNOWN") None (Some 9) None in
  let r3 := Ai.mkRequest (Some "LEAD_CREATE") None (Some 8) None in
  let r4 := Ai.mkRequest (Some "VISIT_SCHEDULE") None (Some 8) None in
  Ai.intent (Ai.handle_multiple_requests 0 5 (fun a b => b <? a) [r1; r2; r3; r4])
  = "LEAD_CREATE".
Proof.
  intros r1 r2 r3 r4.
  assert (Ha : forall a b : nat, (b <? a) = true -> (a <? b) = false).
  { intros a b H. apply Nat.ltb_lt in H. apply Nat.ltb_ge. lia. }
  assert (Hc : forall a b c : nat,
             (b <? a) = true -> (c <? a) = true \/ (b <? c) = true).
  { intros a b c H. apply Nat.ltb_lt in H.
    destruct (c <? a) eqn:E; [by left|]. right.
    apply Nat.ltb_ge in E. apply Nat.ltb_lt. lia. }
  destruct (multiple_requests_best nat 0 (fun a b => b <? a) Ha Hc 5
              [r1; r2; r3; r4]) as [_ H].
  destruct H as (before & best & after & E & Hb & Hl & Hi & _); [done|].
  rewrite Hi. clear Hi.
  change (List.filter Ai.not_unknown [r1; r2; r3; r4]) with [r1; r3; r4] in E.
  destruct before as [|x [|y [|z before]]]; simpl in E.
  - injection E as <- <-.
    specialize (Hl r3 ltac:(simpl; auto)). discriminate.
  - by injection E as <- <- <-.
  - injection E as <- <- <- <-.
    specialize (Hb r3 ltac:(simpl; auto)). discriminate.
  - injection E as _ _ _ E. by destruct before.
Defined.

Lemma fallback_fields {K : Type} (rule_based : string -> ParseResult)
    (transcript : string) :
  Ai.fallback_to_rule_based (K := K) rule_based transcript
  = Ai.mkParsed (intent_name (intent (rule_based transcript)))
      (entities (rule_based transcript)) None None false
      (Some "AI NLU unavailable or failed") false None None.
Proof. unfold Ai.fallback_to_rule_based. by destruct (rule_based transcript). Qed.



(** ** The mock CRM *)

Section MockCrm.

Context {datetime : Type}.
Implicit Types (s : Mock.Storage datetime) (cs : list (Mock.Call datetime)).

Lemma run_app cs1 cs2 s : Mock.run (cs1 ++ cs2) s = Mock.run cs2 (Mock.run cs1 s).
Proof. revert s. induction cs1 as [|c cs1 IH]; intros s; [done|]. simpl. apply IH. Qed.

Lemma visit_ok_mono (leads leads' : gmap string (gmap string (Mock.value datetime)))
    visit_id visit :
  (forall lead_id, is_Some (leads !! lead_id) -> is_Some (leads' !! lead_id)) ->
  visit_ok leads visit_id visit -> visit_ok leads' visit_id visit.
Proof.
  intros Hsub (H1 & H2 & lead_id & H3 & H4).
  split_and!; try done. exists lead_id. split; [done|]. by apply Hsub.
Qed.

Lemma insert_is_Some (leads : gmap string (gmap string (Mock.value datetime)))
    (i j : string) lead :
  is_Some (leads !! j) -> is_Some (<[i := lead]> leads !! j).
Proof.
  intros H. destruct (decide (i = j)) as [->|Hne].
  - rewrite lookup_insert_eq. eauto.
  - by rewrite lookup_insert_ne.
Qed.

Lemma call_consistent (c : Mock.Call datetime) s :
  consistent s -> consistent (Mock.call c s).1.
Proof.
  intros [Hl Hv]. destruct c as [uuid4 payload|uuid4 payload|lead_id payload];
    cbn [Mock.call].
  - unfold Mock.create_lead. cbn [fst]. split; cbn [Mock.LEADS Mock.VISITS].
    + apply map_Forall_insert_2; [|done]. unfold lead_ok, Mock.lead_dict.
      split_and!; simplify_map_eq; eauto.
    + eapply map_Forall_impl; [exact Hv|]. intros visit_id visit.
      apply visit_ok_mono. intros j. apply insert_is_Some.
  - unfold Mock.create_visit.
    destruct (Mock.LEADS s !! Mock.vc_lead_id payload) as [lead|] eqn:E;
      [|done].
    cbn [fst]. split; cbn [Mock.LEADS Mock.VISITS]; [done|].
    apply map_Forall_insert_2; [|done]. unfold visit_ok, Mock.visit_dict.
    split_and!; simplify_map_eq; eauto.
  - unfold Mock.update_lead_status.
    destruct (Mock.LEADS s !! lead_id) as [lead|] eqn:E; [|done].
    cbn [fst]. split; cbn [Mock.LEADS Mock.VISITS].
    + apply map_Forall_insert_2; [|done].
      destruct (Hl _ _ E) as (H1 & H2 & H3 & H4 & H5).
      unfold lead_ok.
      destruct (Mock.su_notes payload) as [notes|]; [destruct (Py.truthy notes)|];
        split_and!; simplify_map_eq; eauto.
    + eapply map_Forall_impl; [exact Hv|]. intros visit_id visit.
      apply visit_ok_mono. intros j. apply insert_is_Some.
Qed.

Lemma run_consistent cs s : consistent s -> consistent (Mock.run cs s).
Proof.
  revert s. induction cs as [|c cs IH]; intros s Hs; [done|].
  simpl. by apply IH, call_consistent.
Qed.

(** X12: whatever requests the mock CRM has served since it started, every
    stored lead carries its own identifier, a status, a name, a phone and a
    city, and every stored visit carries its own identifier, the status
    SCHEDULED and the identifier of a lead that is in the storage. *)
Theorem mock_storage_consistent cs : consistent (Mock.run cs fresh).
Proof. apply run_consistent. by split; apply map_Forall_empty. Qed.

Lemma call_leads (c : Mock.Call datetime) s (lead_id : string) :
  is_Some (Mock.LEADS (Mock.call c s).1 !! lead_id) <->
  In lead_id (Mock.lead_ids [c]) \/ is_Some (Mock.LEADS s !! lead_id).
Proof.
  destruct c as [uuid4 payload|uuid4 payload|lead_id' payload];
    cbn [Mock.call Mock.lead_ids In].
  - unfold Mock.create_lead. cbn [fst Mock.LEADS].
    destruct (decide (uuid4 = lead_id)) as [->|Hne].
    + rewrite lookup_insert_eq. split; [auto|eauto].
    + rewrite lookup_insert_ne by done. tauto.
  - unfold Mock.create_visit.
    destruct (Mock.LEADS s !! Mock.vc_lead_id payload); cbn [fst Mock.LEADS].
    all: tauto.
  - unfold Mock.update_lead_status.
    destruct (Mock.LEADS s !! lead_id') as [lead|] eqn:E;
      [|cbn [fst]; tauto].
    cbn [fst Mock.LEADS].
    destruct (decide (lead_id' = lead_id)) as [->|Hne].
    + rewrite lookup_insert_eq, E. split; eauto.
    + rewrite lookup_insert_ne by done. tauto.
Qed.

Lemma lead_ids_cons (c : Mock.Call datetime) cs (lead_id : string) :
  In lead_id (Mock.lead_ids (c :: cs)) <->
  In lead_id (Mock.lead_ids [c]) \/ In lead_id (Mock.lead_ids cs).
Proof. destruct c; cbn [Mock.lead_ids In]; tauto. Qed.

Lemma run_leads cs s (lead_id : string) :
  is_Some (Mock.LEADS (Mock.run cs s) !! lead_id) <->
  In lead_id (Mock.lead_ids cs) \/ is_Some (Mock.LEADS s !! lead_id).
Proof.
  revert s. induction cs as [|c cs IH]; intros s.
  - cbn [Mock.run Mock.lead_ids In]. tauto.
  - cbn [Mock.run]. rewrite IH, call_leads, (lead_ids_cons c cs). tauto.
Qed.

(** X13: the mock CRM knows exactly the leads it created.  A status update
    or a visit for an identifier that no create_lead request drew is
    answered with 404 'Lead not found' and changes nothing; a status update
    for one that was drawn succeeds, answers with the identifier and the new
    status, and stores the new status. *)
Theorem mock_knows_created_leads cs (lead_id : string)
    (update : Mock.LeadStatusUpdate) (uuid4 : string)
    (visit : Mock.VisitCreate datetime) :
  let s := Mock.run cs fresh in
  Mock.vc_lead_id visit = lead_id ->
  (~ In lead_id (Mock.lead_ids cs) ->
     Mock.update_lead_status lead_id update s
       = (s, Mock.HTTPException 404 "Lead not found") /\
     Mock.create_visit uuid4 visit s
       = (s, Mock.HTTPException 404 "Lead not found")) /\
  (In lead_id (Mock.lead_ids cs) ->
     exists s' lead,
       Mock.update_lead_status lead_id update s
         = (s', Mock.Ok (<["status" := Mock.su_status update]>
                           (<["lead_id" := lead_id]> ∅))) /\
       Mock.LEADS s' !! lead_id = Some lead /\
       lead !! "status" = Some (Mock.Str (Mock.su_status update)) /\
       exists s'',
         Mock.create_visit uuid4 visit s
           = (s'', Mock.Ok (<["status" := "SCHEDULED"]>
                              (<["visit_id" := uuid4]> ∅))) /\
         is_Some (Mock.VISITS s'' !! uuid4)).
Proof.
  intros s Hv. subst s.
  pose proof (run_leads cs fresh lead_id) as Hk.
  cbn [fresh Mock.LEADS] in Hk. rewrite lookup_empty in Hk.
  split.
  - intros Hn.
    assert (E : Mock.LEADS (Mock.run cs fresh) !! lead_id = None).
    { apply eq_None_not_Some. rewrite Hk. intros [?|[? ?]]; done. }
    unfold Mock.update_lead_status, Mock.create_visit. by rewrite Hv, E.
  - intros Hin.
    destruct (proj2 Hk (or_introl Hin)) as [lead E].
    unfold Mock.update_lead_status, Mock.create_visit. rewrite Hv, E.
    eexists _, _. split; [done|]. cbn [Mock.LEADS].
    rewrite lookup_insert_eq. split; [done|]. split.
    + destruct (Mock.su_notes update) as [notes|];
        [destruct (Py.truthy notes)|]; by simplify_map_eq.
    + eexists. split; [done|]. cbn [Mock.VISITS].
      rewrite lookup_insert_eq. eauto.
Qed.

(** The data of a lead outside status and notes stay as they are. *)
Lemma call_keeps_data (c : Mock.Call datetime) s (lead_id key : string) lead
    (v : Mock.value datetime) :
  ~ In lead_id (Mock.lead_ids [c]) ->
  key <> "status" -> key <> "notes" ->
  Mock.LEADS s !! lead_id = Some lead -> lead !! key = Some v ->
  exists lead', Mock.LEADS (Mock.call c s).1 !! lead_id = Some lead' /\
                lead' !! key = Some v.
Proof.
  intros Hn Hk1 Hk2 E Ev.
  destruct c as [uuid4 payload|uuid4 payload|lead_id' payload];
    cbn [Mock.call].
  - unfold Mock.create_lead. cbn [fst Mock.LEADS].
    rewrite lookup_insert_ne; [eauto|]. intros ->. apply Hn. simpl. auto.
  - unfold Mock.create_visit.
    destruct (Mock.LEADS s !! Mock.vc_lead_id payload); simpl; eauto.
  - unfold Mock.update_lead_status.
    destruct (Mock.LEADS s !! lead_id') as [l|] eqn:E'; [|simpl; eauto].
    cbn [fst Mock.LEADS].
    destruct (decide (lead_id' = lead_id)) as [->|Hne].
    + rewrite lookup_insert_eq. eexists. split; [done|].
      assert (l = lead) as -> by congruence.
      destruct (Mock.su_notes payload) as [notes|];
        [destruct (Py.truthy notes)|]; by simplify_map_eq.
    + rewrite lookup_insert_ne by done. eauto.
Qed.

Lemma run_keeps_data cs s (lead_id key : string) lead (v : Mock.value datetime) :
  ~ In lead_id (Mock.lead_ids cs) ->
  key <> "status" -> key <> "notes" ->
  Mock.LEADS s !! lead_id = Some lead -> lead !! key = Some v ->
  exists lead', Mock.LEADS (Mock.run cs s) !! lead_id = Some lead' /\
                lead' !! key = Some v.
Proof.
  revert s lead. induction cs as [|c cs IH]; intros s lead Hn Hk1 Hk2 E Ev;
    [simpl; eauto|].
  rewrite (lead_ids_cons c cs) in Hn. cbn [Mock.run].
  destruct (call_keeps_data c s lead_id key lead v) as (lead' & E' & Ev');
    try done; [tauto|].
  apply (IH _ lead'); try done. tauto.
Qed.

(** X14: what a lead was created with stays: after create_lead, whatever
    requests follow, as long as the identifier is not drawn a second time,
    the stored lead has the name, phone, city and source of the request that
    created it. *)
Theorem mock_lead_data_persist cs1 cs2 (uuid4 : string)
    (payload : Mock.LeadCreate) :
  ~ In uuid4 (Mock.lead_ids cs2) ->
  exists lead,
    Mock.LEADS (Mock.run (cs1 ++ Mock.CreateLead uuid4 payload :: cs2) fresh)
      !! uuid4 = Some lead /\
    lead !! "lead_id" = Some (Mock.Str uuid4) /\
    lead !! "name" = Some (Mock.Str (Mock.lc_name payload)) /\
    lead !! "phone" = Some (Mock.Str (Mock.lc_phone payload)) /\
    lead !! "city" = Some (Mock.Str (Mock.lc_city payload)) /\
    lead !! "source" = Some (Mock.of_optional (Mock.lc_source payload)).
Proof.
  intros Hn. rewrite run_app. cbn [Mock.run Mock.call].
  set (s := Mock.run cs1 fresh).
  set (s1 := (Mock.create_lead uuid4 payload s).1).
  assert (E : exists lead, Mock.LEADS s1 !! uuid4 = Some lead /\
            lead !! "lead_id" = Some (Mock.Str uuid4) /\
            lead !! "name" = Some (Mock.Str (Mock.lc_name payload)) /\
            lead !! "phone" = Some (Mock.Str (Mock.lc_phone payload)) /\
            lead !! "city" = Some (Mock.Str (Mock.lc_city payload)) /\
            lead !! "source" = Some (Mock.of_optional (Mock.lc_source payload))).
  { subst s1. unfold Mock.create_lead. cbn [fst Mock.LEADS].
    rewrite lookup_insert_eq. eexists. split; [done|].
    unfold Mock.lead_dict. split_and!; by simplify_map_eq. }
  destruct E as (lead & E & H1 & H2 & H3 & H4 & H5).
  destruct (run_keeps_data cs2 s1 uuid4 "lead_id" lead _ Hn
              ltac:(done) ltac:(done) E H1) as (l1 & E1 & G1).
  destruct (run_keeps_data cs2 s1 uuid4 "name" lead _ Hn
              ltac:(done) ltac:(done) E H2) as (l2 & E2 & G2).
  destruct (run_keeps_data cs2 s1 uuid4 "phone" lead _ Hn
              ltac:(done) ltac:(done) E H3) as (l3 & E3 & G3).
  destruct (run_keeps_data cs2 s1 uuid4 "city" lead _ Hn
              ltac:(done) ltac:(done) E H4) as (l4 & E4 & G4).
  destruct (run_keeps_data cs2 s1 uuid4 "source" lead _ Hn
              ltac:(done) ltac:(done) E H5) as (l5 & E5 & G5).
  exists l1. rewrite E1 in E2, E3, E4, E5.
  injection E2 as <-. injection E3 as <-. injection E4 as <-.
  injection E5 as <-. by split_and!.
Qed.

End MockCrm.

Lemma mock_knows_created_leads_witness :
  let cs : list (Mock.Call nat) :=
    [Mock.CreateLead "id-1" (Mock.mkLeadCreate "John Smith" "9876543210" "Delhi" None)] in
  Mock.update_lead_status "id-2" (Mock.mkLeadStatusUpdate "WON" None)
    (Mock.run cs fresh)
  = (Mock.run cs fresh, Mock.HTTPException 404 "Lead not found").
Proof.
  intros cs.
  destruct (mock_knows_created_leads (datetime := nat) cs "id-2"
              (Mock.mkLeadStatusUpdate "WON" None) "v-1"
              (Mock.mkVisitCreate "id-2" 0 None) eq_refl) as [H _].
  apply H. simpl. intros [H'|[]]. discriminate.
Defined.

Lemma mock_lead_data_persist_witness :
  let john := Mock.mkLeadCreate "John Smith" "9876543210" "Delhi" None in
  exists lead,
    Mock.LEADS (Mock.run ([] ++ Mock.CreateLead "id-1" john ::
        [Mock.UpdateLeadStatus (datetime := nat) "id-1"
           (Mock.mkLeadStatusUpdate "WON" (Some "closed"))]) fresh)
      !! "id-1" = Some lead /\
    lead !! "lead_id" = Some (Mock.Str "id-1") /\
    lead !! "name" = Some (Mock.Str "John Smith") /\
    lead !! "phone" = Some (Mock.Str "9876543210") /\
    lead !! "city" = Some (Mock.Str "Delhi") /\
    lead !! "source" = Some Mock.Null.
Proof.
  intros john.
  apply (mock_lead_data_persist (datetime := nat) [] _ "id-1" john).
  simpl. tauto.
Defined.

(** ** The bot service *)

Section Handler.

Context {K : Type}.
Variable MAX_TRANSCRIPT_LENGTH : nat.
Variable nlu : string -> Ai.Parsed K + string.
Variable CRM_BASE_URL : string.
Variable post : Crm.Request -> Crm.Reply.
Variable validation_error : gmap string (option string) -> string.

Lemma validated_some (key id message : string) :
  App.validated (<[key := Some id]> (<["message" := Some message]> ∅))
  = Some (<[key := id]> (<["message" := message]> ∅)).
Proof.
  unfold App.validated. rewrite decide_True.
  - by rewrite !omap_insert, omap_empty.
  - apply map_Forall_insert_2; [eauto|].
    apply map_Forall_insert_2; [eauto|]. apply map_Forall_empty.
Qed.

Lemma validated_none (key message : string) :
  App.validated (<[key := None]> (<["message" := Some message]> ∅)) = None.
Proof.
  unfold App.validated. rewrite decide_False; [done|].
  intros H. specialize (H key None). rewrite lookup_insert_eq in H.
  by destruct (H eq_refl).
Qed.

Lemma validated_message (message : string) :
  App.validated (<["message" := Some message]> ∅)
  = Some (<["message" := message]> ∅).
Proof.
  unfold App.validated. rewrite decide_True.
  - by rewrite omap_insert, omap_empty.
  - apply map_Forall_insert_2; [eauto|]. apply map_Forall_empty.
Qed.

Lemma answered_cases (transcript : string) (parsed : Ai.Parsed K)
    (endpoint message key : string) (resp : Crm.Reply) :
  answer_case validation_error transcript parsed endpoint message key resp
    (App.answered validation_error transcript parsed endpoint message key resp).
Proof.
  unfold App.answered. destruct resp as [status_code body text|e].
  - destruct ((200 <=? status_code) && (status_code <? 300)) eqn:Hs.
    + apply andb_true_iff in Hs as [H1%Nat.leb_le H2%Nat.ltb_lt].
      destruct body as [e|data].
      * by eapply A_no_json.
      * unfold App.respond. destruct (data !! key) as [id|] eqn:Hid.
        -- rewrite validated_some. by eapply A_done.
        -- rewrite validated_none. cbn [App.unexpected].
           by eapply A_no_id.
    + eapply A_refused; [done|]. intros [H1 H2].
      apply Nat.leb_le in H1. apply Nat.ltb_lt in H2.
      rewrite H1, H2 in Hs. done.
  - by eapply A_raises.
Qed.

Lemma dispatch_cases (transcript : string) (parsed : Ai.Parsed K) :
  dispatch_case post validation_error transcript parsed
    (App.dispatch CRM_BASE_URL post validation_error transcript parsed).
Proof.
  unfold App.dispatch.
  destruct (String.eqb_spec (Ai.intent parsed) "LEAD_CREATE") as [E1|N1].
  { destruct (_ || _); [apply D_missing|].
    unfold Crm.create_lead, Crm.session_post. apply D_call.
    rewrite E1. simpl. auto. }
  destruct (String.eqb_spec (Ai.intent parsed) "VISIT_SCHEDULE") as [E2|N2].
  { destruct (_ || _); [apply D_missing|].
    unfold Crm.schedule_visit, Crm.session_post. apply D_call.
    rewrite E2. simpl. auto. }
  destruct (String.eqb_spec (Ai.intent parsed) "LEAD_UPDATE") as [E3|N3].
  { destruct (_ || _); [apply D_missing|].
    unfold Crm.update_lead_status, Crm.session_post. apply D_call.
    rewrite E3. simpl. auto. }
  by apply D_unknown.
Qed.

Lemma handle_valid (transcript : string) :
  transcript <> "" -> String.length transcript <= MAX_TRANSCRIPT_LENGTH ->
  App.handle MAX_TRANSCRIPT_LENGTH nlu CRM_BASE_URL post validation_error
    transcript
  = match nlu transcript with
    | inr e =>
        ([], ([App.mkEntry transcript "NLU_ERROR" ∅ None false
                 (Some ("NLU parsing failed: " +:+ e)) None false],
              App.HTTPException 500 "NLU_ERROR" ("NLU parsing failed: " +:+ e)))
    | inl parsed =>
        App.dispatch CRM_BASE_URL post validation_error transcript parsed
    end.
Proof.
  intros Hne Hlen. unfold App.handle.
  apply truthy_nonempty in Hne. rewrite Hne. cbn [negb orb].
  by rewrite (proj2 (Nat.ltb_ge _ _) Hlen).
Qed.

Lemma handle_invalid (transcript : string) :
  transcript = "" \/ MAX_TRANSCRIPT_LENGTH < String.length transcript ->
  App.handle MAX_TRANSCRIPT_LENGTH nlu CRM_BASE_URL post validation_error
    transcript
  = ([], ([App.mkEntry transcript "VALIDATION_ERROR" ∅ None false
             (Some "Transcript missing or too long") None false],
          App.HTTPException 400 "VALIDATION_ERROR"
            "Transcript missing or too long")).
Proof.
  intros H. unfold App.handle.
  destruct H as [->|H]; [done|].
  apply Nat.ltb_lt in H. by rewrite H, orb_true_r.
Qed.

Lemma transcript_valid_dec (transcript : string) :
  (transcript = "" \/ MAX_TRANSCRIPT_LENGTH < String.length transcript) \/
  (transcript <> "" /\ String.length transcript <= MAX_TRANSCRIPT_LENGTH).
Proof.
  destruct (decide (transcript = "")); [by left; left|].
  destruct (le_lt_dec (String.length transcript) MAX_TRANSCRIPT_LENGTH);
    [by right|by left; right].
Qed.

(** X15: the handler returns a response only in two ways.  Either the intent
    is none of LEAD_CREATE, VISIT_SCHEDULE, LEAD_UPDATE: then no request was
    sent to the CRM, crm_call is empty and the result says that the intent
    could not be determined.  Or exactly one request was sent, the CRM
    answered it with a status from 200 to 299 and a JSON object that holds
    the identifier asked for, and the response reports that status and that
    identifier.  In both, the transcript is not empty and not too long, and
    intent and entities are those of the NLU. *)
Theorem success_needs_crm_2xx (transcript : string)
    (sent : list Crm.Request) (entries : list (App.Entry K))
    (response : App.BotResponse K) :
  App.handle MAX_TRANSCRIPT_LENGTH nlu CRM_BASE_URL post validation_error
    transcript = (sent, (entries, App.Returns response)) ->
  transcript <> "" /\ String.length transcript <= MAX_TRANSCRIPT_LENGTH /\
  exists parsed,
    nlu transcript = inl parsed /\
    App.intent response = Ai.intent parsed /\
    App.entities response = Ai.entities parsed /\
    ((~ In (Ai.intent parsed) ["LEAD_CREATE"; "VISIT_SCHEDULE"; "LEAD_UPDATE"] /\
      sent = [] /\ App.crm_call response = None /\
      App.result response
        = Some (<["message" := "Could not determine intent"]> ∅)) \/
     (In (Ai.intent parsed) ["LEAD_CREATE"; "VISIT_SCHEDULE"; "LEAD_UPDATE"] /\
      exists request status_code data text endpoint message key id,
        sent = [request] /\
        post request = Crm.Response status_code (inr data) text /\
        200 <= status_code < 300 /\ data !! key = Some id /\
        App.crm_call response = Some (App.mkCall endpoint "POST" status_code) /\
        App.result response
          = Some (<[key := id]> (<["message" := message]> ∅)))).
Proof.
  intros H.
  destruct (transcript_valid_dec transcript) as [Hbad|[Hne Hlen]];
    [by rewrite handle_invalid in H|].
  split; [done|]. split; [done|].
  rewrite handle_valid in H by done.
  destruct (nlu transcript) as [parsed|e]; [|done].
  exists parsed. split; [done|]. revert H.
  destruct (dispatch_cases transcript parsed)
    as [error_msg|N1 N2 N3|request endpoint message key Hin].
  - intros [= _ _ ?].
  - unfold App.respond. rewrite validated_message.
    intros [= <- <- <-]. cbn [App.intent App.entities App.crm_call App.result].
    split; [done|]. split; [done|]. left.
    split; [|done]. intros [?|[?|[?|[]]]]; congruence.
  - intros [= <- H]. revert H.
    destruct (answered_cases transcript parsed endpoint message key
                (post request))
      as [e He|st body text He Hst|st e text He Hst|st data text id He Hst Hid
         |st data text He Hst Hid].
    + intros [= _ ?].
    + intros [= _ ?].
    + intros [= _ ?].
    + intros [= <- <-]. cbn [App.intent App.entities App.crm_call App.result].
      split; [done|]. split; [done|]. right. split; [done|].
      by exists request, st, data, text, endpoint, message, key, id.
    + intros [= _ ?].
Qed.

(** X16: when the CRM does not accept the request that was sent, the
    handler never returns a response.  A status outside 200..299 gives 500
    CRM_ERROR with the status and the body of the answer in the details; a
    request that raises, or an answer whose body is not JSON, gives 500
    INTERNAL_ERROR with the message of the exception. *)
Theorem crm_failure_is_reported (transcript : string)
    (sent : list Crm.Request) (entries : list (App.Entry K))
    (outcome : App.Outcome K) (request : Crm.Request) :
  App.handle MAX_TRANSCRIPT_LENGTH nlu CRM_BASE_URL post validation_error
    transcript = (sent, (entries, outcome)) ->
  In request sent ->
  match post request with
  | Crm.Raises e =>
      outcome = App.HTTPException 500 "INTERNAL_ERROR" ("Unexpected error: " +:+ e)
  | Crm.Response status_code body text =>
      if (200 <=? status_code) && (status_code <? 300) then
        match body with
        | inl e =>
            outcome = App.HTTPException 500 "INTERNAL_ERROR"
                        ("Unexpected error: " +:+ e)
        | inr _ => True
        end
      else
        outcome = App.HTTPException 500 "CRM_ERROR"
                    ("CRM returned " +:+ pretty status_code +:+ ": " +:+ text)
  end.
Proof.
  intros H Hin.
  pose proof (f_equal fst H) as Hs. cbn [fst] in Hs.
  apply (f_equal snd) in H. cbn [snd] in H.
  apply (f_equal snd) in H. cbn [snd] in H.
  destruct (transcript_valid_dec transcript) as [Hbad|[Hne Hlen]].
  { rewrite handle_invalid in Hs by done. cbn [fst] in Hs. subst sent.
    destruct Hin. }
  rewrite handle_valid in H, Hs by done.
  destruct (nlu transcript) as [parsed|e];
    [|cbn [fst] in Hs; subst sent; destruct Hin].
  revert H Hs.
  destruct (dispatch_cases transcript parsed)
    as [error_msg|N1 N2 N3|request' endpoint message key _];
    cbn [fst snd]; intros H Hs; subst sent; [destruct Hin|destruct Hin|].
  destruct Hin as [->|[]]. revert H.
  unfold App.answered, App.unexpected.
  destruct (post request) as [status_code body text|e].
  - destruct ((200 <=? status_code) && (status_code <? 300)).
    + destruct body as [e|data]; [|done]. cbn [snd]. by intros <-.
    + cbn [snd]. by intros <-.
  - cbn [snd]. by intros <-.
Qed.


End Handler.

Lemma success_needs_crm_2xx_witness :
  match Demo.handle "Add lead John Smith from Delhi phone 9876543210" with
  | (sent, (_, App.Returns response)) =>
      length sent = 1 /\ is_Some (App.crm_call response)
  | _ => False
  end.
Proof.
  destruct (Demo.handle "Add lead John Smith from Delhi phone 9876543210")
    as [sent [entries [response|status type details]]] eqn:E.
  - destruct (success_needs_crm_2xx _ _ _ _ _ _ _ _ _ E)
      as (_ & _ & parsed & Hp & _ & _ & [(Hn & _)|(_ & H)]).
    + injection Hp as <-. exfalso. apply Hn. vm_compute. auto.
    + destruct H as (request & status_code & data & text & endpoint & message
                     & key & id & -> & _ & _ & _ & -> & _).
      split; [reflexivity|eauto].
  - vm_compute in E. discriminate E.
Defined.

Lemma crm_failure_is_reported_witness :
  (Demo.handle "Mark lead abc-123 as WON").2.2
  = App.HTTPException 500 "CRM_ERROR" "CRM returned 404: Lead not found".
Proof.
  destruct (Demo.handle "Mark lead abc-123 as WON")
    as [sent [entries outcome]] eqn:E.
  pose proof E as E'. vm_compute in E'. injection E' as <- _ _.
  eapply crm_failure_is_reported in E; [|left; reflexivity].
  vm_compute in E. exact E.
Defined.


(** ** The bot service over the rule-based parser *)

Lemma create_truthy (text : string) :
  create_succeeds text = true ->
  exists name phone city,
    lead_create_entities text !! "name" = Some name /\ Py.truthy name = true /\
    lead_create_entities text !! "phone" = Some phone /\ Py.truthy phone = true /\
    lead_create_entities text !! "city" = Some city /\ Py.truthy city = true.
Proof.
  intros Hc. destruct (create_succeeds_keys text Hc) as ([mn En] & [mp Ep] & [mc Ec]).
  rewrite lead_create_name, lead_create_phone, lead_create_city, En, Ep, Ec.
  cbn [fmap option_fmap option_map]. eexists _, _, _. split_and!; try done.
  - by apply (search_group_truthy false 1 Pat.name text).
  - apply search_sound in Ep as (pre & g & rest & Htext & Hleft & Hg & Hg0).
    unfold group_text, group. rewrite Hg0. cbn [default from_option id].
    rewrite sub_nondigit. apply truthy_nonempty. intros E.
    apply (f_equal String.length) in E. rewrite length_sfilter in E.
    apply (min_count_spec Py.isdigit) in Hg.
    change (min_count Py.isdigit false Pat.phone) with 10 in Hg.
    simpl in E. lia.
  - by apply (search_group_truthy false 1 Pat.city text).
Qed.

Lemma create_source_truthy (text source : string) :
  lead_create_entities text !! "source" = Some source -> Py.truthy source = true.
Proof.
  rewrite lead_create_source.
  destruct (search true Pat.source text) as [m|]; [|done]. cbv zeta.
  destruct (mem _ KNOWN_SOURCES) eqn:Hm; [|done]. intros [= <-].
  destruct (Py.capitalize (group_text m 1)); [|done].
  vm_compute in Hm. discriminate.
Qed.

Section RuleBased.

Context {datetime : Type}.
Variable dateparser_parse : datetime -> string -> option datetime.
Variable isoformat : datetime -> string.
Hypothesis isoformat_nonempty : forall d, isoformat d <> "".

Lemma visit_truthy (now : datetime) (text : string) :
  visit_succeeds dateparser_parse isoformat now text = true ->
  exists lead_id visit_time,
    visit_entities dateparser_parse isoformat now text !! "lead_id" = Some lead_id /\
    Py.truthy lead_id = true /\
    visit_entities dateparser_parse isoformat now text !! "visit_time"
      = Some visit_time /\
    Py.truthy visit_time = true.
Proof.
  rewrite visit_succeeds_eq.
  intros [[_ Hl]%andb_true_iff Ht]%andb_true_iff.
  apply bool_decide_eq_true in Hl as [v Hl].
  apply bool_decide_eq_true in Ht as [t Ht].
  rewrite !visit_entities_lookup, Ht.
  repeat case_decide; try done.
  eexists _, _. split; [exact Hl|]. split; [|split; [done|]].
  - destruct (lead_id_loop_shape Pat.lead_patterns text v) as (Hlen & _);
      [done|exact Hl|].
    apply truthy_nonempty. intros ->. simpl in Hlen. lia.
  - unfold normalize. destruct (dateparser_parse now t) as [d|]; simpl.
    + apply truthy_nonempty, isoformat_nonempty.
    + by apply (time_patterns_truthy text).
Qed.

End RuleBased.

Lemma update_truthy (text : string) :
  update_succeeds text = true ->
  exists lead_id status,
    lead_update_entities text !! "lead_id" = Some lead_id /\
    Py.truthy lead_id = true /\
    lead_update_entities text !! "status" = Some status /\
    Py.truthy status = true.
Proof.
  intros [_ Hu]%andb_true_iff. unfold issubset in Hu. simpl in Hu.
  rewrite andb_true_r in Hu. apply andb_true_iff in Hu as [Hl Hs].
  apply has_key_spec in Hl, Hs. destruct Hs as [status Hs].
  rewrite lead_update_lead_id in *. apply fmap_is_Some in Hl as [m Hm].
  rewrite Hm. cbn [fmap option_fmap option_map].
  destruct (update_lead_id_found _ _ Hm) as [Hne _].
  eexists _, status. split; [done|]. split; [by apply truthy_nonempty|].
  split; [done|].
  rewrite lead_update_status in Hs.
  destruct (search true Pat.status text) as [m'|]; [|done]. cbv zeta in Hs.
  destruct (mem _ VALID_STATUSES) eqn:Hmem; [|done]. injection Hs as <-.
  destruct (Py.replace " " "_" (Py.upper (group_text m' 1))); [|done].
  vm_compute in Hmem. discriminate.
Qed.

Lemma parse_transcript_off {K : Type} (zero half : K) (gt : K -> K -> bool)
    (client : option (string -> option (Ai.AiResult K)))
    (rule_based : string -> ParseResult) (transcript : string) :
  Ai.parse_transcript zero half gt client false rule_based transcript
  = Ai.mkParsed (intent_name (intent (rule_based transcript)))
      (entities (rule_based transcript)) None None false
      (Some "AI NLU unavailable or failed") false None None.
Proof.
  unfold Ai.parse_transcript. destruct client; apply fallback_fields.
Qed.

(** The payloads that the client builds from the entities. *)
Lemma create_payload (text name phone city : string) :
  lead_create_entities text !! "name" = Some name ->
  lead_create_entities text !! "phone" = Some phone ->
  lead_create_entities text !! "city" = Some city ->
  match lead_create_entities text !! "source" with
  | Some s =>
      if Py.truthy s
      then <["source" := s]>
             (<["city" := city]> (<["phone" := phone]> (<["name" := name]> ∅)))
      else <["city" := city]> (<["phone" := phone]> (<["name" := name]> ∅))
  | None => <["city" := city]> (<["phone" := phone]> (<["name" := name]> ∅))
  end = lead_create_entities text.
Proof.
  intros Hn Hp Hc. apply map_eq. intros k.
  destruct (decide (k = "source")) as [->|Hs].
  { destruct (lead_create_entities text !! "source") as [s|] eqn:E.
    - rewrite (create_source_truthy _ _ E). by rewrite lookup_insert_eq.
    - by simplify_map_eq. }
  assert (E : (<["city" := city]> (<["phone" := phone]>
                 (<["name" := name]> (∅ : gmap string string)))) !! k
              = lead_create_entities text !! k).
  { destruct (decide (k = "city")) as [->|?]; [by simplify_map_eq|].
    destruct (decide (k = "phone")) as [->|?]; [by simplify_map_eq|].
    destruct (decide (k = "name")) as [->|?]; [by simplify_map_eq|].
    rewrite lead_create_other; [by simplify_map_eq|].
    intros [?|[?|[?|[?|[]]]]]; congruence. }
  destruct (lead_create_entities text !! "source") as [s|];
    [destruct (Py.truthy s)|]; by simplify_map_eq.
Qed.

Lemma optional_payload (e payload : gmap string string) (key : string) :
  payload = truthy_items (delete key e) ->
  match e !! key with
  | Some s => if Py.truthy s then <[key := s]> payload else payload
  | None => payload
  end = truthy_items e.
Proof.
  intros ->. apply map_eq. intros k. unfold truthy_items.
  destruct (decide (k = key)) as [->|Hk].
  - destruct (e !! key) as [s|] eqn:E; [destruct (Py.truthy s) eqn:Hs|].
    + by rewrite lookup_insert_eq, lookup_omap, E; cbn; rewrite Hs.
    + by rewrite !lookup_omap, lookup_delete_eq, E; cbn; rewrite Hs.
    + by rewrite !lookup_omap, lookup_delete_eq, E.
  - destruct (e !! key) as [s|] eqn:E; [destruct (Py.truthy s) eqn:Hs|];
      rewrite ?lookup_insert_ne by done;
      by rewrite !lookup_omap, lookup_delete_ne.
Qed.

Section RuleBasedService.

Context {K datetime : Type}.
Variable zero half : K.
Variable gt : K -> K -> bool.
Variable client : option (string -> option (Ai.AiResult K)).
Variable dateparser_parse : datetime -> string -> option datetime.
Variable isoformat : datetime -> string.
Variable MAX_TRANSCRIPT_LENGTH : nat.
Variable CRM_BASE_URL : string.
Variable post : Crm.Request -> Crm.Reply.
Variable validation_error : gmap string (option string) -> string.
Hypothesis isoformat_nonempty : forall d, isoformat d <> "".

Lemma visit_payload (now : datetime) (text lead_id visit_time : string) :
  visit_entities dateparser_parse isoformat now text !! "lead_id" = Some lead_id ->
  Py.truthy lead_id = true ->
  visit_entities dateparser_parse isoformat now text !! "visit_time"
    = Some visit_time ->
  Py.truthy visit_time = true ->
  <["visit_time" := visit_time]> (<["lead_id" := lead_id]> ∅)
  = truthy_items (delete "notes"
      (visit_entities dateparser_parse isoformat now text)).
Proof.
  intros Hl Htl Hv Htv. apply map_eq. intros k. unfold truthy_items.
  rewrite lookup_omap.
  destruct (decide (k = "notes")) as [->|Hn];
    [by rewrite lookup_delete_eq; simplify_map_eq|].
  rewrite lookup_delete_ne by done.
  destruct (decide (k = "visit_time")) as [->|Ht].
  { rewrite Hv, lookup_insert_eq. cbn. by rewrite Htv. }
  destruct (decide (k = "lead_id")) as [->|Hi].
  { rewrite Hl, lookup_insert_ne, lookup_insert_eq by done. cbn.
    by rewrite Htl. }
  rewrite visit_entities_lookup. repeat case_decide; try done.
  by simplify_map_eq.
Qed.

Lemma update_payload (text status : string) :
  lead_update_entities text !! "status" = Some status ->
  Py.truthy status = true ->
  <["status" := status]> ∅
  = truthy_items (delete "notes" (delete "lead_id" (lead_update_entities text))).
Proof.
  intros Hs Hts. apply map_eq. intros k. unfold truthy_items.
  rewrite lookup_omap.
  destruct (decide (k = "notes")) as [->|Hn];
    [by rewrite lookup_delete_eq; simplify_map_eq|].
  rewrite lookup_delete_ne by done.
  destruct (decide (k = "lead_id")) as [->|Hi];
    [by rewrite lookup_delete_eq; simplify_map_eq|].
  rewrite lookup_delete_ne by done.
  destruct (decide (k = "status")) as [->|Ht].
  { rewrite Hs, lookup_insert_eq. cbn. by rewrite Hts. }
  rewrite lead_update_other; [by simplify_map_eq|].
  intros [?|[?|[?|[]]]]; congruence.
Qed.

(** What the second [try] does with a result of the rule-based parser. *)
Lemma rule_dispatch (now : datetime) (transcript : string) :
  let r := parse_transcript dateparser_parse isoformat now transcript in
  let parsed : Ai.Parsed K :=
    Ai.mkParsed (intent_name (intent r)) (entities r) None None false
      (Some "AI NLU unavailable or failed") false None None in
  let url := rstrip_chars "/" CRM_BASE_URL in
  App.dispatch CRM_BASE_URL post validation_error transcript parsed
  = match intent r with
    | LEAD_CREATE =>
        let request := Crm.mkRequest (url +:+ "/crm/leads") (entities r) 3 in
        ([request],
         App.answered validation_error transcript parsed "/crm/leads"
           "Lead created" "lead_id" (post request))
    | VISIT_SCHEDULE =>
        let request :=
          Crm.mkRequest (url +:+ "/crm/visits") (truthy_items (entities r)) 3 in
        ([request],
         App.answered validation_error transcript parsed "/crm/visits"
           "Visit scheduled" "visit_id" (post request))
    | LEAD_UPDATE =>
        let request :=
          Crm.mkRequest
            (url +:+ "/crm/leads/" +:+ App.item (entities r) "lead_id"
             +:+ "/status")
            (truthy_items (delete "lead_id" (entities r))) 3 in
        ([request],
         App.answered validation_error transcript parsed
           "/crm/leads/{lead_id}/status" "Lead status updated" "status"
           (post request))
    | UNKNOWN =>
        ([], App.respond validation_error transcript parsed None
               (<["message" := Some "Could not determine intent"]> ∅))
    end.
Proof.
  intros r parsed url. subst r parsed url.
  destruct (parse_transcript_cases dateparser_parse isoformat now transcript)
    as [[Hc E]|[(_ & Hv & E)|[(_ & _ & Hu & E)|(_ & _ & _ & E)]]];
    rewrite E; cbn [intent entities intent_name]; unfold App.dispatch;
    cbn [Ai.intent Ai.entities].
  - change (String.eqb "LEAD_CREATE" "LEAD_CREATE") with true. cbv iota.
    destruct (create_truthy _ Hc) as (n & p & c & Hn & Htn & Hp & Htp & Hcity & Htc).
    unfold App.lacks, App.item. rewrite Hn, Hp, Hcity. cbn [opt_truthy default from_option id].
    rewrite Htn, Htp, Htc. cbn [negb orb].
    unfold Crm.create_lead, Crm.session_post. cbv beta iota zeta. change Crm.TIMEOUT with 3.
    by rewrite (create_payload _ n p c Hn Hp Hcity).
  - change (String.eqb "VISIT_SCHEDULE" "LEAD_CREATE") with false.
    change (String.eqb "VISIT_SCHEDULE" "VISIT_SCHEDULE") with true. cbv iota.
    destruct (visit_truthy dateparser_parse isoformat isoformat_nonempty _ _ Hv)
      as (l & v & Hl & Htl & Hvt & Htv).
    unfold App.lacks, App.item. rewrite Hl, Hvt. cbn [opt_truthy default from_option id].
    rewrite Htl, Htv. cbn [negb orb].
    unfold Crm.schedule_visit, Crm.session_post. cbv beta iota zeta. change Crm.TIMEOUT with 3.
    by rewrite (optional_payload _ _ "notes" (visit_payload _ _ _ _ Hl Htl Hvt Htv)).
  - change (String.eqb "LEAD_UPDATE" "LEAD_CREATE") with false.
    change (String.eqb "LEAD_UPDATE" "VISIT_SCHEDULE") with false.
    change (String.eqb "LEAD_UPDATE" "LEAD_UPDATE") with true. cbv iota.
    destruct (update_truthy _ Hu) as (l & st & Hl & Htl & Hst & Hts).
    unfold App.lacks, App.item. rewrite Hl, Hst. cbn [opt_truthy default from_option id].
    rewrite Htl, Hts. cbn [negb orb].
    unfold Crm.update_lead_status, Crm.session_post. cbv beta iota zeta. change Crm.TIMEOUT with 3.
    assert (En : lead_update_entities (Py.strip transcript) !! "notes"
                 = delete "lead_id" (lead_update_entities (Py.strip transcript))
                     !! "notes") by (by rewrite lookup_delete_ne).
    rewrite En.
    by rewrite (optional_payload _ _ "notes" (update_payload _ _ Hst Hts)).
  - change (String.eqb "UNKNOWN" "LEAD_CREATE") with false.
    change (String.eqb "UNKNOWN" "VISIT_SCHEDULE") with false.
    by change (String.eqb "UNKNOWN" "LEAD_UPDATE") with false.
Qed.

Lemma bot_handle_valid (now : datetime) (transcript : string) :
  transcript <> "" -> String.length transcript <= MAX_TRANSCRIPT_LENGTH ->
  bot_handle zero half gt client false dateparser_parse isoformat
    MAX_TRANSCRIPT_LENGTH CRM_BASE_URL post validation_error now transcript
  = App.dispatch CRM_BASE_URL post validation_error transcript
      (Ai.mkParsed
         (intent_name
            (intent (parse_transcript dateparser_parse isoformat now transcript)))
         (entities (parse_transcript dateparser_parse isoformat now transcript))
         None None false (Some "AI NLU unavailable or failed") false None None).
Proof.
  intros Hne Hlen. unfold bot_handle.
  rewrite handle_valid by done. by rewrite parse_transcript_off.
Qed.

(** X18: with USE_AI_NLU off, a transcript that is not empty and not too
    long makes the service send exactly one request to the CRM when the
    rule-based parser finds an intent, and none when it finds none.  The
    request goes to the URL of the intent under the base URL, with
    timeout 3, and carries the entities: all of them for LEAD_CREATE; those
    that are not empty for VISIT_SCHEDULE; for LEAD_UPDATE the lead_id is in
    the URL and the other entities that are not empty are in the body. *)
Theorem rule_based_request (now : datetime) (transcript : string) :
  transcript <> "" -> String.length transcript <= MAX_TRANSCRIPT_LENGTH ->
  let r := parse_transcript dateparser_parse isoformat now transcript in
  let sent :=
    (bot_handle zero half gt client false dateparser_parse isoformat
       MAX_TRANSCRIPT_LENGTH CRM_BASE_URL post validation_error now
       transcript).1 in
  let url := rstrip_chars "/" CRM_BASE_URL in
  match intent r with
  | LEAD_CREATE =>
      sent = [Crm.mkRequest (url +:+ "/crm/leads") (entities r) 3]
  | VISIT_SCHEDULE =>
      sent = [Crm.mkRequest (url +:+ "/crm/visits")
                (truthy_items (entities r)) 3]
  | LEAD_UPDATE =>
      exists lead_id,
        entities r !! "lead_id" = Some lead_id /\
        sent = [Crm.mkRequest
                  (url +:+ "/crm/leads/" +:+ lead_id +:+ "/status")
                  (truthy_items (delete "lead_id" (entities r))) 3]
  | UNKNOWN => sent = []
  end.
Proof.
  intros Hne Hlen r sent url. subst sent.
  rewrite bot_handle_valid by done. rewrite rule_dispatch. fold r. fold url.
  destruct (intent r) eqn:Hi; cbv zeta; cbn [fst]; try done.
  destruct (update_result dateparser_parse isoformat now transcript Hi)
    as [Er Hu].
  destruct (update_truthy _ Hu) as (l & st & Hl & _).
  exists l. fold r in Er. rewrite Er. split; [done|].
  unfold App.item. by rewrite Hl.
Qed.

(** X19: with USE_AI_NLU off, the service answers 400 only for a transcript
    that is empty or longer than MAX_TRANSCRIPT_LENGTH, and then without a
    request to the CRM: the entities that the rule-based parser returns with
    an intent always pass the entity check of the handler. *)
Theorem missing_entities_unreachable (now : datetime) (transcript : string)
    (type details : string) :
  let run :=
    bot_handle zero half gt client false dateparser_parse isoformat
      MAX_TRANSCRIPT_LENGTH CRM_BASE_URL post validation_error now transcript in
  run.2.2 = App.HTTPException 400 type details ->
  (transcript = "" \/ MAX_TRANSCRIPT_LENGTH < String.length transcript) /\
  run.1 = [] /\ type = "VALIDATION_ERROR" /\
  details = "Transcript missing or too long".
Proof.
  intros run. subst run.
  destruct (transcript_valid_dec MAX_TRANSCRIPT_LENGTH transcript)
    as [Hbad|[Hne Hlen]].
  { unfold bot_handle. rewrite handle_invalid by done. cbn [fst snd].
    by intros [= <- <-]. }
  rewrite bot_handle_valid by done. rewrite rule_dispatch.
  set (parsed := Ai.mkParsed _ _ _ _ _ _ _ _ _).
  assert (Hans : forall endpoint message key resp,
            (App.answered validation_error transcript parsed endpoint message
               key resp).2 <> App.HTTPException 400 type details).
  { intros endpoint message key resp.
    destruct (answered_cases validation_error transcript parsed endpoint
                message key resp); cbn [snd]; unfold App.unexpected;
      cbn [snd]; discriminate. }
  destruct (intent _); cbv zeta; cbn [fst snd]; intros H;
    try (by apply Hans in H).
  exfalso. revert H. unfold App.respond. rewrite validated_message.
  cbn [snd]. discriminate.
Qed.

End RuleBasedService.

Lemma rule_based_request_witness :
  (Demo.handle "Mark lead abc-123 as WON, notes: paid in full").1
  = [Crm.mkRequest "http://localhost:8001/crm/leads/abc-123/status"
       (<["notes" := "paid in full"]> (<["status" := "WON"]> ∅)) 3].
Proof.
  pose proof (rule_based_request 0 5 (fun a b => b <? a) None Clock.parse
                Clock.isoformat 1000 "http://localhost:8001/" Demo.post
                (fun _ => "result is not valid") ltac:(by intros [])
                day1 "Mark lead abc-123 as WON, notes: paid in full"
                ltac:(discriminate) ltac:(vm_compute; lia)) as H.
  cbv zeta in H.
  change (bot_handle _ _ _ _ _ _ _ _ _ _ _ _ _)
    with (Demo.handle "Mark lead abc-123 as WON, notes: paid in full") in H.
  assert (Hi : intent (parse_transcript Clock.parse Clock.isoformat day1
                 "Mark lead abc-123 as WON, notes: paid in full") = LEAD_UPDATE)
    by (vm_compute; reflexivity).
  rewrite Hi in H. destruct H as (lead_id & Hl & ->).
  vm_compute in Hl. injection Hl as <-. vm_compute. reflexivity.
Defined.

Lemma missing_entities_unreachable_witness :
  (Demo.handle "").2.2
  = App.HTTPException 400 "VALIDATION_ERROR" "Transcript missing or too long" /\
  (Demo.handle "").1 = [].
Proof.
  assert (H : (Demo.handle "").2.2
              = App.HTTPException 400 "VALIDATION_ERROR"
                  "Transcript missing or too long") by reflexivity.
  split; [exact H|].
  exact (proj1 (proj2 (missing_entities_unreachable 0 5 (fun a b => b <? a)
           None Clock.parse Clock.isoformat 1000 "http://localhost:8001/"
           Demo.post (fun _ => "result is not valid") ltac:(by intros [])
           day1 "" _ _ H))).
Defined.
